(** * go-smb2: the connection core ([conn.go]) and the Kerberos initiator
    ([initiator_krb5.go]), embedded shallowly.

    Integers of the Go code are [Z] with the wrap-around of their width
    written out; byte slices are Go slices (a window on a backing array, with
    a length and a capacity); the outstanding-request table is a finite map
    from message ids to pointers into a store of request records, so that the
    aliasing between the table and the callers' records is kept. *)

From Stdlib Require Import ZArith List Bool Lia String Sorted.
From Stdlib Require Import Init.Byte.
From stdpp Require Import base option list gmap.

Local Open Scope Z_scope.

(** * Part I: the embedding *)

(** ** Fixed-width unsigned integers *)

Definition uint16 (z : Z) : Z := z mod 2 ^ 16.
Definition uint32 (z : Z) : Z := z mod 2 ^ 32.
Definition uint64 (z : Z) : Z := z mod 2 ^ 64.

(** ** Errors of the package *)

Inductive error : Type :=
| InvalidResponseError (msg : string)
| InternalError (msg : string)
| TransportError (cause : string)
| ContextError (cause : string)
| ResponseError (code : Z) (data : list (list byte))
| ErrExist
| ErrNotExist
| ErrPermission
| SessionClosed (cause : error).

(** ** Outcomes of a Go call: a value, a run-time panic, or a goroutine
    that blocks forever. *)

Inductive result (A : Type) : Type :=
| Ret (a : A)
| Panic
| Block.

Arguments Ret {A} a.
Arguments Panic {A}.
Arguments Block {A}.

#[global] Instance result_ret : MRet result := fun A a => Ret a.

#[global] Instance result_bind : MBind result := fun A B k m =>
  match m with
  | Ret a => k a
  | Panic => Panic
  | Block => Block
  end.

#[global] Instance result_fmap : FMap result := fun A B f m =>
  match m with
  | Ret a => Ret (f a)
  | Panic => Panic
  | Block => Block
  end.

Definition of_option {A : Type} (o : option A) : result A :=
  match o with
  | Some a => Ret a
  | None => Panic
  end.

(** ** Go byte slices

    A slice is a window on a backing array.  [backing] holds the cells of the
    array from the first element of the slice up to its capacity, [len] says
    how many of them are inside the slice.  Slicing may reach past [len] up
    to the capacity, and panics ([None]) past it. *)

Module GoSlice.

Record slice : Type := mk { backing : list byte; len : nat }.

Definition cap (s : slice) : nat := length (backing s).

(** The bytes a [range] over the slice sees. *)
Definition elems (s : slice) : list byte := take (len s) (backing s).

(** The nil slice. *)
Definition nil : slice := mk [] 0.

(** A slice whose capacity is its length. *)
Definition of_list (l : list byte) : slice := mk l (length l).

(** A slice of [l] with the cells [extra] of spare capacity behind it. *)
Definition with_spare (l extra : list byte) : slice :=
  mk (l ++ extra) (length l).

(** [s[:hi]]: in range iff [hi <= cap(s)]. *)
Definition slice_to (s : slice) (hi : nat) : option slice :=
  if (hi <=? cap s)%nat then Some (mk (backing s) hi) else None.

(** [s[lo:]]: the upper bound defaults to [len(s)], so in range iff
    [lo <= len(s)]. *)
Definition slice_from (s : slice) (lo : nat) : option slice :=
  if (lo <=? len s)%nat then Some (mk (drop lo (backing s)) (len s - lo))
  else None.

(** [s[lo:hi]]: in range iff [lo <= hi <= cap(s)]. *)
Definition sub (s : slice) (lo hi : nat) : option slice :=
  if ((lo <=? hi) && (hi <=? cap s))%nat
  then Some (mk (drop lo (backing s)) (hi - lo))
  else None.

(** [append(s, b)]: in place while there is capacity, otherwise into a
    fresh array.  The capacity of the fresh array is left to the runtime by
    the language; it is taken as small as it can be, which no caller in
    this file observes. *)
Definition append (s : slice) (b : byte) : slice :=
  if (len s <? cap s)%nat
  then mk (<[len s := b]> (backing s)) (S (len s))
  else mk (elems s ++ [b]) (S (len s)).

End GoSlice.

Abbreviation slice := GoSlice.slice.

(** ** [initiator_krb5.go] *)

Module Krb5.
Import GoSlice.

(** The loop [for len(sliced) < 16 { sliced = append(sliced, 0x00) }];
    it runs at most 16 times, which is the fuel [sessionKey] gives it. *)
Fixpoint pad16 (fuel : nat) (sliced : slice) : slice :=
  if (len sliced <? 16)%nat then
    match fuel with
    | O => sliced
    | S fuel' => pad16 fuel' (append sliced x00)
    end
  else sliced.

(** [KerberosInitiator.sessionKey], as a function of what
    [k.gssimpl.SessionKey()] returns. *)
Definition sessionKey (gssKey : slice) : result slice :=
  sliced ← of_option (slice_to gssKey 16);
  Ret (pad16 16 sliced).

End Krb5.

(** ** The SMB2 packet header as the receiver reads it *)

Module PacketCodec.
Import GoSlice.

(** [binary.LittleEndian.UintN] of a byte string. *)
Fixpoint le (bs : list byte) : Z :=
  match bs with
  | [] => 0
  | b :: bs' => Z.of_N (Byte.to_N b) + 256 * le bs'
  end.

(** [le.UintN(p[lo:hi])]: the slice expression reaches up to the capacity
    of [p], not its length. *)
Definition field (p : slice) (lo hi : nat) : result Z :=
  s ← of_option (sub p lo hi);
  Ret (le (elems s)).

(** Modelled from the spec: the accessors of [PacketCodec] (package
    [internal/smb2], not among the sources).  They read the 64-byte SMB2
    header of the wire format, fields in the order Protocol (4 bytes),
    StructureSize (2), CreditCharge (2), Status (4), Command (2),
    CreditRequest/CreditResponse (2), Flags (4), NextCommand (4),
    MessageId (8), AsyncId (8), SessionId (8), Signature (16), all
    little-endian. *)
Definition CreditCharge (p : slice) : result Z := field p 6 8.
Definition Status (p : slice) : result Z := field p 8 12.
Definition Command (p : slice) : result Z := field p 12 14.
Definition CreditResponse (p : slice) : result Z := field p 14 16.
Definition Flags (p : slice) : result Z := field p 16 20.
Definition NextCommand (p : slice) : result Z := field p 20 24.
Definition MessageId (p : slice) : result Z := field p 24 32.
Definition AsyncId (p : slice) : result Z := field p 32 40.
Definition SessionId (p : slice) : result Z := field p 40 48.

(** What follows the header: [p[64:]]. *)
Definition Data (p : slice) : result slice := of_option (slice_from p 64).

End PacketCodec.

(** ** [conn.go]: data *)

Module Chan.

(** A [chan []byte] made with capacity 1: at most one buffered value, and
    whether the channel was closed. *)
Record chan : Type := mk { buf : option slice; closed : bool }.

Definition make : chan := mk None false.

(** [close(c)]: closing a closed channel panics. *)
Definition close (c : chan) : result chan :=
  if closed c then Panic else Ret (mk (buf c) true).

(** [c <- v], outside a [select]: panics on a closed channel, blocks while
    the buffer is full. *)
Definition send (c : chan) (v : slice) : result chan :=
  if closed c then Panic
  else match buf c with
       | Some _ => Block
       | None => Ret (mk (Some v) false)
       end.

End Chan.

(** Pointers to [requestResponse] records. *)
Abbreviation loc := positive.

Module RR.

(** [type requestResponse struct]; the [ctx] field is the caller's
    cancellation handle, whose firing is an input of [sendWith] and [recv]
    below. *)
Record requestResponse : Type := mk {
  msgId : Z;
  asyncId : Z;
  creditRequest : Z;
  pkt : slice;
  recv : Chan.chan;
  err : option error
}.

(** [rr.err = e] together with the new state of [rr.recv]. *)
Definition fail (e : error) (ch : Chan.chan) (rr : requestResponse) : requestResponse :=
  mk (msgId rr) (asyncId rr) (creditRequest rr) (pkt rr) ch (Some e).

(** The record after [rr.err = e; close(rr.recv)] on an open channel. *)
Definition shut (e : error) (rr : requestResponse) : requestResponse :=
  fail e (Chan.mk (Chan.buf (recv rr)) true) rr.

Definition with_recv (ch : Chan.chan) (rr : requestResponse) : requestResponse :=
  mk (msgId rr) (asyncId rr) (creditRequest rr) (pkt rr) ch (err rr).

Definition with_asyncId (a : Z) (rr : requestResponse) : requestResponse :=
  mk (msgId rr) a (creditRequest rr) (pkt rr) (recv rr) (err rr).

End RR.

Abbreviation requestResponse := RR.requestResponse.

(** The fields of [treeConn] and [session] that [conn.go] reads. *)
Record treeConn : Type := mkTreeConn { treeId : Z; shareFlags : Z }.

Record session : Type := mkSession {
  sessionId : Z;
  sessionFlags : Z;
  treeConnTables : gmap Z treeConn
}.

(** The header fields of a request that the send path reads and writes. *)
Record PacketHeader : Type := mkHeader {
  CreditCharge : Z;
  CreditRequestResponse : Z;
  MessageId : Z;
  SessionId : Z;
  TreeId : Z
}.

(** A negotiate context of a request: the hash context with its algorithms
    and salt, or the cipher context with its ciphers. *)
Inductive RequestContext : Type :=
| HashContext (HashAlgorithms : list Z) (HashSalt : list byte)
| CipherContext (Ciphers : list Z).

(** The requests the send path tells apart by their dynamic type. *)
Inductive Body : Type :=
| CancelRequest
| SessionSetupRequest (data : list byte)
| NegotiateRequest (SecurityMode Capabilities : Z) (ClientGuid : list byte)
    (Dialects : list Z) (Contexts : list RequestContext)
| OtherRequest (cmd : Z) (data : list byte).

(** A value of the interface [Packet]. *)
Record Packet : Type := mkPacket { Header : PacketHeader; body : Body }.

Definition isCancel (b : Body) : bool :=
  match b with CancelRequest => true | _ => false end.

Definition isSessionSetup (b : Body) : bool :=
  match b with SessionSetupRequest _ => true | _ => false end.

(** ** [conn.go]: what it takes from the rest of the package *)

(** Flag, command, status and algorithm constants of the packages
    [internal/smb2] and [internal/erref], and the client's offers of
    [feature.go]. *)
Class Constants : Type := {
  SMB2_GLOBAL_CAP_LARGE_MTU : Z;
  SMB2_FLAGS_SIGNED : Z;
  SMB2_SESSION_FLAG_IS_GUEST : Z;
  SMB2_SESSION_FLAG_IS_NULL : Z;
  SMB2_SESSION_FLAG_ENCRYPT_DATA : Z;
  SMB2_SHAREFLAG_ENCRYPT_DATA : Z;
  SMB2_NEGOTIATE_SIGNING_ENABLED : Z;
  SMB2_NEGOTIATE_SIGNING_REQUIRED : Z;
  SMB2_PREAUTH_INTEGRITY_CAPABILITIES : Z;
  SMB2_ENCRYPTION_CAPABILITIES : Z;
  SHA512 : Z;
  AES128CCM : Z;
  AES128GCM : Z;
  SMB2_NEGOTIATE : Z;
  SMB2_SESSION_SETUP : Z;
  SMB2_QUERY_INFO : Z;
  SMB2_IOCTL : Z;
  SMB2_READ : Z;
  SMB2_CHANGE_NOTIFY : Z;
  STATUS_SUCCESS : Z;
  STATUS_PENDING : Z;
  STATUS_OBJECT_NAME_COLLISION : Z;
  STATUS_OBJECT_NAME_NOT_FOUND : Z;
  STATUS_OBJECT_PATH_NOT_FOUND : Z;
  STATUS_ACCESS_DENIED : Z;
  STATUS_CANNOT_DELETE : Z;
  STATUS_MORE_PROCESSING_REQUIRED : Z;
  STATUS_BUFFER_OVERFLOW : Z;
  STATUS_NOTIFY_ENUM_DIR : Z;
  clientCapabilities : Z;
  clientDialects : list Z;
  clientHashAlgorithms : list Z;
  clientCiphers : list Z
}.

(** Modelled from the spec: the dialect constants, which the sources use
    and [internal/smb2] declares: SMB 2.0.2 = 0x0202, SMB 2.1 = 0x0210,
    SMB 3.0 = 0x0300, SMB 3.0.2 = 0x0302, SMB 3.1.1 = 0x0311, and the
    wildcard SMB 2.x = 0x02FF.  [UnknownSMB] is the zero value of the field
    [SpecifiedDialect] (its comment: if it is zero, clientDialects is
    used). *)
Definition UnknownSMB : Z := 0.
Definition SMB2 : Z := 0x02FF.
Definition SMB202 : Z := 0x0202.
Definition SMB210 : Z := 0x0210.
Definition SMB300 : Z := 0x0300.
Definition SMB302 : Z := 0x0302.
Definition SMB311 : Z := 0x0311.

(** The decoders of [internal/smb2] that [conn.go] applies to a reply, each
    as the view its accessors give. *)
Module NegotiateResponse.
Record view : Type := mk {
  IsInvalid : bool;
  SecurityMode : Z;
  DialectRevision : Z;
  NegotiateContextCount : Z;
  Capabilities : Z;
  MaxTransactSize : Z;
  MaxReadSize : Z;
  MaxWriteSize : Z;
  NegotiateContextList : list byte
}.
End NegotiateResponse.

Module NegotiateContext.
Record view : Type := mk {
  IsInvalid : bool;
  ContextType : Z;
  Data : list byte;
  Next : Z
}.
End NegotiateContext.

Module HashContextData.
Record view : Type := mk { IsInvalid : bool; HashAlgorithms : list Z }.
End HashContextData.

Module CipherContextData.
Record view : Type := mk { IsInvalid : bool; Ciphers : list Z }.
End CipherContextData.

Module ErrorResponse.
Record view : Type := mk {
  IsInvalid : bool;
  ErrorContextCount : Z;
  ErrorData : list byte
}.
End ErrorResponse.

Module ErrorContextResponse.
Record view : Type := mk {
  IsInvalid : bool;
  ErrorContextData : list byte;
  Next : Z
}.
End ErrorContextResponse.

Class Decoders : Type := {
  NegotiateResponseDecoder : list byte -> NegotiateResponse.view;
  NegotiateContextDecoder : list byte -> NegotiateContext.view;
  HashContextDataDecoder : list byte -> HashContextData.view;
  CipherContextDataDecoder : list byte -> CipherContextData.view;
  ErrorResponseDecoder : list byte -> ErrorResponse.view;
  ErrorContextResponseDecoder : list byte -> ErrorContextResponse.view;
  IoctlResponseIsInvalid : list byte -> bool
}.

(** [crypto/sha512]: the digest of a byte string. *)
Class Sha512 : Type := { Sum512 : list byte -> list byte }.

(** [crypto/rand.Read] on a buffer of the given length: the bytes, or the
    text of the error. *)
Class Entropy (rng : Type) : Type := {
  randRead : nat -> rng -> (list byte + string) * rng
}.

(** [req.Size()] and [req.Encode(pkt)] of the request types. *)
Class Codec : Type := { Encode : Packet -> list byte }.

(** The methods of [*session] ([session.go]): [encrypt] fails with an error
    text or gives the transformed packet. *)
Class SessionCrypto : Type := {
  encrypt : session -> slice -> slice + string;
  sign : session -> slice -> slice;
  verify : session -> slice -> bool
}.

(** The credit account ([credit.go]): [opening] hands out the margin and
    may reset it, [charge] books a reply, [loan] waits for credits and says
    how many it got, whether that is all that was asked, and an error when
    the caller's context fired. *)
Class Account (account : Type) : Type := {
  opening : account -> Z * account;
  charge : Z -> Z -> account -> account;
  loan : Z -> account -> result (Z * bool * option error * account)
}.

(** ** [conn.go]: the connection *)

Module Conn.
Import GoSlice.

Abbreviation sessionT := session.

Section WithCollaborators.
Context {account : Type} {Acct : Account account} {K : Constants} {Cdc : Codec}
  {Cry : SessionCrypto}.

(** [type conn struct].  [requests] is [conn.outstandingRequests.requests];
    [records] is the part of the heap that holds the [requestResponse]
    records the table and the callers point to; [acct] is the field
    [account], held by value, as nothing else of this file shares it. *)
Record conn : Type := mk {
  session : option sessionT;
  requests : gmap Z loc;
  records : gmap loc requestResponse;
  sequenceWindow : Z;
  dialect : Z;
  maxTransactSize : Z;
  maxReadSize : Z;
  maxWriteSize : Z;
  requireSigning : bool;
  capabilities : Z;
  preauthIntegrityHashId : Z;
  preauthIntegrityHashValue : list byte;
  cipherId : Z;
  acct : account;
  err : option error
}.

Definition set_requests (t : gmap Z loc) (c : conn) : conn :=
  mk (session c) t (records c) (sequenceWindow c) (dialect c)
     (maxTransactSize c) (maxReadSize c) (maxWriteSize c) (requireSigning c)
     (capabilities c) (preauthIntegrityHashId c) (preauthIntegrityHashValue c)
     (cipherId c) (acct c) (err c).

Definition set_records (h : gmap loc requestResponse) (c : conn) : conn :=
  mk (session c) (requests c) h (sequenceWindow c) (dialect c)
     (maxTransactSize c) (maxReadSize c) (maxWriteSize c) (requireSigning c)
     (capabilities c) (preauthIntegrityHashId c) (preauthIntegrityHashValue c)
     (cipherId c) (acct c) (err c).

Definition set_sequenceWindow (w : Z) (c : conn) : conn :=
  mk (session c) (requests c) (records c) w (dialect c)
     (maxTransactSize c) (maxReadSize c) (maxWriteSize c) (requireSigning c)
     (capabilities c) (preauthIntegrityHashId c) (preauthIntegrityHashValue c)
     (cipherId c) (acct c) (err c).

Definition set_acct (a : account) (c : conn) : conn :=
  mk (session c) (requests c) (records c) (sequenceWindow c) (dialect c)
     (maxTransactSize c) (maxReadSize c) (maxWriteSize c) (requireSigning c)
     (capabilities c) (preauthIntegrityHashId c) (preauthIntegrityHashValue c)
     (cipherId c) a (err c).

Definition set_err (e : option error) (c : conn) : conn :=
  mk (session c) (requests c) (records c) (sequenceWindow c) (dialect c)
     (maxTransactSize c) (maxReadSize c) (maxWriteSize c) (requireSigning c)
     (capabilities c) (preauthIntegrityHashId c) (preauthIntegrityHashValue c)
     (cipherId c) (acct c) e.

(** What negotiation and session setup write and the send and receive
    paths only read. *)
Definition settings (c : conn) :=
  (session c, dialect c, maxTransactSize c, maxReadSize c, maxWriteSize c,
   requireSigning c, capabilities c, preauthIntegrityHashId c,
   preauthIntegrityHashValue c, cipherId c).

(** A later state of the connection: the settings are the same, and every
    record is still where it was, with its request packet. *)
Definition evolves (c c' : conn) : Prop :=
  settings c' = settings c
  /\ forall l rr, records c !! l = Some rr ->
       exists rr', records c' !! l = Some rr' /\ RR.pkt rr' = RR.pkt rr.

(** The state of the table between calls, until [shutdown]: no record is
    entered under two message ids, and every record entered exists and has
    its result channel open. *)
Definition tableOk (c : conn) : Prop :=
  (forall i j l, requests c !! i = Some l -> requests c !! j = Some l -> i = j)
  /\ (forall i l, requests c !! i = Some l ->
        exists rr, records c !! l = Some rr /\ Chan.closed (RR.recv rr) = false).

(** *** The outstanding-request table *)

(** [outstandingRequests.pop]: the record found (if any), deleted from the
    table. *)
Definition pop (id : Z) (c : conn) : option loc * conn :=
  match requests c !! id with
  | None => (None, c)
  | Some l => (Some l, set_requests (delete id (requests c)) c)
  end.

(** [outstandingRequests.set]. *)
Definition set (id : Z) (l : loc) (c : conn) : conn :=
  set_requests (<[id := l]> (requests c)) c.

(** Reading and writing a record through its pointer. *)
Definition deref (c : conn) (l : loc) : result requestResponse :=
  of_option (records c !! l).

Definition store (l : loc) (rr : requestResponse) (c : conn) : conn :=
  set_records (<[l := rr]> (records c)) c.

(** One turn of the loop of [shutdown]: [rr.err = err; close(rr.recv)]. *)
Definition shutdown_one (e : error) (l : loc) (c : conn) : result conn :=
  rr ← deref c l;
  ch ← Chan.close (RR.recv rr);
  Ret (store l (RR.fail e ch rr) c).

Fixpoint shutdown_all (e : error) (ls : list loc) (c : conn) : result conn :=
  match ls with
  | [] => Ret c
  | l :: ls' => c' ← shutdown_one e l c; shutdown_all e ls' c'
  end.

(** [outstandingRequests.shutdown]: the loop ranges over the entries of the
    table, in an order the language leaves open; the table itself is not
    written. *)
Definition shutdown (e : error) (c : conn) : result conn :=
  shutdown_all e (map_to_list (requests c)).*2 c.

(** *** Credits *)

(** The credit charge [loanCredit] asks the account for. *)
Definition creditChargeFor (payloadSize : Z) (c : conn) : Z :=
  if Z.land (capabilities c) SMB2_GLOBAL_CAP_LARGE_MTU =? 0 then 1
  else uint16 ((payloadSize - 1) ÷ (64 * 1024) + 1).

(** [conn.loanCredit]: the credits got, the payload size granted, and the
    error of the loan. *)
Definition loanCredit (payloadSize : Z) (c : conn) : result (Z * Z * option error * conn) :=
  let creditCharge := creditChargeFor payloadSize c in
  '(creditCharge, isComplete, e, a) ← loan creditCharge (acct c);
  let c := set_acct a c in
  match e with
  | Some e => Ret (creditCharge, 0, Some e, c)
  | None =>
      if isComplete : bool then Ret (creditCharge, payloadSize, None, c)
      else Ret (creditCharge, 64 * 1024 * creditCharge, None, c)
  end.

(** [conn.chargeCredit]. *)
Definition chargeCredit (creditCharge : Z) (c : conn) : conn :=
  set_acct (charge creditCharge creditCharge (acct c)) c.

(** *** The send path *)

Definition set_crr (v : Z) (h : PacketHeader) : PacketHeader :=
  mkHeader (CreditCharge h) v (MessageId h) (SessionId h) (TreeId h).

Definition set_MessageId (v : Z) (h : PacketHeader) : PacketHeader :=
  mkHeader (CreditCharge h) (CreditRequestResponse h) v (SessionId h) (TreeId h).

Definition set_SessionId (v : Z) (h : PacketHeader) : PacketHeader :=
  mkHeader (CreditCharge h) (CreditRequestResponse h) (MessageId h) v (TreeId h).

Definition set_TreeId (v : Z) (h : PacketHeader) : PacketHeader :=
  mkHeader (CreditCharge h) (CreditRequestResponse h) (MessageId h) (SessionId h) v.

(** The first block of [makeRequestResponse]: the message id, the header
    and the connection after it. *)
Definition assignMessageId (req : Packet) (c : conn) : Z * PacketHeader * conn :=
  let hdr := Header req in
  if isCancel (body req) then (0, hdr, c)
  else
    let msgId := sequenceWindow c in
    let creditCharge := CreditCharge hdr in
    let c := set_sequenceWindow (uint64 (sequenceWindow c + creditCharge)) c in
    let hdr := if CreditRequestResponse hdr =? 0 then set_crr creditCharge hdr else hdr in
    let '(o, a) := opening (acct c) in
    let hdr := set_crr (uint16 (CreditRequestResponse hdr + o)) hdr in
    (msgId, hdr, set_acct a c).

(** The session id and tree id written to the header when a session is
    active. *)
Definition stampSession (s : option sessionT) (tc : option treeConn) (hdr : PacketHeader) : PacketHeader :=
  match s with
  | None => hdr
  | Some s =>
      let hdr := set_SessionId (sessionId s) hdr in
      match tc with
      | Some tc => set_TreeId (treeId tc) hdr
      | None => hdr
      end
  end.

(** Encryption or signing of the encoded packet. *)
Definition protect (s : option sessionT) (tc : option treeConn) (b : Body) (pkt : slice) : slice + error :=
  match s with
  | None => inl pkt
  | Some s =>
      if isSessionSetup b then inl pkt
      else if negb (Z.land (sessionFlags s) SMB2_SESSION_FLAG_ENCRYPT_DATA =? 0)
              || match tc with
                 | Some tc => negb (Z.land (shareFlags tc) SMB2_SHAREFLAG_ENCRYPT_DATA =? 0)
                 | None => false
                 end
      then match encrypt s pkt with
           | inl pkt' => inl pkt'
           | inr msg => inr (InternalError msg)
           end
      else if Z.land (sessionFlags s)
                (Z.lor SMB2_SESSION_FLAG_IS_GUEST SMB2_SESSION_FLAG_IS_NULL) =? 0
      then inl (sign s pkt)
      else inl pkt
  end.

(** [conn.makeRequestResponse]: the connection after the call, and the new
    record's pointer or the error. *)
Definition makeRequestResponse (req : Packet) (tc : option treeConn) (c : conn) : conn * (loc + error) :=
  let '(msgId, hdr, c) := assignMessageId req c in
  let hdr := set_MessageId msgId hdr in
  let s := session c in
  let hdr := stampSession s tc hdr in
  let pkt := of_list (Encode (mkPacket hdr (body req))) in
  match protect s tc (body req) pkt with
  | inr e => (c, inr e)
  | inl pkt =>
      let l := fresh (dom (records c)) in
      let rr := RR.mk msgId 0 (CreditRequestResponse hdr) pkt Chan.make None in
      (set msgId l (store l rr c), inl l)
  end.

(** What the caller's context and the sender goroutine do during one
    [sendWith]: the [select] statements of the function take the branch
    named here. *)
Inductive wire : Type :=
| Written
| WriteFailed (cause : string)
| DoneAwaitingAck (cause : string)
| DoneBeforeWrite (cause : string).

Record sendEnv : Type := mkSendEnv {
  doneAtEntry : option string;
  onWire : wire
}.

(** [conn.sendWith]. *)
Definition sendWith (req : Packet) (tc : option treeConn) (env : sendEnv) (c : conn) : result (conn * (loc + error)) :=
  match err c with
  | Some e => Ret (c, inr e)
  | None =>
      match doneAtEntry env with
      | Some cause => Ret (c, inr (ContextError cause))
      | None =>
          let '(c, r) := makeRequestResponse req tc c in
          match r with
          | inr e => Ret (c, inr e)
          | inl l =>
              rr ← deref c l;
              match onWire env with
              | Written => Ret (c, inl l)
              | WriteFailed cause =>
                  Ret ((pop (RR.msgId rr) c).2, inr (TransportError cause))
              | DoneAwaitingAck cause =>
                  Ret ((pop (RR.msgId rr) c).2, inr (ContextError cause))
              | DoneBeforeWrite cause =>
                  Ret ((pop (RR.msgId rr) c).2, inr (ContextError cause))
              end
          end
      end
  end.

(** [conn.send]. *)
Definition send (req : Packet) (env : sendEnv) (c : conn) : result (conn * (loc + error)) :=
  sendWith req None env c.

(** [conn.recv]: [ctxDone] says that the [select] takes the branch of the
    caller's context; otherwise it takes the branch of [rr.recv], which is
    ready when the channel holds a value or is closed (a receive from a
    closed, empty channel gives nil). *)
Definition recv (l : loc) (ctxDone : option string) (c : conn) : result (conn * (slice + error)) :=
  rr ← deref c l;
  match ctxDone with
  | Some cause => Ret ((pop (RR.msgId rr) c).2, inr (ContextError cause))
  | None =>
      let ch := RR.recv rr in
      match Chan.buf ch with
      | Some v =>
          let c := store l (RR.with_recv (Chan.mk None (Chan.closed ch)) rr) c in
          match RR.err rr with
          | Some e => Ret (c, inr e)
          | None => Ret (c, inl v)
          end
      | None =>
          if Chan.closed ch then
            match RR.err rr with
            | Some e => Ret (c, inr e)
            | None => Ret (c, inl nil)
            end
          else Block
      end
  end.

(** A sequence of calls of [sendWith]: each call with its request, its
    tree connection and what happens around it. *)
Record sendCall : Type := mkSendCall {
  callReq : Packet;
  callTc : option treeConn;
  callEnv : sendEnv
}.

(** One call: the connection after it and, when a record came back for a
    request other than a cancel, the message id the record carries. *)
Definition sendOne (call : sendCall) (c : conn) : result (conn * option Z) :=
  '(c, r) ← sendWith (callReq call) (callTc call) (callEnv call) c;
  match r with
  | inr _ => Ret (c, None)
  | inl l =>
      rr ← deref c l;
      Ret (c, if isCancel (body (callReq call)) then None else Some (RR.msgId rr))
  end.

(** The calls one after the other, under the connection's mutex. *)
Fixpoint sendAll (calls : list sendCall) (c : conn) : result (conn * list (option Z)) :=
  match calls with
  | [] => Ret (c, [])
  | call :: calls' =>
      '(c, id) ← sendOne call c;
      '(c, ids) ← sendAll calls' c;
      Ret (c, id :: ids)
  end.



(** *** The receive path *)

(** [conn.tryVerify]. *)
Definition tryVerify (pkt : slice) (isEncrypted : bool) (c : conn) : result (option error) :=
  msgId ← PacketCodec.MessageId pkt;
  if negb (msgId =? 0xFFFFFFFFFFFFFFFF) then
    flags ← PacketCodec.Flags pkt;
    if negb (Z.land flags SMB2_FLAGS_SIGNED =? 0) then
      match session c with
      | None => Ret (Some (InvalidResponseError "unknown session id returned"))
      | Some s =>
          sid ← PacketCodec.SessionId pkt;
          if negb (sessionId s =? sid)
          then Ret (Some (InvalidResponseError "unknown session id returned"))
          else if negb (verify s pkt)
          then Ret (Some (InvalidResponseError "unverified packet returned"))
          else Ret None
      end
    else
      if requireSigning c && negb isEncrypted then
        match session c with
        | None => Ret None
        | Some s =>
            if Z.land (sessionFlags s)
                 (Z.lor SMB2_SESSION_FLAG_IS_GUEST SMB2_SESSION_FLAG_IS_NULL) =? 0
            then
              sid ← PacketCodec.SessionId pkt;
              if sessionId s =? sid
              then Ret (Some (InvalidResponseError "signing required"))
              else Ret None
            else Ret None
        end
      else Ret None
  else Ret None.

(** [conn.tryHandle]: the connection after the call and the error
    returned. *)
Definition tryHandle (pkt : slice) (e : option error) (c : conn) : result (conn * option error) :=
  msgId ← PacketCodec.MessageId pkt;
  let '(found, c) := pop msgId c in
  match found with
  | None => Ret (c, Some (InvalidResponseError "unknown message id returned"))
  | Some l =>
      rr ← deref c l;
      match e with
      | Some e =>
          ch ← Chan.close (RR.recv rr);
          Ret (store l (RR.fail e ch rr) c, None)
      | None =>
          status ← PacketCodec.Status pkt;
          if status =? STATUS_PENDING then
            aid ← PacketCodec.AsyncId pkt;
            let rr := RR.with_asyncId aid rr in
            granted ← PacketCodec.CreditResponse pkt;
            let c := set_acct (charge granted (RR.creditRequest rr) (acct c)) c in
            Ret (set msgId l (store l rr c), None)
          else
            granted ← PacketCodec.CreditResponse pkt;
            let c := set_acct (charge granted (RR.creditRequest rr) (acct c)) c in
            ch ← Chan.send (RR.recv rr) pkt;
            Ret (store l (RR.with_recv ch rr) c, None)
      end
  end.

(** The inner loop of [runReciever], which walks a compound chain, for any
    treatment [handle] of one element.  [None] says that the fuel ran out,
    which [S (cap pkt)] turns of fuel never do. *)
Fixpoint splitCompound {S : Type} (handle : slice -> S -> result S)
    (fuel : nat) (pkt : slice) (st : S) : option (result S) :=
  match fuel with
  | O => None
  | Datatypes.S fuel' =>
      match PacketCodec.NextCommand pkt with
      | Panic => Some Panic
      | Block => Some Block
      | Ret off =>
          let cut : result (slice * option slice) :=
            if negb (off =? 0) then
              head ← of_option (slice_to pkt (Z.to_nat off));
              next ← of_option (slice_from pkt (Z.to_nat off));
              Ret (head, Some next)
            else Ret (pkt, None) in
          match cut with
          | Panic => Some Panic
          | Block => Some Block
          | Ret (pkt, next) =>
              match handle pkt st with
              | Panic => Some Panic
              | Block => Some Block
              | Ret st' =>
                  match next with
                  | None => Some (Ret st')
                  | Some next => splitCompound handle fuel' next st'
                  end
              end
          end
      end
  end.

(** What the loop does with one element: verify when the receiver uses the
    session, then dispatch; the error variable [e] of [runReciever] lives
    across the turns of the loop. *)
Definition handleElement (hasSession isEncrypted : bool) (pkt : slice) (st : conn * option error) : result (conn * option error) :=
  let '(c, e) := st in
  e ← (if hasSession then tryVerify pkt isEncrypted c else Ret e);
  tryHandle pkt e c.

(** The compound loop of [runReciever] on one frame [pkt], read without
    error (so [e] is nil on entry). *)
Definition handleFrame (hasSession isEncrypted : bool) (pkt : slice) (c : conn) : result (conn * option error) :=
  match splitCompound (handleElement hasSession isEncrypted) (Datatypes.S (cap pkt)) pkt (c, None) with
  | Some r => r
  | None => Block
  end.

(** What the transport gives the receiver on one turn of its outer loop. *)
Inductive readEvent : Type :=
| Frame (pkt : slice)
| ReadFailed (cause : string) (closing : bool).

(** The exit of [runReciever]: [closing] says that [rdone] was signalled;
    the error goes to every outstanding request and to the connection. *)
Definition receiverExit (cause : string) (closing : bool) (c : conn) : result conn :=
  let e := TransportError cause in
  let e := if closing then SessionClosed e else e in
  c ← shutdown e c;
  Ret (set_err (Some e) c).

(** [runReciever] before [enableSession], over the reads [evs]; a failed
    read ends it. *)
Fixpoint receiver (evs : list readEvent) (c : conn) : result conn :=
  match evs with
  | [] => Ret c
  | Frame pkt :: evs' =>
      '(c, _) ← handleFrame false false pkt c;
      receiver evs' c
  | ReadFailed cause closing :: _ => receiverExit cause closing c
  end.

(** *** Checking a reply *)

Context {Dec : Decoders}.

(** The loop of [acceptError] over the error contexts. *)
Fixpoint errorContexts (count : nat) (eData : list byte) : option (list (list byte)) :=
  match count with
  | O => Some []
  | Datatypes.S count' =>
      let ctx := ErrorContextResponseDecoder eData in
      if ErrorContextResponse.IsInvalid ctx then None
      else
        let next := ErrorContextResponse.Next ctx in
        if Z.of_nat (length eData) <? next then None
        else
          match errorContexts count' (drop (Z.to_nat next) eData) with
          | None => None
          | Some rest => Some (ErrorContextResponse.ErrorContextData ctx :: rest)
          end
  end.

(** [acceptError]. *)
Definition acceptError (status : Z) (res : list byte) : error :=
  let r := ErrorResponseDecoder res in
  if ErrorResponse.IsInvalid r then InvalidResponseError "broken error response format"
  else
    let eData := ErrorResponse.ErrorData r in
    let count := ErrorResponse.ErrorContextCount r in
    if negb (count =? 0) then
      match errorContexts (Z.to_nat count) eData with
      | None => InvalidResponseError "broken error context response format"
      | Some data => ResponseError status data
      end
    else ResponseError status [eData].

(** [accept]: the payload and the error, either of which may be nil. *)
Definition accept (cmd : Z) (pkt : slice) : result (option slice * option error) :=
  command ← PacketCodec.Command pkt;
  if negb (cmd =? command)
  then Ret (None, Some (InvalidResponseError "expected command differs from the one got"))
  else
    status ← PacketCodec.Status pkt;
    if status =? STATUS_SUCCESS then
      d ← PacketCodec.Data pkt; Ret (Some d, None)
    else if status =? STATUS_OBJECT_NAME_COLLISION then Ret (None, Some ErrExist)
    else if (status =? STATUS_OBJECT_NAME_NOT_FOUND) || (status =? STATUS_OBJECT_PATH_NOT_FOUND)
    then Ret (None, Some ErrNotExist)
    else if (status =? STATUS_ACCESS_DENIED) || (status =? STATUS_CANNOT_DELETE)
    then Ret (None, Some ErrPermission)
    else
      let otherwise : result (option slice * option error) :=
        d ← PacketCodec.Data pkt; Ret (None, Some (acceptError status (elems d))) in
      if cmd =? SMB2_SESSION_SETUP then
        if status =? STATUS_MORE_PROCESSING_REQUIRED
        then d ← PacketCodec.Data pkt; Ret (Some d, None)
        else otherwise
      else if cmd =? SMB2_QUERY_INFO then
        if status =? STATUS_BUFFER_OVERFLOW
        then Ret (None, Some (ResponseError status []))
        else otherwise
      else if cmd =? SMB2_IOCTL then
        if status =? STATUS_BUFFER_OVERFLOW then
          d ← PacketCodec.Data pkt;
          if negb (IoctlResponseIsInvalid (elems d))
          then Ret (Some d, Some (ResponseError status []))
          else otherwise
        else otherwise
      else if cmd =? SMB2_READ then
        if status =? STATUS_BUFFER_OVERFLOW
        then Ret (None, Some (ResponseError status []))
        else otherwise
      else if cmd =? SMB2_CHANGE_NOTIFY then
        if status =? STATUS_NOTIFY_ENUM_DIR
        then Ret (None, Some (ResponseError status []))
        else otherwise
      else otherwise.

(** *** Negotiation *)

Context {Sha : Sha512} {rng : Type} {Ent : Entropy rng}.

(** [type Negotiator struct]. *)
Record Negotiator : Type := mkNegotiator {
  RequireMessageSigning : bool;
  ClientGuid : list byte;
  SpecifiedDialect : Z
}.

Definition set_SpecifiedDialect (d : Z) (n : Negotiator) : Negotiator :=
  mkNegotiator (RequireMessageSigning n) (ClientGuid n) d.

(** [n.ClientGuid == zero]. *)
Definition isZeroGuid (g : list byte) : bool := forallb (Byte.eqb x00) g.

(** The hash and cipher contexts of a request that offers SMB 3.1.1. *)
Definition offerContexts (g : rng) : (list RequestContext + error) * rng :=
  match randRead 32 g with
  | (inr msg, g) => (inr (InternalError msg), g)
  | (inl salt, g) =>
      (inl [HashContext clientHashAlgorithms salt; CipherContext clientCiphers], g)
  end.

(** [Negotiator.makeRequest]; a fresh request has the zero header. *)
Definition makeRequest (n : Negotiator) (g : rng) : (Packet + error) * rng :=
  let mode := if RequireMessageSigning n
              then SMB2_NEGOTIATE_SIGNING_REQUIRED
              else SMB2_NEGOTIATE_SIGNING_ENABLED in
  let guid : (list byte + error) * rng :=
    if isZeroGuid (ClientGuid n) then
      match randRead 16 g with
      | (inr msg, g) => (inr (InternalError msg), g)
      | (inl bytes, g) => (inl bytes, g)
      end
    else (inl (ClientGuid n), g) in
  match guid with
  | (inr e, g) => (inr e, g)
  | (inl guid, g) =>
      let request dialects contexts :=
        mkPacket (mkHeader 0 0 0 0 0)
          (NegotiateRequest mode clientCapabilities guid dialects contexts) in
      let d := SpecifiedDialect n in
      if negb (d =? UnknownSMB) then
        if (d =? SMB202) || (d =? SMB210) || (d =? SMB300) || (d =? SMB302)
        then (inl (request [d] []), g)
        else if d =? SMB311 then
          match offerContexts g with
          | (inr e, g) => (inr e, g)
          | (inl ctxs, g) => (inl (request [d] ctxs), g)
          end
        else (inr (InternalError "unsupported dialect specified"), g)
      else
        match offerContexts g with
        | (inr e, g) => (inr e, g)
        | (inl ctxs, g) => (inl (request clientDialects ctxs), g)
        end
  end.

Definition set_CreditCharge (v : Z) (req : Packet) : Packet :=
  let h := Header req in
  mkPacket (mkHeader v (CreditRequestResponse h) (MessageId h) (SessionId h) (TreeId h))
           (body req).

(** What happens around the connection during one exchange of
    [negotiate]: how the send goes, what the receiver goroutine reads before
    the caller's [recv] is served, and whether the caller's context fires
    there. *)
Record exchangeEnv : Type := mkExchangeEnv {
  sending : sendEnv;
  inbound : list readEvent;
  recvDone : option string
}.

(** [conn.send] followed by [conn.recv]: the request packet as sent and the
    reply packet as received, or the error. *)
Definition exchange (req : Packet) (env : exchangeEnv) (c : conn) : result (conn * (slice * slice + error)) :=
  '(c, r) ← send req (sending env) c;
  match r with
  | inr e => Ret (c, inr e)
  | inl l =>
      c ← receiver (inbound env) c;
      rr ← deref c l;
      '(c, r) ← recv l (recvDone env) c;
      match r with
      | inr e => Ret (c, inr e)
      | inl reply => Ret (c, inl (RR.pkt rr, reply))
      end
  end.

(** The connection settings [negotiate] takes from the reply. *)
Definition adopt (n : Negotiator) (r : NegotiateResponse.view) (c : conn) : conn :=
  mk (session c) (requests c) (records c) 1 (NegotiateResponse.DialectRevision r)
     (NegotiateResponse.MaxTransactSize r) (NegotiateResponse.MaxReadSize r)
     (NegotiateResponse.MaxWriteSize r)
     (RequireMessageSigning n
      || negb (Z.land (NegotiateResponse.SecurityMode r) SMB2_NEGOTIATE_SIGNING_REQUIRED =? 0))
     (Z.land clientCapabilities (NegotiateResponse.Capabilities r))
     (preauthIntegrityHashId c) (preauthIntegrityHashValue c) (cipherId c)
     (acct c) (err c).

Definition set_hash (id : Z) (v : list byte) (c : conn) : conn :=
  mk (session c) (requests c) (records c) (sequenceWindow c) (dialect c)
     (maxTransactSize c) (maxReadSize c) (maxWriteSize c) (requireSigning c)
     (capabilities c) id v (cipherId c) (acct c) (err c).

Definition set_cipherId (id : Z) (c : conn) : conn :=
  mk (session c) (requests c) (records c) (sequenceWindow c) (dialect c)
     (maxTransactSize c) (maxReadSize c) (maxWriteSize c) (requireSigning c)
     (capabilities c) (preauthIntegrityHashId c) (preauthIntegrityHashValue c)
     id (acct c) (err c).

(** The two steps of the preauth-integrity hash: the running value and the
    request packet, then the result and the reply packet. *)
Definition preauthHash (value request reply : list byte) : list byte :=
  Sum512 (Sum512 (value ++ request) ++ reply).

(** The body of the loop over the negotiate contexts, up to the step to
    the next context. *)
Definition applyContext (ctx : NegotiateContext.view) (request reply : list byte) (c : conn) : conn + error :=
  let ctype := NegotiateContext.ContextType ctx in
  if ctype =? SMB2_PREAUTH_INTEGRITY_CAPABILITIES then
    let d := HashContextDataDecoder (NegotiateContext.Data ctx) in
    if HashContextData.IsInvalid d
    then inr (InvalidResponseError "broken hash context data format")
    else
      match HashContextData.HashAlgorithms d with
      | [alg] =>
          if alg =? SHA512
          then inl (set_hash alg (preauthHash (preauthIntegrityHashValue c) request reply) c)
          else inr (InvalidResponseError "unknown hash algorithm")
      | _ => inr (InvalidResponseError "multiple hash algorithms")
      end
  else if ctype =? SMB2_ENCRYPTION_CAPABILITIES then
    let d := CipherContextDataDecoder (NegotiateContext.Data ctx) in
    if CipherContextData.IsInvalid d
    then inr (InvalidResponseError "broken cipher context data format")
    else
      match CipherContextData.Ciphers d with
      | [ciph] =>
          if (ciph =? AES128CCM) || (ciph =? AES128GCM)
          then inl (set_cipherId ciph c)
          else inr (InvalidResponseError "unknown cipher algorithm")
      | _ => inr (InvalidResponseError "multiple cipher algorithms")
      end
  else inl c.

(** The loop [for count := r.NegotiateContextCount(); count > 0; count--]. *)
Fixpoint parseContexts (count : nat) (ctxs : list byte) (request reply : list byte) (c : conn) : conn + error :=
  match count with
  | O => inl c
  | Datatypes.S count' =>
      let ctx := NegotiateContextDecoder ctxs in
      if NegotiateContext.IsInvalid ctx
      then inr (InvalidResponseError "broken negotiate context format")
      else
        match applyContext ctx request reply c with
        | inr e => inr e
        | inl c =>
            let off := NegotiateContext.Next ctx in
            let ctxs := if Z.of_nat (length ctxs) <? off then []
                        else drop (Z.to_nat off) ctxs in
            parseContexts count' ctxs request reply c
        end
  end.

(** How many of the contexts that this loop visits are preauth-integrity
    contexts. *)
Fixpoint preauthCount (count : nat) (ctxs : list byte) : nat :=
  match count with
  | O => O
  | Datatypes.S count' =>
      let ctx := NegotiateContextDecoder ctxs in
      let off := NegotiateContext.Next ctx in
      let rest := if Z.of_nat (length ctxs) <? off then []
                  else drop (Z.to_nat off) ctxs in
      let here := if NegotiateContext.ContextType ctx =? SMB2_PREAUTH_INTEGRITY_CAPABILITIES
                  then 1%nat else 0%nat in
      (here + preauthCount count' rest)%nat
  end.

(** The outcome of one pass through the body of [negotiate]. *)
Inductive attempt : Type :=
| Retry (n : Negotiator)
| Finished (r : conn + error).

(** [negotiate] from the check of the reply on: [request] and [reply] are
    the packets of the exchange. *)
Definition finish (n : Negotiator) (request reply : slice) (c : conn) : result attempt :=
  '(res, e) ← accept SMB2_NEGOTIATE reply;
  match e with
  | Some e => Ret (Finished (inr e))
  | None =>
      let r := NegotiateResponseDecoder
                 (match res with Some res => elems res | None => [] end) in
      if NegotiateResponse.IsInvalid r
      then Ret (Finished (inr (InvalidResponseError "broken negotiate response format")))
      else if NegotiateResponse.DialectRevision r =? SMB2
      then Ret (Retry (set_SpecifiedDialect SMB210 n))
      else if negb (SpecifiedDialect n =? UnknownSMB)
              && negb (SpecifiedDialect n =? NegotiateResponse.DialectRevision r)
      then Ret (Finished (inr (InvalidResponseError "unexpected dialect returned")))
      else
        let c := adopt n r c in
        if negb (dialect c =? SMB311) then Ret (Finished (inl c))
        else Ret (Finished
                    (parseContexts (Z.to_nat (NegotiateResponse.NegotiateContextCount r))
                       (NegotiateResponse.NegotiateContextList r)
                       (elems request) (elems reply) c))
  end.

(** What [negotiate] leaves behind: the negotiator (whose
    [SpecifiedDialect] a retry rewrites), the requests built and the
    request and reply packets of the exchanges made, both in order, and the
    connection or the error returned. *)
Record negotiated : Type := mkNegotiated {
  negotiator : Negotiator;
  offered : list Packet;
  exchanged : list (slice * slice);
  outcome : conn + error
}.

(** The body of [negotiate] from the label [retry] on; every pass takes
    one exchange of [script], and a caller whose exchanges are used up
    waits for ever. *)
Fixpoint negotiateFrom (script : list exchangeEnv) (n : Negotiator) (g : rng)
    (sent : list Packet) (done : list (slice * slice)) (c : conn) : result negotiated :=
  match script with
  | [] => Block
  | env :: script' =>
      match makeRequest n g with
      | (inr e, _) => Ret (mkNegotiated n sent done (inr e))
      | (inl req, g) =>
          let req := set_CreditCharge 1 req in
          let sent := sent ++ [req] in
          '(c, r) ← exchange req env c;
          match r with
          | inr e => Ret (mkNegotiated n sent done (inr e))
          | inl (request, reply) =>
              let done := done ++ [(request, reply)] in
              a ← finish n request reply c;
              match a with
              | Retry n => negotiateFrom script' n g sent done c
              | Finished r => Ret (mkNegotiated n sent done r)
              end
          end
      end
  end.


(** The connection [negotiate] starts from. *)
Definition newConn (a : account) : conn :=
  mk None ∅ ∅ 0 0 0 0 0 false 0 0 (repeat x00 64) 0 a None.

(** [Negotiator.negotiate]. *)
Definition negotiate (n : Negotiator) (a : account) (g : rng) (script : list exchangeEnv) : result negotiated :=
  negotiateFrom script n g [] [] (newConn a).

End WithCollaborators.

Arguments conn : clear implicits.
Arguments negotiated : clear implicits.
Arguments attempt : clear implicits.

End Conn.

(** ** SHA-512 as FIPS 180-4 defines it, which [crypto/sha512] computes *)

Module Fips180.

Definition w64 (z : Z) : Z := z mod 2 ^ 64.
Definition add64 (x y : Z) : Z := w64 (x + y).
Definition rotr (n x : Z) : Z := Z.lor (Z.shiftr x n) (w64 (Z.shiftl x (64 - n))).
Definition not64 (x : Z) : Z := Z.lxor x (2 ^ 64 - 1).

Definition Ch (x y z : Z) : Z := Z.lxor (Z.land x y) (Z.land (not64 x) z).
Definition Maj (x y z : Z) : Z :=
  Z.lxor (Z.lxor (Z.land x y) (Z.land x z)) (Z.land y z).
Definition Sigma0 (x : Z) : Z := Z.lxor (Z.lxor (rotr 28 x) (rotr 34 x)) (rotr 39 x).
Definition Sigma1 (x : Z) : Z := Z.lxor (Z.lxor (rotr 14 x) (rotr 18 x)) (rotr 41 x).
Definition sigma0 (x : Z) : Z := Z.lxor (Z.lxor (rotr 1 x) (rotr 8 x)) (Z.shiftr x 7).
Definition sigma1 (x : Z) : Z := Z.lxor (Z.lxor (rotr 19 x) (rotr 61 x)) (Z.shiftr x 6).

(** The first 64 bits of the fractional parts of the cube roots of the
    first eighty primes. *)
Definition K : list Z := [
  0x428a2f98d728ae22; 0x7137449123ef65cd; 0xb5c0fbcfec4d3b2f; 0xe9b5dba58189dbbc;
  0x3956c25bf348b538; 0x59f111f1b605d019; 0x923f82a4af194f9b; 0xab1c5ed5da6d8118;
  0xd807aa98a3030242; 0x12835b0145706fbe; 0x243185be4ee4b28c; 0x550c7dc3d5ffb4e2;
  0x72be5d74f27b896f; 0x80deb1fe3b1696b1; 0x9bdc06a725c71235; 0xc19bf174cf692694;
  0xe49b69c19ef14ad2; 0xefbe4786384f25e3; 0x0fc19dc68b8cd5b5; 0x240ca1cc77ac9c65;
  0x2de92c6f592b0275; 0x4a7484aa6ea6e483; 0x5cb0a9dcbd41fbd4; 0x76f988da831153b5;
  0x983e5152ee66dfab; 0xa831c66d2db43210; 0xb00327c898fb213f; 0xbf597fc7beef0ee4;
  0xc6e00bf33da88fc2; 0xd5a79147930aa725; 0x06ca6351e003826f; 0x142929670a0e6e70;
  0x27b70a8546d22ffc; 0x2e1b21385c26c926; 0x4d2c6dfc5ac42aed; 0x53380d139d95b3df;
  0x650a73548baf63de; 0x766a0abb3c77b2a8; 0x81c2c92e47edaee6; 0x92722c851482353b;
  0xa2bfe8a14cf10364; 0xa81a664bbc423001; 0xc24b8b70d0f89791; 0xc76c51a30654be30;
  0xd192e819d6ef5218; 0xd69906245565a910; 0xf40e35855771202a; 0x106aa07032bbd1b8;
  0x19a4c116b8d2d0c8; 0x1e376c085141ab53; 0x2748774cdf8eeb99; 0x34b0bcb5e19b48a8;
  0x391c0cb3c5c95a63; 0x4ed8aa4ae3418acb; 0x5b9cca4f7763e373; 0x682e6ff3d6b2b8a3;
  0x748f82ee5defb2fc; 0x78a5636f43172f60; 0x84c87814a1f0ab72; 0x8cc702081a6439ec;
  0x90befffa23631e28; 0xa4506cebde82bde9; 0xbef9a3f7b2c67915; 0xc67178f2e372532b;
  0xca273eceea26619c; 0xd186b8c721c0c207; 0xeada7dd6cde0eb1e; 0xf57d4f7fee6ed178;
  0x06f067aa72176fba; 0x0a637dc5a2c898a6; 0x113f9804bef90dae; 0x1b710b35131c471b;
  0x28db77f523047d84; 0x32caab7b40c72493; 0x3c9ebe0a15c9bebc; 0x431d67c49c100d4c;
  0x4cc5d4becb3e42b6; 0x597f299cfc657e2a; 0x5fcb6fab3ad6faec; 0x6c44198c4a475817
].

(** The first 64 bits of the fractional parts of the square roots of the
    first eight primes. *)
Definition H0 : list Z := [
  0x6a09e667f3bcc908; 0xbb67ae8584caa73b; 0x3c6ef372fe94f82b; 0xa54ff53a5f1d36f1;
  0x510e527fade682d1; 0x9b05688c2b3e6c1f; 0x1f83d9abfb41bd6b; 0x5be0cd19137e2179
].

Definition byteZ (b : byte) : Z := Z.of_N (Byte.to_N b).

Definition zByte (z : Z) : byte :=
  match Byte.of_N (Z.to_N (z mod 256)) with
  | Some b => b
  | None => x00
  end.

(** A number as [k] big-endian bytes, and back. *)
Fixpoint beBytes (k : nat) (n : Z) : list byte :=
  match k with
  | O => []
  | S k' => zByte (n / 256 ^ Z.of_nat k') :: beBytes k' n
  end.

Definition beWord (bs : list byte) : Z :=
  fold_left (fun acc b => 256 * acc + byteZ b) bs 0.

(** The message with its padding: the bit 1, zeros, and the length in bits
    as 128 bits, up to a multiple of 128 bytes. *)
Definition pad (msg : list byte) : list byte :=
  let l := Z.of_nat (length msg) in
  msg ++ [x80] ++ repeat x00 (Z.to_nat ((128 - (l + 17) mod 128) mod 128))
      ++ beBytes 16 (8 * l).

(** The words of a byte string, eight bytes each. *)
Fixpoint wordsOf (n : nat) (bs : list byte) : list Z :=
  match n with
  | O => []
  | S n' => beWord (take 8 bs) :: wordsOf n' (drop 8 bs)
  end.

(** The message schedule, newest word first: [n] more words after those
    of [rev]. *)
Fixpoint schedule (n : nat) (rev : list Z) : list Z :=
  match n with
  | O => rev
  | S n' =>
      let w i := nth i rev 0 in
      schedule n' (add64 (add64 (add64 (sigma1 (w 1%nat)) (w 6%nat)) (sigma0 (w 14%nat)))
                         (w 15%nat) :: rev)
  end.

Record vars : Type := mkVars { va : Z; vb : Z; vc : Z; vd : Z; ve : Z; vf : Z; vg : Z; vh : Z }.

Definition round (v : vars) (kw : Z * Z) : vars :=
  let t1 := add64 (add64 (add64 (add64 (vh v) (Sigma1 (ve v))) (Ch (ve v) (vf v) (vg v)))
                         kw.1) kw.2 in
  let t2 := add64 (Sigma0 (va v)) (Maj (va v) (vb v) (vc v)) in
  mkVars (add64 t1 t2) (va v) (vb v) (vc v) (add64 (vd v) t1) (ve v) (vf v) (vg v).

Definition ofList (h : list Z) : vars :=
  let w i := nth i h 0 in
  mkVars (w 0%nat) (w 1%nat) (w 2%nat) (w 3%nat) (w 4%nat) (w 5%nat) (w 6%nat) (w 7%nat).

Definition toList (v : vars) : list Z :=
  [va v; vb v; vc v; vd v; ve v; vf v; vg v; vh v].

(** The hash value after one more block of 128 bytes. *)
Definition compress (h : list Z) (block : list byte) : list Z :=
  let w := List.rev (schedule 64 (List.rev (wordsOf 16 block))) in
  let v := fold_left round (combine K w) (ofList h) in
  map (fun xy : Z * Z => add64 xy.1 xy.2) (combine h (toList v)).

Fixpoint blocks (n : nat) (h : list Z) (bs : list byte) : list Z :=
  match n with
  | O => h
  | S n' => blocks n' (compress h (take 128 bs)) (drop 128 bs)
  end.

Definition sha512 (msg : list byte) : list byte :=
  let padded := pad msg in
  flat_map (beBytes 8) (blocks (length padded / 128) H0 padded).

End Fips180.

(** ** Instances for the examples *)

Module Examples.
Import GoSlice.

(** The values [MS-SMB2] and [MS-ERREF] give the constants, and the offers
    of a client that speaks every dialect. *)
#[export] Instance msSmb2 : Constants := {|
  SMB2_GLOBAL_CAP_LARGE_MTU := 0x4;
  SMB2_FLAGS_SIGNED := 0x8;
  SMB2_SESSION_FLAG_IS_GUEST := 0x1;
  SMB2_SESSION_FLAG_IS_NULL := 0x2;
  SMB2_SESSION_FLAG_ENCRYPT_DATA := 0x4;
  SMB2_SHAREFLAG_ENCRYPT_DATA := 0x8000;
  SMB2_NEGOTIATE_SIGNING_ENABLED := 0x1;
  SMB2_NEGOTIATE_SIGNING_REQUIRED := 0x2;
  SMB2_PREAUTH_INTEGRITY_CAPABILITIES := 0x1;
  SMB2_ENCRYPTION_CAPABILITIES := 0x2;
  SHA512 := 0x1;
  AES128CCM := 0x1;
  AES128GCM := 0x2;
  SMB2_NEGOTIATE := 0x0;
  SMB2_SESSION_SETUP := 0x1;
  SMB2_QUERY_INFO := 0x10;
  SMB2_IOCTL := 0xB;
  SMB2_READ := 0x8;
  SMB2_CHANGE_NOTIFY := 0xF;
  STATUS_SUCCESS := 0x0;
  STATUS_PENDING := 0x103;
  STATUS_OBJECT_NAME_COLLISION := 0xC0000035;
  STATUS_OBJECT_NAME_NOT_FOUND := 0xC0000034;
  STATUS_OBJECT_PATH_NOT_FOUND := 0xC000003A;
  STATUS_ACCESS_DENIED := 0xC0000022;
  STATUS_CANNOT_DELETE := 0xC0000121;
  STATUS_MORE_PROCESSING_REQUIRED := 0xC0000016;
  STATUS_BUFFER_OVERFLOW := 0x80000005;
  STATUS_NOTIFY_ENUM_DIR := 0x10C;
  clientCapabilities := 0x44;
  clientDialects := [0x0202; 0x0210; 0x0300; 0x0302; 0x0311];
  clientHashAlgorithms := [0x1];
  clientCiphers := [0x2; 0x1]
|}.

(** An account that has [available] credits to lend and keeps a list of
    the calls of [charge]. *)
Record ledger : Type := mkLedger { available : Z; charged : list (Z * Z) }.

#[export] Instance ledgerAccount : Account ledger := {|
  opening a := (0, a);
  charge granted requested a :=
    mkLedger (available a) (charged a ++ [(granted, requested)]);
  loan requested a :=
    if available a <=? 0 then Block
    else
      let granted := Z.min requested (available a) in
      Ret (granted, granted =? requested, None, a)
|}.

(** A session whose packets never verify, are signed by the identity and
    cannot be encrypted. *)
#[export] Instance strictCrypto : SessionCrypto := {|
  encrypt _ _ := inr "no cipher"%string;
  sign _ pkt := pkt;
  verify _ _ := false
|}.

(** [n] as [k] little-endian bytes. *)
Fixpoint leBytes (k : nat) (n : Z) : list byte :=
  match k with
  | O => []
  | S k' =>
      match Byte.of_N (Z.to_N (n mod 256)) with
      | Some b => b :: leBytes k' (n / 256)
      | None => x00 :: leBytes k' (n / 256)
      end
  end.

(** A 64-byte SMB2 header in the wire layout, with the given fields and
    zeros elsewhere. *)
Definition headerBytes (creditCharge status command credits flags nextCommand messageId asyncId sessionId : Z) : list byte :=
  [xfe; x53; x4d; x42] ++ leBytes 2 64 ++ leBytes 2 creditCharge
  ++ leBytes 4 status ++ leBytes 2 command ++ leBytes 2 credits
  ++ leBytes 4 flags ++ leBytes 4 nextCommand ++ leBytes 8 messageId
  ++ leBytes 8 asyncId ++ leBytes 8 sessionId ++ repeat x00 16.

(** An encoder: the header in the wire layout, then the bytes of the body
    (the dialects, for a negotiate request). *)
#[export] Instance wireCodec : Codec := {|
  Encode req :=
    let h := Header req in
    let hdr cmd :=
      headerBytes (CreditCharge h) 0 cmd (CreditRequestResponse h) 0 0
        (MessageId h) (TreeId h * 2 ^ 32) (SessionId h) in
    match body req with
    | CancelRequest => hdr 0xC ++ leBytes 4 4
    | SessionSetupRequest data => hdr 0x1 ++ data
    | NegotiateRequest mode caps guid dialects _ =>
        hdr 0x0 ++ leBytes 2 36 ++ leBytes 2 (Z.of_nat (length dialects))
        ++ leBytes 2 mode ++ leBytes 2 0 ++ leBytes 4 caps ++ guid
        ++ flat_map (leBytes 2) dialects
    | OtherRequest cmd data => hdr cmd ++ data
    end
|}.

(** A connection of the examples: the large-MTU capability, signing
    required, and an account with [credits] to lend. *)
Definition exampleConn (credits : Z) : Conn.conn ledger :=
  Conn.mk None ∅ ∅ 1 0x0311 0 0 0 true 0x4 0 (repeat x00 64) 0
    (mkLedger credits []) None.

(** A session that is neither guest nor null. *)
Definition exampleSession : session := mkSession 0x1122 0 ∅.

(** The same connection with the session active. *)
Definition sessionConn (credits : Z) : Conn.conn ledger :=
  Conn.mk (Some exampleSession) ∅ ∅ 1 0x0311 0 0 0 true 0x4 0 (repeat x00 64) 0
    (mkLedger credits []) None.

(** A record waiting under message id [id], asking for [credits]. *)
Definition waiting (id credits : Z) : requestResponse :=
  RR.mk id 0 credits (of_list []) Chan.make None.

(** A connection with one request outstanding under message id 5, for
    which one credit was asked. *)
Definition outstandingConn : Conn.conn ledger :=
  Conn.mk (Some exampleSession) {[5 := 1%positive]} {[1%positive := waiting 5 1]}
    6 0x0311 0 0 0 true 0x4 0 (repeat x00 64) 0 (mkLedger 0 []) None.

(** A reply packet: a header alone, of command READ, signed or not. *)
Definition reply (status credits flags messageId : Z) : slice :=
  of_list (headerBytes 1 status 0x8 credits flags 0 messageId 0 0x1122).

(** A read request with the given credit charge, and a cancel request. *)
Definition readRequest (creditCharge : Z) : Packet :=
  mkPacket (mkHeader creditCharge 0 0 0 0) (OtherRequest 0x8 []).

Definition cancelRequest : Packet :=
  mkPacket (mkHeader 0 0 0 0 0) CancelRequest.

(** A call of [sendWith] that nothing disturbs. *)
Definition plainCall (req : Packet) : Conn.sendCall :=
  Conn.mkSendCall req None (Conn.mkSendEnv None Conn.Written).

(** A treatment of compound elements that only lists them. *)
Definition listElements (pkt : slice) (seen : list slice) : result (list slice) :=
  Ret (seen ++ [pkt]).

(** A frame of 64 bytes, read into a receive buffer that still holds, right
    behind it, the 64 bytes of an earlier reply to message 7: a reply to
    message 5 whose NextCommand field is [next]. *)
Definition chained (next : Z) : slice :=
  with_spare (headerBytes 1 0 0x8 1 0 next 5 0 0)
             (headerBytes 1 0 0x8 1 0 0 7 0 0).

(** A connection before the session is set up, with the requests 5 and 7
    outstanding. *)
Definition twoOutstanding : Conn.conn ledger :=
  Conn.mk None {[5 := 1%positive; 7 := 2%positive]}
    {[1%positive := waiting 5 1; 2%positive := waiting 7 1]}
    8 0x0311 0 0 0 false 0x4 0 (repeat x00 64) 0 (mkLedger 0 []) None.

(** *** Replies in the layouts of [MS-SMB2] *)

Definition u8 (bs : list byte) (off : nat) : Z := PacketCodec.le (take 1 (drop off bs)).
Definition u16 (bs : list byte) (off : nat) : Z := PacketCodec.le (take 2 (drop off bs)).
Definition u32 (bs : list byte) (off : nat) : Z := PacketCodec.le (take 4 (drop off bs)).

Definition roundup8 (n : Z) : Z := (n + 7) / 8 * 8.

(** The [count] 16-bit values from offset [off] on. *)
Fixpoint u16s (count : nat) (bs : list byte) (off : nat) : list Z :=
  match count with
  | O => []
  | S count' => u16 bs off :: u16s count' bs (off + 2)
  end.

(** Decoders that read the layouts of [MS-SMB2]: the NEGOTIATE response
    (2.2.4, without the 64-byte header, offsets counted from the start of
    the header), a negotiate context (2.2.4.1) with the data of the
    preauth-integrity and encryption capabilities, the ERROR response
    (2.2.2) and its error contexts, and the size of an IOCTL response. *)
#[export] Instance msDecoders : Decoders := {|
  NegotiateResponseDecoder res :=
    NegotiateResponse.mk
      ((length res <? 64)%nat || negb (u16 res 0 =? 65)
       || (Z.of_nat (length res) + 64 <? u32 res 60))
      (u16 res 2) (u16 res 4) (u16 res 6) (u32 res 24) (u32 res 28)
      (u32 res 32) (u32 res 36)
      (if u32 res 60 <? 128 then [] else drop (Z.to_nat (u32 res 60 - 64)) res);
  NegotiateContextDecoder ctx :=
    NegotiateContext.mk
      ((length ctx <? 8)%nat || (Z.of_nat (length ctx) <? 8 + u16 ctx 2))
      (u16 ctx 0)
      (take (Z.to_nat (u16 ctx 2)) (drop 8 ctx))
      (roundup8 (8 + u16 ctx 2));
  HashContextDataDecoder d :=
    HashContextData.mk
      ((length d <? 4)%nat || (Z.of_nat (length d) <? 4 + 2 * u16 d 0 + u16 d 2))
      (u16s (Z.to_nat (u16 d 0)) d 4);
  CipherContextDataDecoder d :=
    CipherContextData.mk
      ((length d <? 2)%nat || (Z.of_nat (length d) <? 2 + 2 * u16 d 0))
      (u16s (Z.to_nat (u16 d 0)) d 2);
  ErrorResponseDecoder res :=
    ErrorResponse.mk
      ((length res <? 8)%nat || negb (u16 res 0 =? 9))
      (u8 res 2) (drop 8 res);
  ErrorContextResponseDecoder ctx :=
    ErrorContextResponse.mk
      ((length ctx <? 8)%nat || (Z.of_nat (length ctx) <? 8 + u32 ctx 0))
      (take (Z.to_nat (u32 ctx 0)) (drop 8 ctx))
      (roundup8 (8 + u32 ctx 0));
  IoctlResponseIsInvalid res := (length res <? 48)%nat || negb (u16 res 0 =? 49)
|}.

(** FIPS 180-4 for [crypto/sha512]. *)
#[export] Instance fipsSha512 : Sha512 := {| Sum512 := Fips180.sha512 |}.

(** A source of random bytes that fills the buffer of its n-th call with
    the byte n. *)
#[export] Instance countingEntropy : Entropy nat := {|
  randRead k g := (inl (repeat (Fips180.zByte (Z.of_nat g)) k), S g)
|}.

(** A negotiate context, padded to a multiple of 8 bytes. *)
Definition contextBytes (ctype : Z) (data : list byte) : list byte :=
  let n := Z.of_nat (length data) in
  leBytes 2 ctype ++ leBytes 2 n ++ leBytes 4 0 ++ data
  ++ repeat x00 (Z.to_nat (roundup8 (8 + n) - (8 + n))).

(** The preauth-integrity context that names SHA-512, with a salt of 32
    bytes, and the encryption context that names AES-128-GCM. *)
Definition sha512Context : list byte :=
  contextBytes 1 (leBytes 2 1 ++ leBytes 2 32 ++ leBytes 2 1 ++ repeat x5a 32).

Definition gcmContext : list byte :=
  contextBytes 2 (leBytes 2 1 ++ leBytes 2 2).

(** The frame of a NEGOTIATE response to message [messageId] that names
    [dialect] and carries [count] as its context count and [contexts] as
    its context list. *)
Definition negotiateReply (messageId dialect count : Z) (contexts : list byte) : slice :=
  of_list
    (headerBytes 1 0 0 1 1 0 messageId 0 0
     ++ leBytes 2 65 ++ leBytes 2 1 ++ leBytes 2 dialect ++ leBytes 2 count
     ++ repeat x11 16 ++ leBytes 4 0x44 ++ leBytes 4 0x100000 ++ leBytes 4 0x100000
     ++ leBytes 4 0x100000 ++ repeat x00 16 ++ leBytes 2 128 ++ leBytes 2 0
     ++ leBytes 4 (if count =? 0 then 0 else 128)
     ++ contexts).

(** An exchange in which the request is written and the receiver reads the
    frame [frame] before the caller asks for the reply. *)
Definition answeredBy (frame : slice) : Conn.exchangeEnv :=
  Conn.mkExchangeEnv (Conn.mkSendEnv None Conn.Written) [Conn.Frame frame] None.

(** A negotiator that requires no signing, has no GUID and no dialect of
    its own. *)
Definition anyDialect : Conn.Negotiator := Conn.mkNegotiator false (repeat x00 16) 0.

End Examples.

(** ** [conn.go]: the rest of the receiver, and [sendRecv] *)

(** What the receiver takes from [internal/smb2] and [session.go] to look
    at a frame: whether it is a well-formed SMB2 packet, its tree id, the
    TRANSFORM header read over the same bytes with its flag value
    [Encrypted], and the session's [decrypt], which fails with an error
    text or gives the packet in the clear. *)
Class FrameCodec : Type := {
  PacketIsInvalid : slice -> bool;
  PacketTreeId : slice -> result Z;
  TransformIsInvalid : slice -> bool;
  TransformFlags : slice -> Z;
  TransformSessionId : slice -> Z;
  Encrypted : Z;
  decrypt : session -> slice -> slice + string
}.

Module Receiver.
Import GoSlice Conn.

Section WithCollaborators.
Context {account : Type} {Acct : Account account} {K : Constants} {Cdc : Codec}
  {Cry : SessionCrypto} {Dec : Decoders} {Frm : FrameCodec}.

(** [conn.tryDecrypt]: the packet (nil with an error), the error, and
    whether the packet came encrypted. *)
Definition tryDecrypt (pkt : slice) (c : conn account) : slice * option error * bool :=
  if PacketIsInvalid pkt then
    if TransformIsInvalid pkt
    then (nil, Some (InvalidResponseError "broken packet header format"), false)
    else if negb (TransformFlags pkt =? Encrypted)
    then (nil, Some (InvalidResponseError "encrypted flag is not on"), false)
    else
      match session c with
      | None => (nil, Some (InvalidResponseError "unknown session id returned"), false)
      | Some s =>
          if negb (sessionId s =? TransformSessionId pkt)
          then (nil, Some (InvalidResponseError "unknown session id returned"), false)
          else
            match decrypt s pkt with
            | inr msg => (nil, Some (InvalidResponseError msg), false)
            | inl pkt' => (pkt', None, true)
            end
      end
  else (pkt, None, false).

(** What becomes of a frame: it is skipped with an error for the log, or
    its compound chain is handled, which leaves the error of the last
    element. *)
Inductive frameOutcome : Type :=
| Skipped (e : error)
| Handled (last : option error).

(** The checks of session id and tree id that [runReciever] makes on the
    packet when the connection has a session. *)
Definition sessionCheck (pkt : slice) (c : conn account) : result (option error) :=
  match session c with
  | None => Ret None
  | Some s =>
      sid ← PacketCodec.SessionId pkt;
      if negb (sessionId s =? sid)
      then Ret (Some (InvalidResponseError "unknown session id"))
      else
        tid ← PacketTreeId pkt;
        match treeConnTables s !! tid with
        | Some tc =>
            if negb (treeId tc =? tid)
            then Ret (Some (InvalidResponseError "unknown tree id"))
            else Ret None
        | None => Ret None
        end
  end.

(** One turn of the outer loop of [runReciever] on a frame read without
    error; [hasSession] is what [conn.useSession()] answers. *)
Definition receiveFrame (hasSession : bool) (pkt : slice) (c : conn account) : result (conn account * frameOutcome) :=
  if hasSession then
    let '(pkt, e, isEncrypted) := tryDecrypt pkt c in
    match e with
    | Some e => Ret (c, Skipped e)
    | None =>
        skip ← sessionCheck pkt c;
        match skip with
        | Some e => Ret (c, Skipped e)
        | None =>
            '(c, last) ← handleFrame true isEncrypted pkt c;
            Ret (c, Handled last)
        end
    end
  else
    '(c, last) ← handleFrame false false pkt c;
    Ret (c, Handled last).

(** [runReciever] over the reads [reads], each with the answer of
    [conn.useSession()] at its time; a failed read ends it. *)
Fixpoint runReciever (reads : list (bool * readEvent)) (c : conn account) : result (conn account) :=
  match reads with
  | [] => Ret c
  | (hasSession, Frame pkt) :: reads' =>
      '(c, _) ← receiveFrame hasSession pkt c;
      runReciever reads' c
  | (_, ReadFailed cause closing) :: _ => receiverExit cause closing c
  end.

(** What happens around the connection during one [sendRecv]. *)
Record callEnv : Type := mkCallEnv {
  callSending : sendEnv;
  callReads : list (bool * readEvent);
  callRecvDone : option string
}.

(** [conn.sendRecv]: the payload and the error, either of which may be
    nil. *)
Definition sendRecv (cmd : Z) (req : Packet) (env : callEnv) (c : conn account) : result (conn account * (option slice * option error)) :=
  '(c, r) ← send req (callSending env) c;
  match r with
  | inr e => Ret (c, (None, Some e))
  | inl l =>
      c ← runReciever (callReads env) c;
      '(c, r) ← recv l (callRecvDone env) c;
      match r with
      | inr e => Ret (c, (None, Some e))
      | inl pkt => res ← accept cmd pkt; Ret (c, res)
      end
  end.

(** The calls that touch a connection once it is made: a send, a frame
    that the receiver reads, a caller's receive. *)
Inductive step : Type :=
| Send (req : Packet) (tc : option treeConn) (env : sendEnv)
| Read (hasSession : bool) (pkt : slice)
| Recv (l : loc) (ctxDone : option string).

Definition doStep (s : step) (c : conn account) : result (conn account) :=
  match s with
  | Send req tc env => fst <$> sendWith req tc env c
  | Read hasSession pkt => fst <$> receiveFrame hasSession pkt c
  | Recv l ctxDone => fst <$> recv l ctxDone c
  end.

(** Any interleaving of such calls, one after the other. *)
Fixpoint doSteps (ss : list step) (c : conn account) : result (conn account) :=
  match ss with
  | [] => Ret c
  | s :: ss' => c ← doStep s c; doSteps ss' c
  end.

(** The state of the table while the receiver runs: no record is entered
    under two message ids, and every record entered exists and has its
    result channel open and empty. *)
Definition tableReady (c : conn account) : Prop :=
  (forall i j l, requests c !! i = Some l -> requests c !! j = Some l -> i = j)
  /\ (forall i l, requests c !! i = Some l ->
        exists rr, records c !! l = Some rr
                   /\ Chan.closed (RR.recv rr) = false
                   /\ Chan.buf (RR.recv rr) = None).

End WithCollaborators.
End Receiver.


(** ** What [negotiate] settles *)

Module Negotiation.
Import Conn.

Section WithConstants.
Context {account : Type} {K : Constants}.

(** What a connection [c'] that [negotiate] returns for the negotiator [n]
    has, against the connection [c] it started from. *)
Definition agreed (n : Negotiator) (c c' : conn account) : Prop :=
  sequenceWindow c' = 1
  /\ dialect c' <> SMB2
  /\ (SpecifiedDialect n <> UnknownSMB -> dialect c' = SpecifiedDialect n)
  /\ (RequireMessageSigning n = true -> requireSigning c' = true)
  /\ Z.land (capabilities c') clientCapabilities = capabilities c'
  /\ session c' = session c
  /\ (cipherId c' = cipherId c \/ cipherId c' = AES128CCM \/ cipherId c' = AES128GCM)
  /\ (preauthIntegrityHashId c' = preauthIntegrityHashId c
      \/ preauthIntegrityHashId c' = SHA512)
  /\ (dialect c' <> SMB311 ->
      cipherId c' = cipherId c
      /\ preauthIntegrityHashId c' = preauthIntegrityHashId c
      /\ preauthIntegrityHashValue c' = preauthIntegrityHashValue c).

End WithConstants.
End Negotiation.

(** ** Values for the examples, continued *)

Module FrameExamples.
Import GoSlice Examples.

(** The checks of a frame in the wire layout of [MS-SMB2]: an SMB2 packet
    has at least 64 bytes and starts with FE 'S' 'M' 'B', and its tree id
    is at offset 36; a TRANSFORM header (2.2.41) has 52 bytes and starts
    with FD 'S' 'M' 'B', with its flags at offset 42 and its session id at
    offset 44.  The [decrypt] of the sessions here takes the TRANSFORM
    header off and gives what follows as it is. *)
#[export] Instance plainFrames : FrameCodec := {|
  PacketIsInvalid p :=
    (len p <? 64)%nat || negb (PacketCodec.le (take 4 (elems p)) =? 0x424D53FE);
  PacketTreeId p := PacketCodec.field p 36 40;
  TransformIsInvalid p :=
    (len p <? 52)%nat || negb (PacketCodec.le (take 4 (elems p)) =? 0x424D53FD);
  TransformFlags p := PacketCodec.le (take 2 (drop 42 (elems p)));
  TransformSessionId p := PacketCodec.le (take 8 (drop 44 (elems p)));
  Encrypted := 1;
  decrypt _ p :=
    match slice_from p 52 with
    | Some q => inl q
    | None => inr "short frame"%string
    end
|}.

(** A TRANSFORM frame of the session [sessionId] around the packet
    [inner]. *)
Definition sealed (sessionId : Z) (inner : list byte) : slice :=
  of_list ([xfd; x53; x4d; x42] ++ repeat x00 32
           ++ leBytes 4 (Z.of_nat (length inner)) ++ leBytes 2 0 ++ leBytes 2 1
           ++ leBytes 8 sessionId ++ inner).

(** A compound frame of two replies, to the messages [id1] and [id2]. *)
Definition twoReplies (id1 id2 : Z) : slice :=
  of_list (headerBytes 1 0 0x8 1 0 64 id1 0 0 ++ headerBytes 1 0 0x8 1 0 0 id2 0 0).

(** A send that nothing disturbs, and one whose write fails. *)
Definition written : Conn.sendEnv := Conn.mkSendEnv None Conn.Written.

Definition brokenPipe : Conn.sendEnv :=
  Conn.mkSendEnv None (Conn.WriteFailed "broken pipe").

End FrameExamples.
(** * Part II: properties *)

(** ** Integers and slices *)

Lemma uint16_range z : 0 <= uint16 z < 2 ^ 16.
Proof. unfold uint16. apply Z.mod_pos_bound. lia. Qed.


Lemma uint16_small z : 0 <= z < 2 ^ 16 -> uint16 z = z.
Proof. intros H. unfold uint16. now apply Z.mod_small. Qed.


Lemma slice_to_None s hi :
  (GoSlice.cap s < hi)%nat -> GoSlice.slice_to s hi = None.
Proof.
  intros H. unfold GoSlice.slice_to.
  destruct (Nat.leb_spec hi (GoSlice.cap s)); [lia | reflexivity].
Qed.

Lemma slice_to_Some s hi :
  (hi <= GoSlice.cap s)%nat ->
  GoSlice.slice_to s hi = Some (GoSlice.mk (GoSlice.backing s) hi).
Proof.
  intros H. unfold GoSlice.slice_to.
  destruct (Nat.leb_spec hi (GoSlice.cap s)); [reflexivity | lia].
Qed.

Lemma slice_from_None s lo :
  (GoSlice.len s < lo)%nat -> GoSlice.slice_from s lo = None.
Proof.
  intros H. unfold GoSlice.slice_from.
  destruct (Nat.leb_spec lo (GoSlice.len s)); [lia | reflexivity].
Qed.

Lemma elems_of_list l : GoSlice.elems (GoSlice.of_list l) = l.
Proof. unfold GoSlice.elems, GoSlice.of_list. simpl. apply firstn_all. Qed.

Lemma le_nonneg bs : 0 <= PacketCodec.le bs.
Proof. induction bs as [|b bs IH]; simpl; lia. Qed.

(** ** [KerberosInitiator.sessionKey] *)

Section SessionKey.
Import GoSlice Krb5.

(** Once the slice has 16 elements the padding loop does nothing. *)
Lemma pad16_full fuel s : len s = 16%nat -> pad16 fuel s = s.
Proof. intros H. destruct fuel; simpl; rewrite H; reflexivity. Qed.

(** A key whose slice has capacity for 16 bytes comes back as its first 16
    cells, whatever its length: the padding loop is never entered. *)
Lemma sessionKey_within_capacity key :
  (16 <= cap key)%nat -> sessionKey key = Ret (mk (backing key) 16).
Proof.
  intros H. unfold sessionKey. rewrite slice_to_Some by exact H.
  unfold of_option, mbind, result_bind.
  rewrite pad16_full; reflexivity.
Qed.

(** A key whose slice has capacity for fewer than 16 bytes makes
    [sessionKey] panic at the slice expression. *)
Lemma sessionKey_below_capacity key :
  (cap key < 16)%nat -> sessionKey key = Panic.
Proof.
  intros H. unfold sessionKey. rewrite slice_to_None by exact H. reflexivity.
Qed.

(** C4 (as the code behaves): on an 8-byte key in a slice of capacity 8,
    [sessionKey] panics instead of returning the key padded with zeros to
    16 bytes. *)
Theorem sessionKey_panics_on_8_byte_key :
  sessionKey (of_list [x01; x02; x03; x04; x05; x06; x07; x08]) = Panic.
Proof. reflexivity. Qed.

(** An 8-byte key in a slice that has spare capacity comes back with the
    cells behind it, which need not be zero. *)
Example sessionKey_reads_spare_capacity :
  elems <$> sessionKey (with_spare [x01; x02; x03; x04; x05; x06; x07; x08]
                                   [xaa; xaa; xaa; xaa; xaa; xaa; xaa; xaa])
  = Ret [x01; x02; x03; x04; x05; x06; x07; x08;
         xaa; xaa; xaa; xaa; xaa; xaa; xaa; xaa].
Proof. reflexivity. Qed.

End SessionKey.

(** ** Credits: [loanCredit] *)

Section Credits.
Context {account : Type} {Acct : Account account} {K : Constants}.
Import Conn.

(** On a connection without the large-MTU capability one credit is asked
    for, whatever the payload. *)
Lemma creditChargeFor_small_mtu payloadSize (c : conn account) :
  Z.land (capabilities c) SMB2_GLOBAL_CAP_LARGE_MTU = 0 ->
  creditChargeFor payloadSize c = 1.
Proof. intros H. unfold creditChargeFor. rewrite H. reflexivity. Qed.

(** With the capability, and a payload of at most 65535 units of 64 KiB,
    the charge is the number of units rounded up. *)
Lemma creditChargeFor_ceiling payloadSize (c : conn account) :
  Z.land (capabilities c) SMB2_GLOBAL_CAP_LARGE_MTU <> 0 ->
  1 <= payloadSize <= 65535 * 65536 ->
  1 <= creditChargeFor payloadSize c
  /\ 65536 * (creditChargeFor payloadSize c - 1) < payloadSize
     <= 65536 * creditChargeFor payloadSize c.
Proof.
  intros Hcap Hsize. unfold creditChargeFor.
  destruct (Z.eqb_spec (Z.land (capabilities c) SMB2_GLOBAL_CAP_LARGE_MTU) 0) as [E|_];
    [contradiction|].
  change (64 * 1024) with 65536.
  rewrite Z.quot_div_nonneg by lia.
  assert (Hq : 0 <= (payloadSize - 1) / 65536 < 65535).
  { split; [apply Z.div_pos; lia | apply Z.div_lt_upper_bound; lia]. }
  rewrite uint16_small by (change (2 ^ 16) with 65536; lia).
  pose proof (Z.div_mod (payloadSize - 1) 65536 ltac:(lia)) as Hdm.
  pose proof (Z.mod_pos_bound (payloadSize - 1) 65536 ltac:(lia)) as Hm.
  lia.
Qed.

(** In general the charge is that number cut to 16 bits. *)
Lemma creditChargeFor_wraps payloadSize (c : conn account) :
  Z.land (capabilities c) SMB2_GLOBAL_CAP_LARGE_MTU <> 0 ->
  1 <= payloadSize ->
  creditChargeFor payloadSize c = ((payloadSize - 1) / 65536 + 1) mod 65536.
Proof.
  intros Hcap Hsize. unfold creditChargeFor.
  destruct (Z.eqb_spec (Z.land (capabilities c) SMB2_GLOBAL_CAP_LARGE_MTU) 0) as [E|_];
    [contradiction|].
  change (64 * 1024) with 65536.
  rewrite Z.quot_div_nonneg by lia. reflexivity.
Qed.

(** What [loanCredit] returns after a loan without error. *)
Lemma loanCredit_granted payloadSize (c : conn account) granted isComplete a :
  loan (creditChargeFor payloadSize c) (acct c) = Ret (granted, isComplete, None, a) ->
  loanCredit payloadSize c
  = Ret (granted, if isComplete then payloadSize else 65536 * granted, None, set_acct a c).
Proof.
  intros H. unfold loanCredit. rewrite H.
  unfold mbind, result_bind. destruct isComplete; reflexivity.
Qed.

(** C7 (amended): on a connection with the large-MTU capability and for a
    payload of 1 to 65535 * 65536 bytes, [loanCredit] asks the account for
    the payload size divided by 65536, rounded up (so for at least one
    credit); when the loan comes back complete the granted payload size is
    the payload size, and when it comes back incomplete it is 65536 times
    the credits granted. *)
Theorem loanCredit_large_mtu payloadSize (c : conn account) granted isComplete a :
  Z.land (capabilities c) SMB2_GLOBAL_CAP_LARGE_MTU <> 0 ->
  1 <= payloadSize <= 65535 * 65536 ->
  loan (creditChargeFor payloadSize c) (acct c) = Ret (granted, isComplete, None, a) ->
  1 <= creditChargeFor payloadSize c
  /\ 65536 * (creditChargeFor payloadSize c - 1) < payloadSize
     <= 65536 * creditChargeFor payloadSize c
  /\ loanCredit payloadSize c
     = Ret (granted, if isComplete then payloadSize else 65536 * granted, None, set_acct a c).
Proof.
  intros Hcap Hsize Hloan.
  destruct (creditChargeFor_ceiling payloadSize c Hcap Hsize) as [H1 H2].
  split; [exact H1|]. split; [exact H2|].
  now apply loanCredit_granted.
Qed.

End Credits.


(** ** The receive path: [tryVerify] and [tryHandle] *)

Section Receive.
Context {account : Type} {Acct : Account account} {K : Constants} {Cry : SessionCrypto}.
Import Conn.

(** C10: a packet whose MessageId field is 0xFFFFFFFFFFFFFFFF passes
    [tryVerify] with no error, whatever its flags, session id and
    signature, whatever the connection requires, and whatever the session's
    [verify] would answer. *)
Theorem tryVerify_unsolicited (pkt : slice) (isEncrypted : bool) (c : conn account) :
  PacketCodec.MessageId pkt = Ret 0xFFFFFFFFFFFFFFFF ->
  tryVerify pkt isEncrypted c = Ret None.
Proof.
  intros H. unfold tryVerify. rewrite H. reflexivity.
Qed.

(** The table after a [pop]. *)
Lemma pop_found id l (c : conn account) :
  requests c !! id = Some l ->
  pop id c = (Some l, set_requests (delete id (requests c)) c).
Proof. intros H. unfold pop. rewrite H. reflexivity. Qed.

Lemma pop_absent id (c : conn account) :
  requests c !! id = None -> pop id c = (None, c).
Proof. intros H. unfold pop. rewrite H. reflexivity. Qed.

(** A reply for a message id that is not outstanding changes nothing. *)
Lemma tryHandle_unknown pkt e (c : conn account) id :
  PacketCodec.MessageId pkt = Ret id ->
  requests c !! id = None ->
  tryHandle pkt e c
  = Ret (c, Some (InvalidResponseError "unknown message id returned")).
Proof.
  intros Hid Hnone. unfold tryHandle. rewrite Hid. simpl.
  rewrite (pop_absent id c Hnone). reflexivity.
Qed.

(** The verify-error outcome: the record leaves the table, gets the error
    and a closed channel; the account is not touched and no error is
    returned. *)
Lemma tryHandle_error pkt e (c : conn account) id l rr :
  PacketCodec.MessageId pkt = Ret id ->
  requests c !! id = Some l ->
  records c !! l = Some rr ->
  Chan.closed (RR.recv rr) = false ->
  tryHandle pkt (Some e) c
  = Ret (store l (RR.fail e (Chan.mk (Chan.buf (RR.recv rr)) true) rr)
           (set_requests (delete id (requests c)) c), None).
Proof.
  intros Hid Hl Hrr Hopen. unfold tryHandle. rewrite Hid. simpl.
  rewrite (pop_found id l c Hl). unfold deref. simpl. rewrite Hrr. simpl.
  unfold Chan.close. rewrite Hopen. reflexivity.
Qed.



End Receive.

(** ** The outstanding-request table: [shutdown] and [pop] *)

Section Shutdown.
Context {account : Type}.
Import Conn.

(** The loop of [shutdown] over pointers that are pairwise distinct and
    whose records have open channels: it ends, and it turns exactly these
    records into failed ones. *)
Lemma shutdown_all_spec e ls : forall c : conn account,
  NoDup ls ->
  (forall l, l ∈ ls ->
     exists rr, records c !! l = Some rr /\ Chan.closed (RR.recv rr) = false) ->
  exists c',
    shutdown_all e ls c = Ret c'
    /\ requests c' = requests c
    /\ err c' = err c
    /\ acct c' = acct c
    /\ sequenceWindow c' = sequenceWindow c
    /\ (forall l, l ∉ ls -> records c' !! l = records c !! l)
    /\ (forall l rr, l ∈ ls -> records c !! l = Some rr ->
          records c' !! l = Some (RR.shut e rr)).
Proof.
  induction ls as [|l ls IH]; intros c Hnd Hopen.
  - exists c. simpl. repeat split; try reflexivity.
    intros l rr Hin. inversion Hin.
  - apply NoDup_cons in Hnd as [Hnotin Hnd].
    destruct (Hopen l) as (rr & Hrr & Hcl); [left|].
    simpl. unfold shutdown_one at 1, deref. rewrite Hrr. simpl.
    unfold Chan.close. rewrite Hcl. simpl.
    set (c1 := store l (RR.fail e (Chan.mk (Chan.buf (RR.recv rr)) true) rr) c).
    destruct (IH c1 Hnd) as (c' & Hrun & Hreq & Herr & Hacct & Hseq & Hout & Hin).
    { intros l' Hl'. destruct (Hopen l') as (rr' & Hrr' & Hcl'); [now right|].
      exists rr'. split; [|exact Hcl'].
      unfold c1, store. simpl. rewrite lookup_insert_ne; [exact Hrr'|].
      intros ->. contradiction. }
    exists c'. split; [exact Hrun|]. repeat split; try assumption.
    + intros l' Hl'. apply not_elem_of_cons in Hl' as [Hne Hl'].
      rewrite (Hout l' Hl'). unfold c1, store. simpl.
      now rewrite lookup_insert_ne.
    + intros l' rr' Hl' Hrr'. apply elem_of_cons in Hl' as [->|Hl'].
      * rewrite (Hout l Hnotin). unfold c1, store. simpl.
        rewrite lookup_insert_eq. rewrite Hrr in Hrr'. now inversion Hrr'.
      * apply Hin; [exact Hl'|]. unfold c1, store. simpl.
        rewrite lookup_insert_ne; [exact Hrr'|]. intros ->. contradiction.
Qed.

(** The pointers of a table in which no record is entered twice are
    pairwise distinct. *)
Lemma table_pointers_NoDup (t : gmap Z loc) :
  (forall i j l, t !! i = Some l -> t !! j = Some l -> i = j) ->
  NoDup (map_to_list t).*2.
Proof.
  intros Hinj. apply NoDup_fmap_2_strong; [|apply NoDup_map_to_list].
  intros [i l] [j l'] Hi Hj Heq. simpl in Heq. subst l'.
  apply elem_of_map_to_list in Hi, Hj. f_equal. eapply Hinj; eassumption.
Qed.

(** C1 (amended): after [shutdown(err)] on the table as it is between
    calls (no record entered twice, every record entered with its channel
    open), every record that was in the table has [err] in its error slot
    and its result channel closed; the table itself keeps its entries, so
    that a subsequent [pop] for a message id that was in the table still
    finds the record (and takes it out). *)
Theorem shutdown_fails_records e (c : conn account) :
  tableOk c ->
  exists c',
    shutdown e c = Ret c'
    /\ requests c' = requests c
    /\ forall id l, requests c !! id = Some l ->
         (exists rr rr',
            records c !! l = Some rr /\ records c' !! l = Some rr'
            /\ RR.err rr' = Some e /\ Chan.closed (RR.recv rr') = true
            /\ RR.msgId rr' = RR.msgId rr)
         /\ pop id c' = (Some l, set_requests (delete id (requests c)) c').
Proof.
  intros [Hinj Hopen]. unfold shutdown.
  destruct (shutdown_all_spec e (map_to_list (requests c)).*2 c)
    as (c' & Hrun & Hreq & _ & _ & _ & _ & Hin).
  { now apply table_pointers_NoDup. }
  { intros l Hl. apply list_elem_of_fmap in Hl as ([i l'] & -> & Hil).
    apply elem_of_map_to_list in Hil. eapply Hopen; exact Hil. }
  exists c'. split; [exact Hrun|]. split; [exact Hreq|].
  intros id l Hl. split.
  - destruct (Hopen id l Hl) as (rr & Hrr & _).
    exists rr, (RR.shut e rr). split; [exact Hrr|]. split.
    + apply Hin; [|exact Hrr]. apply list_elem_of_fmap. exists (id, l).
      split; [reflexivity|]. now apply elem_of_map_to_list.
    + repeat split.
  - unfold pop. rewrite Hreq, Hl. reflexivity.
Qed.

End Shutdown.

(** ** The send path: message ids and the sequence window *)

Section Send.
Context {account : Type} {Acct : Account account} {K : Constants} {Cdc : Codec}
  {Cry : SessionCrypto}.
Import Conn.

(** A cancel request gets message id 0 and leaves header, window and
    account as they are. *)
Lemma assignMessageId_cancel req (c : conn account) :
  isCancel (body req) = true ->
  assignMessageId req c = (0, Header req, c).
Proof. intros H. unfold assignMessageId. rewrite H. reflexivity. Qed.

(** Any other request gets the sequence window as its message id, and the
    window moves on by the credit charge of its header, modulo 2^64. *)
Lemma assignMessageId_other req (c : conn account) :
  isCancel (body req) = false ->
  exists hdr a,
    assignMessageId req c
    = (sequenceWindow c, hdr,
       set_acct a (set_sequenceWindow
                     (uint64 (sequenceWindow c + CreditCharge (Header req))) c)).
Proof.
  intros H. unfold assignMessageId. rewrite H. simpl.
  destruct (opening (acct c)) as [o a]. eexists _, a. reflexivity.
Qed.

(** What [makeRequestResponse] does to the connection, in terms of the
    message id it assigned. *)
Lemma makeRequestResponse_spec req tc (c : conn account) :
  exists id hdr c1,
    assignMessageId req c = (id, hdr, c1)
    /\ (makeRequestResponse req tc c).1.(sequenceWindow) = sequenceWindow c1
    /\ (makeRequestResponse req tc c).1.(err) = err c
    /\ match (makeRequestResponse req tc c).2 with
       | inr _ => (makeRequestResponse req tc c).1 = c1
       | inl l =>
           records c !! l = None
           /\ requests (makeRequestResponse req tc c).1 = <[id := l]> (requests c)
           /\ exists rr, records (makeRequestResponse req tc c).1 !! l = Some rr
                         /\ RR.msgId rr = id
                         /\ Chan.closed (RR.recv rr) = false
       end.
Proof.
  unfold makeRequestResponse.
  assert (Hframe : forall id hdr c1, assignMessageId req c = (id, hdr, c1) ->
            err c1 = err c /\ requests c1 = requests c /\ records c1 = records c
            /\ session c1 = session c).
  { unfold assignMessageId. destruct (isCancel (body req)).
    - intros id hdr c1 Heq. injection Heq as <- <- <-. repeat split.
    - simpl. destruct (opening (acct c)) as [o a].
      intros id hdr c1 Heq. injection Heq as <- <- <-. repeat split. }
  destruct (assignMessageId req c) as [[id hdr] c1] eqn:E.
  destruct (Hframe id hdr c1 eq_refl) as (Herr & Hreq & Hrec & Hses).
  exists id, hdr, c1. split; [reflexivity|].
  destruct (protect _ _ _ _) as [pkt|e]; simpl.
  - split; [reflexivity|]. split; [exact Herr|]. split.
    + rewrite <- Hrec. apply not_elem_of_dom. apply is_fresh.
    + split; [now rewrite Hreq|].
      eexists. split; [apply lookup_insert_eq|]. split; reflexivity.
  - repeat split; assumption.
Qed.

(** C2 (amended): for a cancel request [makeRequestResponse] leaves the
    sequence window (and the account) as it is and gives the request
    message id 0; when it returns a record, that record is fresh and is
    entered in the outstanding-request table, under message id 0. *)
Theorem makeRequestResponse_cancel req tc (c : conn account) :
  body req = CancelRequest ->
  sequenceWindow (makeRequestResponse req tc c).1 = sequenceWindow c
  /\ acct (makeRequestResponse req tc c).1 = acct c
  /\ match (makeRequestResponse req tc c).2 with
     | inr _ => requests (makeRequestResponse req tc c).1 = requests c
     | inl l =>
         records c !! l = None
         /\ requests (makeRequestResponse req tc c).1 = <[0 := l]> (requests c)
         /\ exists rr, records (makeRequestResponse req tc c).1 !! l = Some rr
                       /\ RR.msgId rr = 0
     end.
Proof.
  intros Hb.
  destruct (makeRequestResponse_spec req tc c) as (id & hdr & c1 & Ha & Hw & _ & Hr).
  rewrite assignMessageId_cancel in Ha by (rewrite Hb; reflexivity).
  injection Ha as <- <- <-.
  split; [exact Hw|]. split.
  - unfold makeRequestResponse.
    rewrite assignMessageId_cancel by (rewrite Hb; reflexivity).
    destruct (protect _ _ _ _); reflexivity.
  - destruct ((makeRequestResponse req tc c).2) as [l|e].
    + destruct Hr as (Hfresh & Hreq & rr & Hrr & Hid & _).
      split; [exact Hfresh|]. split; [exact Hreq|]. exists rr. now split.
    + now rewrite Hr.
Qed.





End Send.

(** ** The compound loop of the receiver *)

Section Compound.
Import GoSlice Conn.
Context {S : Type} (handle : slice -> S -> result S).

(** A field that can be read needs the capacity for it. *)
Lemma field_Ret_cap p lo hi v :
  PacketCodec.field p lo hi = Ret v -> (hi <= cap p)%nat /\ 0 <= v.
Proof.
  unfold PacketCodec.field, sub.
  destruct (Nat.leb_spec lo hi); simpl; [|discriminate].
  destruct (Nat.leb_spec hi (cap p)); simpl; [|discriminate].
  intros [= <-]. split; [assumption | apply le_nonneg].
Qed.

(** The loop never uses up [S (cap pkt)] turns of fuel: every turn but
    the last moves on by a nonzero offset inside the buffer. *)
Lemma splitCompound_fuel fuel : forall pkt st,
  (cap pkt < fuel)%nat ->
  exists r, splitCompound handle fuel pkt st = Some r.
Proof.
  induction fuel as [|fuel IH]; intros pkt st Hfuel; [lia|].
  simpl. destruct (PacketCodec.NextCommand pkt) as [off| |] eqn:Hoff; eauto.
  apply field_Ret_cap in Hoff as [Hcap Hpos].
  destruct (Z.eqb_spec off 0) as [->|Hnz]; simpl.
  - destruct (handle pkt st); eauto.
  - unfold slice_to, slice_from.
    destruct (Nat.leb_spec (Z.to_nat off) (cap pkt)); simpl; eauto.
    destruct (Nat.leb_spec (Z.to_nat off) (len pkt)); simpl; eauto.
    destruct (handle _ st) as [st'| |]; eauto.
    apply IH. unfold cap in *. simpl. rewrite length_drop. lia.
Qed.

(** A NextCommand offset beyond the length of what is left of the frame
    makes the loop panic at the slice expression; nothing rejects it. *)
Lemma splitCompound_offset_past_length fuel pkt st off :
  PacketCodec.NextCommand pkt = Ret off ->
  (len pkt < Z.to_nat off)%nat ->
  splitCompound handle (Datatypes.S fuel) pkt st = Some Panic.
Proof.
  intros Hoff Hpast. simpl. rewrite Hoff.
  destruct (Z.eqb_spec off 0) as [->|Hnz]; [simpl in Hpast; lia|]. simpl.
  rewrite (slice_from_None pkt (Z.to_nat off) Hpast).
  destruct (slice_to pkt (Z.to_nat off)); reflexivity.
Qed.

(** A NextCommand offset equal to the length of what is left is not taken
    as the end of the chain: the element is handled, and the loop goes on
    with the empty slice behind it. *)
Lemma splitCompound_offset_equal_length fuel pkt st off :
  PacketCodec.NextCommand pkt = Ret off ->
  off <> 0 ->
  Z.to_nat off = len pkt ->
  (len pkt <= cap pkt)%nat ->
  splitCompound handle (Datatypes.S fuel) pkt st
  = match handle (GoSlice.mk (backing pkt) (len pkt)) st with
    | Ret st' => splitCompound handle fuel (GoSlice.mk (drop (len pkt) (backing pkt)) 0) st'
    | Panic => Some Panic
    | Block => Some Block
    end.
Proof.
  intros Hoff Hnz Heq Hwf. simpl. rewrite Hoff.
  destruct (Z.eqb_spec off 0) as [->|_]; [contradiction|]. simpl.
  rewrite Heq. unfold slice_to, slice_from.
  destruct (Nat.leb_spec (len pkt) (cap pkt)); [|lia].
  destruct (Nat.leb_spec (len pkt) (len pkt)); [|lia]. simpl.
  rewrite Nat.sub_diag. reflexivity.
Qed.

End Compound.

(** ** What the send and receive paths leave alone *)

Section Evolution.
Context {account : Type} {Acct : Account account} {K : Constants} {Cdc : Codec}
  {Cry : SessionCrypto}.
Import GoSlice Conn.

Lemma evolves_refl (c : conn account) : evolves c c.
Proof. split; [reflexivity|]. intros l rr H. exists rr. now split. Qed.

Lemma evolves_trans (c1 c2 c3 : conn account) :
  evolves c1 c2 -> evolves c2 c3 -> evolves c1 c3.
Proof.
  intros [S12 P12] [S23 P23]. split; [congruence|].
  intros l rr H. destruct (P12 l rr H) as (rr2 & H2 & E2).
  destruct (P23 l rr2 H2) as (rr3 & H3 & E3). exists rr3. split; [exact H3|congruence].
Qed.

(** A state that differs only in the table, the window, the account or
    the error. *)
Lemma evolves_same_records (c c' : conn account) :
  settings c' = settings c -> records c' = records c -> evolves c c'.
Proof.
  intros Hs Hr. split; [exact Hs|]. intros l rr H. exists rr. rewrite Hr. now split.
Qed.

(** Writing a record back with its packet, or a new record to a free
    place. *)
Lemma evolves_store (c : conn account) l rr' :
  match records c !! l with
  | Some rr => RR.pkt rr' = RR.pkt rr
  | None => True
  end ->
  evolves c (store l rr' c).
Proof.
  intros H. split; [reflexivity|]. intros l0 rr0 H0. unfold store. simpl.
  destruct (decide (l = l0)) as [->|Hne].
  - rewrite H0 in H. exists rr'. rewrite lookup_insert_eq. now split.
  - exists rr0. rewrite lookup_insert_ne by exact Hne. now split.
Qed.

Lemma evolves_pop id (c : conn account) : evolves c (pop id c).2.
Proof.
  unfold pop. destruct (requests c !! id); simpl; [|apply evolves_refl].
  now apply evolves_same_records.
Qed.

Lemma evolves_assignMessageId req (c : conn account) :
  evolves c (assignMessageId req c).2.
Proof.
  unfold assignMessageId. destruct (isCancel (body req)); [apply evolves_refl|].
  simpl. destruct (opening (acct c)) as [o a]. simpl.
  now apply evolves_same_records.
Qed.

Lemma evolves_makeRequestResponse req tc (c : conn account) :
  evolves c (makeRequestResponse req tc c).1.
Proof.
  unfold makeRequestResponse.
  pose proof (evolves_assignMessageId req c) as H.
  destruct (assignMessageId req c) as [[id hdr] c1]. simpl in H.
  destruct (protect _ _ _ _) as [pkt|e]; simpl; [|exact H].
  eapply evolves_trans; [exact H|].
  eapply evolves_trans; [apply (evolves_store c1 (fresh (dom (records c1))))|].
  - assert (Hn : records c1 !! fresh (dom (records c1)) = None)
      by (apply not_elem_of_dom, is_fresh).
    rewrite Hn. exact I.
  - now apply evolves_same_records.
Qed.

Lemma evolves_sendWith req tc env (c c' : conn account) r :
  sendWith req tc env c = Ret (c', r) -> evolves c c'.
Proof.
  unfold sendWith. destruct (err c); [intros [= <- _]; apply evolves_refl|].
  destruct (doneAtEntry env); [intros [= <- _]; apply evolves_refl|].
  pose proof (evolves_makeRequestResponse req tc c) as H.
  destruct (makeRequestResponse req tc c) as [c1 [l|e]]; simpl in H.
  - destruct (deref c1 l) as [rr| |]; simpl; try discriminate.
    destruct (onWire env); intros [= <- _]; try exact H;
      (eapply evolves_trans; [exact H | apply evolves_pop]).
  - intros [= <- _]. exact H.
Qed.

Lemma evolves_tryHandle pkt e (c c' : conn account) r :
  tryHandle pkt e c = Ret (c', r) -> evolves c c'.
Proof.
  unfold tryHandle.
  destruct (PacketCodec.MessageId pkt) as [id| |]; simpl; try discriminate.
  pose proof (evolves_pop id c) as Hpop.
  destruct (pop id c) as [[l|] c0]; simpl in Hpop; [|intros [= <- _]; exact Hpop].
  unfold deref. destruct (records c0 !! l) as [rr|] eqn:Hrr; simpl; try discriminate.
  destruct e as [e|].
  - destruct (Chan.close (RR.recv rr)) as [ch| |]; simpl; try discriminate.
    intros [= <- _]. eapply evolves_trans; [exact Hpop|].
    apply evolves_store. rewrite Hrr. reflexivity.
  - destruct (PacketCodec.Status pkt) as [status| |]; simpl; try discriminate.
    destruct (status =? STATUS_PENDING).
    + destruct (PacketCodec.AsyncId pkt) as [aid| |]; simpl; try discriminate.
      destruct (PacketCodec.CreditResponse pkt) as [granted| |]; simpl; try discriminate.
      intros [= <- _]. eapply evolves_trans; [exact Hpop|].
      eapply evolves_trans; [apply (evolves_same_records c0
                                      (set_acct (charge granted (RR.creditRequest rr) (acct c0)) c0));
                             reflexivity|].
      eapply evolves_trans; [apply (evolves_store _ l (RR.with_asyncId aid rr))|].
      * simpl. rewrite Hrr. reflexivity.
      * now apply evolves_same_records.
    + destruct (PacketCodec.CreditResponse pkt) as [granted| |]; simpl; try discriminate.
      destruct (Chan.send (RR.recv rr) pkt) as [ch| |]; simpl; try discriminate.
      intros [= <- _]. eapply evolves_trans; [exact Hpop|].
      eapply evolves_trans; [apply (evolves_same_records c0
                                      (set_acct (charge granted (RR.creditRequest rr) (acct c0)) c0));
                             reflexivity|].
      apply evolves_store. simpl. rewrite Hrr. reflexivity.
Qed.

(** What every treatment of an element keeps, the loop keeps. *)
Lemma splitCompound_invariant {S : Type} (handle : slice -> S -> result S)
    (P : S -> S -> Prop) :
  (forall st, P st st) ->
  (forall a b d, P a b -> P b d -> P a d) ->
  (forall pkt st st', handle pkt st = Ret st' -> P st st') ->
  forall fuel pkt st st',
    splitCompound handle fuel pkt st = Some (Ret st') -> P st st'.
Proof.
  intros Hrefl Htrans Hstep. induction fuel as [|fuel IH]; intros pkt st st'; [discriminate|].
  simpl. destruct (PacketCodec.NextCommand pkt) as [off| |]; try discriminate.
  destruct (negb (off =? 0)).
  - destruct (slice_to pkt (Z.to_nat off)) as [head|]; simpl; try discriminate.
    destruct (slice_from pkt (Z.to_nat off)) as [next|]; simpl; try discriminate.
    destruct (handle head st) as [st1| |] eqn:Hh; try discriminate.
    intros H. eapply Htrans; [apply (Hstep _ _ _ Hh) | apply (IH _ _ _ H)].
  - simpl. destruct (handle pkt st) as [st1| |] eqn:Hh; try discriminate.
    intros [= <-]. apply (Hstep _ _ _ Hh).
Qed.

Lemma evolves_handleFrame hasSession isEncrypted pkt (c c' : conn account) r :
  handleFrame hasSession isEncrypted pkt c = Ret (c', r) -> evolves c c'.
Proof.
  unfold handleFrame.
  destruct (splitCompound _ _ _ _) as [[st'| |]|] eqn:H; try discriminate.
  intros [= ->].
  apply (splitCompound_invariant (handleElement hasSession isEncrypted)
           (fun a b => evolves a.1 b.1)) in H; [exact H| | |].
  - intros st. apply evolves_refl.
  - intros a b d. apply evolves_trans.
  - intros p [c0 e0] [c1 e1]. unfold handleElement.
    destruct hasSession.
    + destruct (tryVerify p isEncrypted c0) as [e| |]; simpl; try discriminate.
      apply evolves_tryHandle.
    + simpl. apply evolves_tryHandle.
Qed.

Lemma evolves_shutdown_all e ls : forall c c' : conn account,
  shutdown_all e ls c = Ret c' -> evolves c c'.
Proof.
  induction ls as [|l ls IH]; intros c c'; simpl.
  - intros [= <-]. apply evolves_refl.
  - unfold shutdown_one at 1, deref.
    destruct (records c !! l) as [rr|] eqn:Hrr; simpl; try discriminate.
    destruct (Chan.close (RR.recv rr)) as [ch| |]; simpl; try discriminate.
    intros H. eapply evolves_trans; [|apply (IH _ _ H)].
    apply evolves_store. rewrite Hrr. reflexivity.
Qed.

Lemma evolves_receiver evs : forall c c' : conn account,
  receiver evs c = Ret c' -> evolves c c'.
Proof.
  induction evs as [|ev evs IH]; intros c c'; simpl.
  - intros [= <-]. apply evolves_refl.
  - destruct ev as [pkt|cause closing].
    + destruct (handleFrame false false pkt c) as [[c1 r]| |] eqn:H; simpl; try discriminate.
      intros H'. eapply evolves_trans; [apply (evolves_handleFrame _ _ _ _ _ _ H)|].
      now apply IH.
    + unfold receiverExit, shutdown.
      destruct (shutdown_all _ _ c) as [c1| |] eqn:H; simpl; try discriminate.
      intros [= <-]. eapply evolves_trans; [apply (evolves_shutdown_all _ _ _ _ H)|].
      now apply evolves_same_records.
Qed.

Lemma evolves_recv l ctxDone (c c' : conn account) r :
  recv l ctxDone c = Ret (c', r) -> evolves c c'.
Proof.
  unfold recv, deref.
  destruct (records c !! l) as [rr|] eqn:Hrr; simpl; try discriminate.
  destruct ctxDone; [intros [= <- _]; apply evolves_pop|].
  destruct (Chan.buf (RR.recv rr)).
  - assert (He : evolves c (store l (RR.with_recv (Chan.mk None (Chan.closed (RR.recv rr))) rr) c)).
    { apply evolves_store. rewrite Hrr. reflexivity. }
    destruct (RR.err rr); intros [= <- _]; exact He.
  - destruct (Chan.closed (RR.recv rr)); [|discriminate].
    destruct (RR.err rr); intros [= <- _]; apply evolves_refl.
Qed.

End Evolution.

(** ** The table between calls *)

Section TableOk.
Context {account : Type} {Acct : Account account} {K : Constants} {Cdc : Codec}
  {Cry : SessionCrypto}.
Import GoSlice Conn.

Lemma tableOk_same (c c' : conn account) :
  requests c' = requests c -> records c' = records c -> tableOk c -> tableOk c'.
Proof. intros Hq Hr [H1 H2]. unfold tableOk. rewrite Hq, Hr. now split. Qed.

Lemma tableOk_pop id (c : conn account) : tableOk c -> tableOk (pop id c).2.
Proof.
  intros [Hinj Hopen]. unfold pop.
  destruct (requests c !! id) as [l|]; simpl; [|now split].
  split.
  - intros i j l' Hi Hj. simpl in Hi, Hj. apply lookup_delete_Some in Hi as [_ Hi].
    apply lookup_delete_Some in Hj as [_ Hj]. eapply Hinj; eassumption.
  - intros i l' Hi. simpl in Hi. apply lookup_delete_Some in Hi as [_ Hi].
    eapply Hopen; eassumption.
Qed.

(** The record popped is under no other message id. *)
Lemma pop_untabled id (c : conn account) l :
  tableOk c -> (pop id c).1 = Some l ->
  forall i, requests (pop id c).2 !! i <> Some l.
Proof.
  intros [Hinj _]. unfold pop.
  destruct (requests c !! id) as [l0|] eqn:Hid; simpl; [|discriminate].
  intros [= ->] i Hi. simpl in Hi. apply lookup_delete_Some in Hi as [Hne Hi].
  apply Hne. eapply Hinj; eassumption.
Qed.

(** Writing a record that is not in the table. *)
Lemma tableOk_store_untabled l rr (c : conn account) :
  tableOk c -> (forall i, requests c !! i <> Some l) -> tableOk (store l rr c).
Proof.
  intros [Hinj Hopen] Hun. split; [exact Hinj|].
  intros i l' Hi. simpl in Hi. destruct (Hopen i l' Hi) as (rr' & Hrr' & Hcl).
  exists rr'. split; [|exact Hcl]. unfold store. simpl.
  rewrite lookup_insert_ne; [exact Hrr'|]. intros ->. exact (Hun i Hi).
Qed.

(** Writing a record back with its channel as open or closed as it was. *)
Lemma tableOk_store_keep l rr rr' (c : conn account) :
  tableOk c -> records c !! l = Some rr ->
  Chan.closed (RR.recv rr') = Chan.closed (RR.recv rr) ->
  tableOk (store l rr' c).
Proof.
  intros [Hinj Hopen] Hrr Hsame. split; [exact Hinj|].
  intros i l' Hi. simpl in Hi. destruct (Hopen i l' Hi) as (rr0 & Hrr0 & Hcl).
  unfold store. simpl. destruct (decide (l = l')) as [->|Hne].
  - exists rr'. rewrite lookup_insert_eq. split; [reflexivity|]. congruence.
  - exists rr0. rewrite lookup_insert_ne by exact Hne. now split.
Qed.

(** Entering a record with an open channel that is not in the table. *)
Lemma tableOk_set id l rr (c : conn account) :
  tableOk c -> (forall i, requests c !! i <> Some l) ->
  records c !! l = Some rr -> Chan.closed (RR.recv rr) = false ->
  tableOk (set id l c).
Proof.
  intros [Hinj Hopen] Hun Hrr Hcl. split.
  - intros i j l' Hi Hj. simpl in Hi, Hj.
    apply lookup_insert_Some in Hi as [[<- <-]|[Hni Hi]];
      apply lookup_insert_Some in Hj as [[<- Hl]|[Hnj Hj]]; try reflexivity.
    + exfalso. exact (Hun j Hj).
    + exfalso. subst l'. exact (Hun i Hi).
    + eapply Hinj; eassumption.
  - intros i l' Hi. simpl in Hi.
    apply lookup_insert_Some in Hi as [[<- <-]|[Hni Hi]].
    + exists rr. now split.
    + exact (Hopen i l' Hi).
Qed.

Lemma tableOk_newConn (a : account) : tableOk (newConn a).
Proof.
  split.
  - intros i j l Hi. simpl in Hi. rewrite lookup_empty in Hi. discriminate.
  - intros i l Hi. simpl in Hi. rewrite lookup_empty in Hi. discriminate.
Qed.

Lemma tableOk_makeRequestResponse req tc (c : conn account) :
  tableOk c -> tableOk (makeRequestResponse req tc c).1.
Proof.
  intros Hok. unfold makeRequestResponse.
  assert (H1 : tableOk (assignMessageId req c).2).
  { unfold assignMessageId. destruct (isCancel (body req)); [exact Hok|].
    simpl. destruct (opening (acct c)) as [o a]. simpl.
    eapply tableOk_same; [| |exact Hok]; reflexivity. }
  destruct (assignMessageId req c) as [[id hdr] c1]. simpl in H1.
  destruct (protect _ _ _ _) as [pkt|e]; simpl; [|exact H1].
  assert (Hfresh : records c1 !! fresh (dom (records c1)) = None)
    by (apply not_elem_of_dom, is_fresh).
  assert (Hun : forall i, requests c1 !! i <> Some (fresh (dom (records c1)))).
  { intros i Hi. destruct H1 as [_ Hopen]. destruct (Hopen i _ Hi) as (rr & Hrr & _).
    congruence. }
  eapply tableOk_set.
  - apply tableOk_store_untabled; [exact H1 | exact Hun].
  - exact Hun.
  - simpl. apply lookup_insert_eq.
  - reflexivity.
Qed.

Lemma tableOk_sendWith req tc env (c c' : conn account) r :
  tableOk c -> sendWith req tc env c = Ret (c', r) -> tableOk c'.
Proof.
  intros Hok. unfold sendWith. destruct (err c); [intros [= <- _]; exact Hok|].
  destruct (doneAtEntry env); [intros [= <- _]; exact Hok|].
  pose proof (tableOk_makeRequestResponse req tc c Hok) as H.
  destruct (makeRequestResponse req tc c) as [c1 [l|e]]; simpl in H.
  - destruct (deref c1 l) as [rr| |]; simpl; try discriminate.
    destruct (onWire env); intros [= <- _]; try exact H; now apply tableOk_pop.
  - intros [= <- _]. exact H.
Qed.

Lemma tableOk_tryHandle pkt e (c c' : conn account) r :
  tableOk c -> tryHandle pkt e c = Ret (c', r) -> tableOk c'.
Proof.
  intros Hok. unfold tryHandle.
  destruct (PacketCodec.MessageId pkt) as [id| |]; simpl; try discriminate.
  pose proof (tableOk_pop id c Hok) as Hpop.
  pose proof (pop_untabled id c) as Hun.
  assert (Hopen : forall l, (pop id c).1 = Some l ->
            forall rr, records (pop id c).2 !! l = Some rr ->
            Chan.closed (RR.recv rr) = false).
  { intros l Hl rr Hrr. unfold pop in Hl, Hrr.
    destruct (requests c !! id) as [l0|] eqn:Hid; simpl in Hl, Hrr; [|discriminate].
    injection Hl as ->. destruct Hok as [_ Ho].
    destruct (Ho id l Hid) as (rr0 & Hrr0 & Hcl). congruence. }
  destruct (pop id c) as [[l|] c0]; simpl in Hpop, Hun, Hopen;
    [|intros [= <- _]; exact Hpop].
  specialize (Hun l Hok eq_refl). specialize (Hopen l eq_refl).
  unfold deref. destruct (records c0 !! l) as [rr|] eqn:Hrr; simpl; try discriminate.
  specialize (Hopen rr eq_refl).
  destruct e as [e|].
  - destruct (Chan.close (RR.recv rr)) as [ch| |]; simpl; try discriminate.
    intros [= <- _]. now apply tableOk_store_untabled.
  - destruct (PacketCodec.Status pkt) as [status| |]; simpl; try discriminate.
    destruct (status =? STATUS_PENDING).
    + destruct (PacketCodec.AsyncId pkt) as [aid| |]; simpl; try discriminate.
      destruct (PacketCodec.CreditResponse pkt) as [granted| |]; simpl; try discriminate.
      intros [= <- _].
      eapply (tableOk_set id l (RR.with_asyncId aid rr)).
      * apply tableOk_store_untabled; [|exact Hun].
        eapply tableOk_same; [| |exact Hpop]; reflexivity.
      * exact Hun.
      * simpl. apply lookup_insert_eq.
      * exact Hopen.
    + destruct (PacketCodec.CreditResponse pkt) as [granted| |]; simpl; try discriminate.
      destruct (Chan.send (RR.recv rr) pkt) as [ch| |]; simpl; try discriminate.
      intros [= <- _]. apply tableOk_store_untabled; [|exact Hun].
      eapply tableOk_same; [| |exact Hpop]; reflexivity.
Qed.

Lemma tableOk_handleFrame hasSession isEncrypted pkt (c c' : conn account) r :
  tableOk c -> handleFrame hasSession isEncrypted pkt c = Ret (c', r) -> tableOk c'.
Proof.
  intros Hok. unfold handleFrame.
  destruct (splitCompound _ _ _ _) as [[st'| |]|] eqn:H; try discriminate.
  intros [= ->].
  refine (splitCompound_invariant (handleElement hasSession isEncrypted)
            (fun a b => tableOk a.1 -> tableOk b.1) _ _ _ _ _ _ _ H Hok).
  - intros st Hst. exact Hst.
  - intros a b d Hab Hbd Ha. auto.
  - intros p [c0 e0] [c1 e1]. unfold handleElement. simpl. intros Hrun Hc0.
    destruct hasSession.
    + destruct (tryVerify p isEncrypted c0) as [e| |]; simpl in Hrun; try discriminate.
      eapply tableOk_tryHandle; eassumption.
    + simpl in Hrun. eapply tableOk_tryHandle; eassumption.
Qed.

Lemma tableOk_recv l ctxDone (c c' : conn account) r :
  tableOk c -> recv l ctxDone c = Ret (c', r) -> tableOk c'.
Proof.
  intros Hok. unfold recv, deref.
  destruct (records c !! l) as [rr|] eqn:Hrr; simpl; try discriminate.
  destruct ctxDone; [intros [= <- _]; now apply tableOk_pop|].
  destruct (Chan.buf (RR.recv rr)).
  - assert (He : tableOk (store l (RR.with_recv (Chan.mk None (Chan.closed (RR.recv rr))) rr) c)).
    { eapply tableOk_store_keep; [exact Hok | exact Hrr | reflexivity]. }
    destruct (RR.err rr); intros [= <- _]; exact He.
  - destruct (Chan.closed (RR.recv rr)); [|discriminate].
    destruct (RR.err rr); intros [= <- _]; exact Hok.
Qed.

(** Any sequence of sends keeps the table in that state. *)
Lemma tableOk_sendAll calls : forall (c c' : conn account) ids,
  tableOk c -> sendAll calls c = Ret (c', ids) -> tableOk c'.
Proof.
  induction calls as [|call calls IH]; intros c c' ids Hok; simpl.
  - intros [= <- _]. exact Hok.
  - unfold sendOne.
    destruct (sendWith (callReq call) (callTc call) (callEnv call) c)
      as [[c1 r]| |] eqn:Hs; simpl; try discriminate.
    apply (tableOk_sendWith _ _ _ _ _ _ Hok) in Hs.
    assert (Hnext : forall id,
              ('(c0, ids0) ← sendAll calls c1; Ret (c0, id :: ids0)) = Ret (c', ids) ->
              tableOk c').
    { intros id. destruct (sendAll calls c1) as [[c2 ids2]| |] eqn:Ha; simpl;
        try discriminate.
      intros [= <- _]. eapply IH; eassumption. }
    destruct r as [l|e]; [|apply Hnext].
    destruct (deref c1 l) as [rr| |]; simpl; try discriminate. apply Hnext.
Qed.

End TableOk.

(** ** Negotiation *)

Section Negotiation.
Context {account : Type} {Acct : Account account} {K : Constants} {Cdc : Codec}
  {Cry : SessionCrypto} {Dec : Decoders} {Sha : Sha512} {rng : Type}
  {Ent : Entropy rng}.
Import GoSlice Conn.




Lemma exchange_evolves req env (c c' : conn account) r :
  exchange req env c = Ret (c', r) -> evolves c c'.
Proof.
  unfold exchange, send.
  destruct (sendWith req None (sending env) c) as [[c1 r1]| |] eqn:Hsend; simpl;
    try discriminate.
  apply evolves_sendWith in Hsend.
  destruct r1 as [l|e]; [|intros [= <- _]; exact Hsend].
  destruct (receiver (inbound env) c1) as [c2| |] eqn:Hrecv; simpl; try discriminate.
  apply evolves_receiver in Hrecv.
  destruct (deref c2 l) as [rr| |]; simpl; try discriminate.
  destruct (recv l (recvDone env) c2) as [[c3 r3]| |] eqn:Hr; simpl; try discriminate.
  apply evolves_recv in Hr.
  assert (H13 : evolves c c3)
    by (eapply evolves_trans; [exact Hsend|]; eapply evolves_trans; eassumption).
  destruct r3; intros [= <- _]; exact H13.
Qed.


(** A reply that [accept] lets through without error comes with its
    payload, the bytes behind the header. *)
Lemma accept_payload cmd pkt res :
  accept cmd pkt = Ret (res, None) ->
  exists d, res = Some d /\ PacketCodec.Data pkt = Ret d.
Proof.
  unfold accept.
  destruct (PacketCodec.Command pkt) as [command| |]; simpl; try discriminate.
  destruct (negb (cmd =? command)); [discriminate|].
  destruct (PacketCodec.Status pkt) as [status| |]; simpl; try discriminate.
  destruct (PacketCodec.Data pkt) as [d| |]; simpl;
    repeat match goal with
           | |- context [if ?b then _ else _] => destruct b; simpl
           end;
    try discriminate;
    intros [= <-]; exists d; split; reflexivity.
Qed.


(** The loop over the contexts applies the two hashing steps once for
    every preauth-integrity context it visits, and writes nothing but the
    hash and the cipher. *)
Lemma parseContexts_hash count : forall ctxs request reply (c c' : conn account),
  parseContexts count ctxs request reply c = inl c' ->
  preauthIntegrityHashValue c'
  = Nat.iter (preauthCount count ctxs)
      (fun v => Sum512 (Sum512 (v ++ request) ++ reply))
      (preauthIntegrityHashValue c)
  /\ preauthIntegrityHashId c'
     = match preauthCount count ctxs with
       | O => preauthIntegrityHashId c
       | Datatypes.S _ => SHA512
       end
  /\ dialect c' = dialect c
  /\ sequenceWindow c' = sequenceWindow c.
Proof.
  induction count as [|count IH]; intros ctxs request reply c c'; simpl.
  - intros [= <-]. repeat split.
  - destruct (NegotiateContext.IsInvalid (NegotiateContextDecoder ctxs)); [discriminate|].
    unfold applyContext.
    destruct (NegotiateContext.ContextType (NegotiateContextDecoder ctxs)
              =? SMB2_PREAUTH_INTEGRITY_CAPABILITIES).
    + destruct (HashContextData.IsInvalid _); [discriminate|].
      destruct (HashContextData.HashAlgorithms _) as [|alg [|alg' algs]]; try discriminate.
      destruct (Z.eqb_spec alg SHA512) as [->|_]; [|discriminate].
      intros H. apply IH in H as (Hv & Hid & Hd & Hw).
      split.
      { rewrite Hv. simpl preauthIntegrityHashValue.
        change (1 + ?k)%nat with (Datatypes.S k).
        rewrite Nat.iter_succ_r. reflexivity. }
      split; [|split; assumption].
      rewrite Hid. simpl. destruct (preauthCount count _); reflexivity.
    + destruct (NegotiateContext.ContextType (NegotiateContextDecoder ctxs)
                =? SMB2_ENCRYPTION_CAPABILITIES).
      * destruct (CipherContextData.IsInvalid _); [discriminate|].
        destruct (CipherContextData.Ciphers _) as [|ciph [|ciph' ciphs]]; try discriminate.
        destruct ((ciph =? AES128CCM) || (ciph =? AES128GCM)); [|discriminate].
        intros H. apply IH in H as (Hv & Hid & Hd & Hw). simpl in *.
        repeat split; assumption.
      * intros H. apply IH in H as (Hv & Hid & Hd & Hw). simpl in *.
        repeat split; assumption.
Qed.

(** What [finish] decides, for a reply that [accept] lets through and
    whose NEGOTIATE response is well-formed. *)
Lemma finish_valid (n : Negotiator) request reply (c : conn account) payload :
  accept SMB2_NEGOTIATE reply = Ret (Some payload, None) ->
  NegotiateResponse.IsInvalid (NegotiateResponseDecoder (elems payload)) = false ->
  finish n request reply c
  = let r := NegotiateResponseDecoder (elems payload) in
    if NegotiateResponse.DialectRevision r =? SMB2
    then Ret (Retry (account := account) (set_SpecifiedDialect SMB210 n))
    else if negb (SpecifiedDialect n =? UnknownSMB)
            && negb (SpecifiedDialect n =? NegotiateResponse.DialectRevision r)
    then Ret (Finished (inr (InvalidResponseError "unexpected dialect returned")))
    else if negb (NegotiateResponse.DialectRevision r =? SMB311)
    then Ret (Finished (inl (adopt n r c)))
    else Ret (Finished
                (parseContexts (Z.to_nat (NegotiateResponse.NegotiateContextCount r))
                   (NegotiateResponse.NegotiateContextList r)
                   (elems request) (elems reply) (adopt n r c))).
Proof.
  intros Ha Hv. unfold finish. rewrite Ha. simpl. rewrite Hv. reflexivity.
Qed.

(** Every outcome of [finish] other than an error comes from such a
    reply. *)
Lemma finish_inv (n : Negotiator) request reply (c : conn account) a :
  finish n request reply c = Ret a ->
  (exists e, a = Finished (inr e))
  \/ exists payload,
       accept SMB2_NEGOTIATE reply = Ret (Some payload, None)
       /\ PacketCodec.Data reply = Ret payload
       /\ NegotiateResponse.IsInvalid (NegotiateResponseDecoder (elems payload)) = false.
Proof.
  unfold finish.
  destruct (accept SMB2_NEGOTIATE reply) as [[res e]| |] eqn:Ha; simpl; try discriminate.
  destruct e as [e|]; [intros [= <-]; left; eauto|].
  destruct (accept_payload _ _ _ Ha) as (d & -> & Hd).
  destruct (NegotiateResponse.IsInvalid (NegotiateResponseDecoder (elems d))) eqn:Hv.
  - intros [= <-]. left. eauto.
  - intros _. right. exists d. repeat split; assumption.
Qed.





End Negotiation.

(** * Part II, continued: further properties of the code *)

(** ** [sessionKey] on keys of 16 bytes and more *)

Section SessionKeyLong.
Import GoSlice Krb5.

(** X1: for a session key of at least 16 bytes, [sessionKey] returns its
    first 16 bytes, and nothing of the rest. *)
Theorem sessionKey_truncates key :
  (16 <= len key)%nat -> (len key <= cap key)%nat ->
  elems <$> sessionKey key = Ret (take 16 (elems key)).
Proof.
  intros Hlen Hcap. rewrite sessionKey_within_capacity by lia.
  unfold elems. simpl. f_equal. rewrite take_take. f_equal. lia.
Qed.

End SessionKeyLong.

(** ** The table: [set] and [pop] *)

Section TableRoundTrip.
Context {account : Type}.
Import Conn.

(** X2: what [set] enters under a message id is what [pop] of that id
    returns, [pop] takes the entry out so that a second [pop] finds
    nothing, and the entries under other message ids are as they were. *)
Theorem pop_set id l (c : conn account) :
  pop id (set id l c) = (Some l, set_requests (delete id (requests c)) c)
  /\ (pop id (pop id (set id l c)).2).1 = None
  /\ forall id', id' <> id -> (pop id' (set id l c)).1 = requests c !! id'.
Proof.
  assert (H1 : pop id (set id l c) = (Some l, set_requests (delete id (requests c)) c)).
  { unfold pop, set. simpl. rewrite lookup_insert_eq. simpl.
    rewrite delete_insert_eq. reflexivity. }
  split; [exact H1|]. split.
  - rewrite H1. unfold pop. simpl. rewrite lookup_delete_eq. reflexivity.
  - intros id' Hne. unfold pop, set. simpl.
    rewrite lookup_insert_ne by congruence.
    destruct (requests c !! id'); reflexivity.
Qed.

End TableRoundTrip.

(** ** [accept] and [acceptError] *)

Section Accept.
Context {K : Constants} {Dec : Decoders}.
Import GoSlice Conn.

(** X3: when [accept] returns without error, the reply carries the command
    asked for, its status is STATUS_SUCCESS (or, for SESSION_SETUP,
    STATUS_MORE_PROCESSING_REQUIRED), and the payload returned is the
    packet behind its 64-byte header. *)
Theorem accept_success cmd pkt res :
  accept cmd pkt = Ret (res, None) ->
  PacketCodec.Command pkt = Ret cmd
  /\ (PacketCodec.Status pkt = Ret STATUS_SUCCESS
      \/ (cmd = SMB2_SESSION_SETUP
          /\ PacketCodec.Status pkt = Ret STATUS_MORE_PROCESSING_REQUIRED))
  /\ exists d, res = Some d /\ PacketCodec.Data pkt = Ret d.
Proof.
  unfold accept.
  destruct (PacketCodec.Command pkt) as [command| |]; simpl; try discriminate.
  destruct (Z.eqb_spec cmd command) as [<-|_]; simpl; [|discriminate].
  destruct (PacketCodec.Status pkt) as [status| |]; simpl; try discriminate.
  destruct (Z.eqb_spec status STATUS_SUCCESS) as [->|_].
  { destruct (PacketCodec.Data pkt) as [d| |]; simpl; try discriminate.
    intros [= <-]. split; [reflexivity|]. split; [now left|]. eauto. }
  destruct (status =? STATUS_OBJECT_NAME_COLLISION); [discriminate|].
  destruct ((status =? STATUS_OBJECT_NAME_NOT_FOUND)
            || (status =? STATUS_OBJECT_PATH_NOT_FOUND)); [discriminate|].
  destruct ((status =? STATUS_ACCESS_DENIED) || (status =? STATUS_CANNOT_DELETE));
    [discriminate|].
  destruct (Z.eqb_spec cmd SMB2_SESSION_SETUP) as [->|_].
  { destruct (Z.eqb_spec status STATUS_MORE_PROCESSING_REQUIRED) as [->|_].
    - destruct (PacketCodec.Data pkt) as [d| |]; simpl; try discriminate.
      intros [= <-]. split; [reflexivity|]. split; [right; now split|]. eauto.
    - destruct (PacketCodec.Data pkt) as [d| |]; simpl; discriminate. }
  destruct (PacketCodec.Data pkt) as [d| |]; simpl;
    repeat match goal with
           | |- context [if ?b then _ else _] => destruct b; simpl
           end;
    discriminate.
Qed.

(** The loop over the error contexts gives one entry for each context. *)
Lemma errorContexts_length count : forall eData data,
  errorContexts count eData = Some data -> length data = count.
Proof.
  induction count as [|count IH]; intros eData data; simpl.
  - intros [= <-]. reflexivity.
  - destruct (ErrorContextResponse.IsInvalid _); [discriminate|].
    destruct (_ <? _); [discriminate|].
    destruct (errorContexts count _) as [rest|] eqn:Hrest; [|discriminate].
    intros [= <-]. simpl. f_equal. eapply IH. exact Hrest.
Qed.

(** X4: the error [acceptError] makes of a status is either an
    invalid-response error or a response error that carries this status;
    its data are the error data themselves when the response counts no
    error context, and otherwise one entry for each context counted. *)
Theorem acceptError_shape status res :
  (exists msg, acceptError status res = InvalidResponseError msg)
  \/ exists data,
       acceptError status res = ResponseError status data
       /\ ErrorResponse.IsInvalid (ErrorResponseDecoder res) = false
       /\ if ErrorResponse.ErrorContextCount (ErrorResponseDecoder res) =? 0
          then data = [ErrorResponse.ErrorData (ErrorResponseDecoder res)]
          else length data
               = Z.to_nat (ErrorResponse.ErrorContextCount (ErrorResponseDecoder res)).
Proof.
  unfold acceptError.
  destruct (ErrorResponse.IsInvalid (ErrorResponseDecoder res)); [left; eauto|].
  destruct (ErrorResponse.ErrorContextCount (ErrorResponseDecoder res) =? 0) eqn:Hc; simpl.
  - right. eexists. repeat split.
  - destruct (errorContexts _ _) as [data|] eqn:He; [|left; eauto].
    right. exists data. repeat split. eapply errorContexts_length. exact He.
Qed.

End Accept.

(** ** [tryVerify] on signed and on unsigned packets *)

Section Verify.
Context {account : Type} {K : Constants} {Cry : SessionCrypto}.
Import Conn.

(** X5: a packet with the signed flag and a message id other than
    0xFFFFFFFFFFFFFFFF passes [tryVerify] exactly when the connection has a
    session, the packet names that session's id, and the session's
    [verify] accepts the packet; whether the connection requires signing
    plays no part. *)
Theorem tryVerify_signed pkt isEncrypted (c : conn account) id flags sid :
  PacketCodec.MessageId pkt = Ret id ->
  id <> 0xFFFFFFFFFFFFFFFF ->
  PacketCodec.Flags pkt = Ret flags ->
  Z.land flags SMB2_FLAGS_SIGNED <> 0 ->
  PacketCodec.SessionId pkt = Ret sid ->
  (tryVerify pkt isEncrypted c = Ret None
   <-> exists s, session c = Some s /\ sessionId s = sid /\ verify s pkt = true)
  /\ exists r, tryVerify pkt isEncrypted c = Ret r.
Proof.
  intros Hid Hne Hflags Hsigned Hsid. unfold tryVerify. rewrite Hid. simpl.
  destruct (Z.eqb_spec id 0xFFFFFFFFFFFFFFFF) as [E|_]; [contradiction|]. simpl.
  rewrite Hflags. simpl.
  destruct (Z.eqb_spec (Z.land flags SMB2_FLAGS_SIGNED) 0) as [E|_]; [contradiction|].
  simpl. destruct (session c) as [s|].
  - rewrite Hsid. simpl. destruct (Z.eqb_spec (sessionId s) sid) as [E|E]; simpl.
    + destruct (verify s pkt) eqn:Hv; simpl; (split; [|eauto]).
      * split; [intros _; exists s; auto | reflexivity].
      * split; [discriminate|]. intros (s' & [= <-] & _ & Hv'). congruence.
    + split; [|eauto]. split; [discriminate|].
      intros (s' & [= <-] & E' & _). contradiction.
  - split; [|eauto]. split; [discriminate|]. intros (s' & Hs & _). discriminate.
Qed.

(** X6: an unsigned packet with a message id other than 0xFFFFFFFFFFFFFFFF
    is refused, as "signing required", exactly when the connection requires
    signing, the packet did not come encrypted, and the connection has a
    session that is neither guest nor null and whose id the packet names;
    in every other case it passes. *)
Theorem tryVerify_unsigned pkt isEncrypted (c : conn account) id flags sid :
  PacketCodec.MessageId pkt = Ret id ->
  id <> 0xFFFFFFFFFFFFFFFF ->
  PacketCodec.Flags pkt = Ret flags ->
  Z.land flags SMB2_FLAGS_SIGNED = 0 ->
  PacketCodec.SessionId pkt = Ret sid ->
  (tryVerify pkt isEncrypted c = Ret (Some (InvalidResponseError "signing required"))
   \/ tryVerify pkt isEncrypted c = Ret None)
  /\ (tryVerify pkt isEncrypted c = Ret (Some (InvalidResponseError "signing required"))
      <-> requireSigning c = true /\ isEncrypted = false
          /\ exists s, session c = Some s
                       /\ Z.land (sessionFlags s)
                            (Z.lor SMB2_SESSION_FLAG_IS_GUEST SMB2_SESSION_FLAG_IS_NULL) = 0
                       /\ sessionId s = sid).
Proof.
  intros Hid Hne Hflags Hunsigned Hsid. unfold tryVerify. rewrite Hid. simpl.
  destruct (Z.eqb_spec id 0xFFFFFFFFFFFFFFFF) as [E|_]; [contradiction|]. simpl.
  rewrite Hflags. simpl. rewrite Hunsigned. simpl.
  destruct (requireSigning c); simpl.
  2:{ split; [now right|]. split; [discriminate|]. intros (H & _). discriminate. }
  destruct isEncrypted; simpl.
  { split; [now right|]. split; [discriminate|]. intros (_ & H & _). discriminate. }
  destruct (session c) as [s|].
  2:{ split; [now right|]. split; [discriminate|].
      intros (_ & _ & s & Hs & _). discriminate. }
  destruct (Z.eqb_spec (Z.land (sessionFlags s)
              (Z.lor SMB2_SESSION_FLAG_IS_GUEST SMB2_SESSION_FLAG_IS_NULL)) 0) as [Hg|Hg].
  2:{ split; [now right|]. split; [discriminate|].
      intros (_ & _ & s' & [= <-] & Hg' & _). contradiction. }
  rewrite Hsid. simpl. destruct (Z.eqb_spec (sessionId s) sid) as [E|E].
  - split; [now left|]. split; [|reflexivity].
    intros _. repeat split. exists s. auto.
  - split; [now right|]. split; [discriminate|].
    intros (_ & _ & s' & [= <-] & _ & E'). contradiction.
Qed.

End Verify.

(** ** Dispatch and the caller's receive *)

Section Dispatch.
Context {account : Type} {Acct : Account account} {K : Constants}.
Import GoSlice Conn.

(** X7: a reply without error and with a status other than STATUS_PENDING,
    for a request whose record waits in the table with an open, empty
    channel, is delivered: [tryHandle] takes the record out of the table
    and charges the account, and the caller's [recv] then returns exactly
    the reply packet. *)
Theorem tryHandle_then_recv pkt (c : conn account) id l rr status granted :
  PacketCodec.MessageId pkt = Ret id ->
  requests c !! id = Some l ->
  records c !! l = Some rr ->
  RR.recv rr = Chan.make ->
  RR.err rr = None ->
  PacketCodec.Status pkt = Ret status ->
  status <> STATUS_PENDING ->
  PacketCodec.CreditResponse pkt = Ret granted ->
  exists c1 c2,
    tryHandle pkt None c = Ret (c1, None)
    /\ requests c1 = delete id (requests c)
    /\ recv l None c1 = Ret (c2, inl pkt)
    /\ acct c2 = charge granted (RR.creditRequest rr) (acct c)
    /\ requests c2 = delete id (requests c).
Proof.
  intros Hid Hl Hrr Hch Herr Hst Hnp Hcr.
  unfold tryHandle. rewrite Hid. simpl. unfold pop. rewrite Hl.
  unfold deref. simpl. rewrite Hrr. simpl. rewrite Hst. simpl.
  destruct (Z.eqb_spec status STATUS_PENDING) as [E|_]; [contradiction|].
  rewrite Hcr. simpl. rewrite Hch. simpl.
  eexists _, _. split; [reflexivity|]. split; [reflexivity|].
  unfold recv, deref. simpl. rewrite lookup_insert_eq. simpl. rewrite Herr.
  split; [reflexivity|]. split; reflexivity.
Qed.



(** X9: an interim reply with STATUS_PENDING keeps the request waiting: the
    record stays in the table under its message id with the reply's async
    id, and the account is charged; the final reply is then delivered to
    the same record, and the account is charged a second time against the
    same credit request. *)
Theorem tryHandle_pending_then_final pkt1 pkt2 (c : conn account) id l rr
    aid granted1 status2 granted2 :
  PacketCodec.MessageId pkt1 = Ret id ->
  requests c !! id = Some l ->
  records c !! l = Some rr ->
  RR.recv rr = Chan.make ->
  PacketCodec.Status pkt1 = Ret STATUS_PENDING ->
  PacketCodec.AsyncId pkt1 = Ret aid ->
  PacketCodec.CreditResponse pkt1 = Ret granted1 ->
  PacketCodec.MessageId pkt2 = Ret id ->
  PacketCodec.Status pkt2 = Ret status2 ->
  status2 <> STATUS_PENDING ->
  PacketCodec.CreditResponse pkt2 = Ret granted2 ->
  exists c1 c2,
    tryHandle pkt1 None c = Ret (c1, None)
    /\ requests c1 = requests c
    /\ (RR.asyncId <$> records c1 !! l) = Some aid
    /\ tryHandle pkt2 None c1 = Ret (c2, None)
    /\ requests c2 = delete id (requests c)
    /\ (RR.recv <$> records c2 !! l) = Some (Chan.mk (Some pkt2) false)
    /\ (RR.asyncId <$> records c2 !! l) = Some aid
    /\ acct c2 = charge granted2 (RR.creditRequest rr)
                   (charge granted1 (RR.creditRequest rr) (acct c)).
Proof.
  intros Hid1 Hl Hrr Hch Hst1 Haid Hcr1 Hid2 Hst2 Hnp Hcr2.
  assert (Hstep1 : tryHandle pkt1 None c
                   = Ret (set id l (store l (RR.with_asyncId aid rr)
                            (set_acct (charge granted1 (RR.creditRequest rr) (acct c))
                               (set_requests (delete id (requests c)) c))), None)).
  { unfold tryHandle. rewrite Hid1. simpl. unfold pop. rewrite Hl.
    unfold deref. simpl. rewrite Hrr. simpl. rewrite Hst1. simpl.
    rewrite Z.eqb_refl. rewrite Haid. simpl. rewrite Hcr1. reflexivity. }
  eexists _, _. split; [exact Hstep1|].
  split; [simpl; rewrite insert_delete_eq; now apply insert_id|].
  split; [simpl; rewrite lookup_insert_eq; reflexivity|].
  unfold tryHandle. rewrite Hid2. simpl. unfold pop. simpl.
  rewrite lookup_insert_eq. unfold deref. simpl. rewrite lookup_insert_eq. simpl.
  rewrite Hst2. simpl.
  destruct (Z.eqb_spec status2 STATUS_PENDING) as [E|_]; [contradiction|].
  rewrite Hcr2. simpl. rewrite Hch. simpl.
  split; [reflexivity|]. simpl.
  split; [rewrite delete_insert_eq, delete_delete_eq; reflexivity
         |rewrite !lookup_insert_eq; repeat split].
Qed.

(** X10: a caller whose context fires in [recv] gets a context error and
    its record leaves the table; a reply that arrives late for its message
    id is then turned away as "unknown message id returned" and changes
    nothing. *)
Theorem recv_cancelled_then_late_reply l cause (c : conn account) rr pkt e :
  records c !! l = Some rr ->
  PacketCodec.MessageId pkt = Ret (RR.msgId rr) ->
  exists c1,
    recv l (Some cause) c = Ret (c1, inr (ContextError cause))
    /\ requests c1 = delete (RR.msgId rr) (requests c)
    /\ acct c1 = acct c
    /\ tryHandle pkt e c1
       = Ret (c1, Some (InvalidResponseError "unknown message id returned")).
Proof.
  intros Hrr Hid. unfold recv, deref. rewrite Hrr. simpl.
  eexists. split; [reflexivity|].
  assert (Hreq : requests (pop (RR.msgId rr) c).2 = delete (RR.msgId rr) (requests c)).
  { unfold pop. destruct (requests c !! RR.msgId rr) eqn:E; simpl; [reflexivity|].
    symmetry. now apply delete_id. }
  split; [exact Hreq|]. split.
  - unfold pop. destruct (requests c !! RR.msgId rr); reflexivity.
  - unfold tryHandle. rewrite Hid. simpl. unfold pop at 1.
    rewrite Hreq, lookup_delete_eq. reflexivity.
Qed.

End Dispatch.

(** ** Sends that fail, and the end of the receiver *)

Section Failures.
Context {account : Type} {Acct : Account account} {K : Constants} {Cdc : Codec}
  {Cry : SessionCrypto}.
Import GoSlice Conn.

(** X11: a send of a request other than a cancel that passes the checks at
    the entry of [sendWith] and then fails (in encryption, in the write, or
    by the caller's context) has used up its message id all the same: the
    sequence window has moved on by the credit charge, and when no entry
    stood under the id before, the table is as it was before the call. *)
Theorem sendWith_failure_consumes_id req tc env (c c' : conn account) e :
  err c = None ->
  doneAtEntry env = None ->
  isCancel (body req) = false ->
  sendWith req tc env c = Ret (c', inr e) ->
  sequenceWindow c' = uint64 (sequenceWindow c + CreditCharge (Header req))
  /\ err c' = None
  /\ (requests c !! sequenceWindow c = None -> requests c' = requests c).
Proof.
  intros Herr Hdone Hnc. unfold sendWith. rewrite Herr, Hdone.
  destruct (makeRequestResponse_spec req tc c) as (id & hdr & c1 & Ha & Hw & He & Hr).
  destruct (assignMessageId_other req c Hnc) as (hdr' & a & Ha').
  rewrite Ha' in Ha. injection Ha as <- <- <-. simpl in Hw.
  destruct (makeRequestResponse req tc c) as [c2 r]. simpl in Hw, He, Hr.
  destruct r as [l|e0].
  - destruct Hr as (_ & Hreq & rr & Hrr & Hid & _).
    unfold deref. rewrite Hrr. simpl. rewrite Hid.
    assert (Hpop : sequenceWindow (pop (sequenceWindow c) c2).2 = sequenceWindow c2
                   /\ err (pop (sequenceWindow c) c2).2 = err c2
                   /\ requests (pop (sequenceWindow c) c2).2
                      = delete (sequenceWindow c) (requests c)).
    { unfold pop. rewrite Hreq, lookup_insert_eq. simpl.
      rewrite delete_insert_eq. repeat split. }
    destruct Hpop as (Hp1 & Hp2 & Hp3).
    destruct (onWire env); intros [= <- _];
      (split; [congruence|]); (split; [congruence|]);
      intros Hfree; rewrite Hp3; now apply delete_id.
  - intros [= <- _]. split; [exact Hw|]. split; [congruence|].
    intros _. rewrite Hr. reflexivity.
Qed.

(** X12: when the receiver ends on a failed read, the error (wrapped as
    "session closed" when the connection was being closed) reaches every
    caller: [recv] on every record that was outstanding returns it, and
    every later [sendWith] returns it at once and leaves the connection as
    it is. *)
Theorem receiverExit_propagates cause closing (c : conn account) :
  tableOk c ->
  exists c',
    receiverExit cause closing c = Ret c'
    /\ err c' = Some (if closing then SessionClosed (TransportError cause)
                      else TransportError cause)
    /\ (forall req tc env, sendWith req tc env c' = Ret (c', inr
          (if closing then SessionClosed (TransportError cause)
           else TransportError cause)))
    /\ forall id l, requests c !! id = Some l ->
         exists c'', recv l None c' = Ret (c'', inr
           (if closing then SessionClosed (TransportError cause)
            else TransportError cause)).
Proof.
  intros [Hinj Hopen]. unfold receiverExit, shutdown.
  set (e := if closing then SessionClosed (TransportError cause) else TransportError cause).
  destruct (shutdown_all_spec e (map_to_list (requests c)).*2 c)
    as (c0 & Hrun & Hreq & _ & _ & _ & _ & Hin).
  { now apply table_pointers_NoDup. }
  { intros l Hl. apply list_elem_of_fmap in Hl as ([i l'] & -> & Hil).
    apply elem_of_map_to_list in Hil. eapply Hopen; exact Hil. }
  exists (set_err (Some e) c0). rewrite Hrun. simpl.
  split; [reflexivity|]. split; [reflexivity|]. split.
  - intros req tc env. reflexivity.
  - intros id l Hl. destruct (Hopen id l Hl) as (rr & Hrr & _).
    assert (Hrr' : records c0 !! l = Some (RR.shut e rr)).
    { apply Hin; [|exact Hrr]. apply list_elem_of_fmap. exists (id, l).
      split; [reflexivity|]. now apply elem_of_map_to_list. }
    unfold recv, deref. simpl. rewrite Hrr'. simpl.
    destruct (Chan.buf (RR.recv rr)); eexists; reflexivity.
Qed.

End Failures.

(** ** The compound loop, continued *)

Section CompoundMore.
Import GoSlice Conn.

(** X13: whenever the compound loop gets through a frame, the ranges of the
    elements it handed on, in order, make up the range of the frame: no
    byte of the frame is left out and none is in two elements. *)
Theorem splitCompound_covers_frame fuel : forall pkt seen els,
  splitCompound Examples.listElements fuel pkt seen = Some (Ret els) ->
  concat (elems <$> els) = concat (elems <$> seen) ++ elems pkt.
Proof.
  induction fuel as [|fuel IH]; intros pkt seen els; [discriminate|].
  simpl. destruct (PacketCodec.NextCommand pkt) as [off| |]; try discriminate.
  destruct (negb (off =? 0)).
  - unfold slice_to, slice_from.
    destruct (Nat.leb_spec (Z.to_nat off) (cap pkt)) as [Hc|Hc]; simpl; try discriminate.
    destruct (Nat.leb_spec (Z.to_nat off) (len pkt)) as [Hl|Hl]; simpl; try discriminate.
    intros Hrun. apply IH in Hrun. rewrite Hrun.
    rewrite fmap_app, concat_app. simpl. rewrite app_nil_r, <- app_assoc. f_equal.
    unfold elems. simpl. rewrite take_take_drop. f_equal. lia.
  - simpl. intros [= <-]. rewrite fmap_app, concat_app. simpl.
    rewrite app_nil_r. reflexivity.
Qed.

End CompoundMore.

Section CompoundLeak.
Context {account : Type} {Acct : Account account} {K : Constants} {Cry : SessionCrypto}.
Import GoSlice Conn.

(** X14: while the receiver does not use the session, the error of one
    element of a compound chain is passed on to the next: when the first of
    two elements names a message id that is not outstanding, the request
    that the second element answers is failed with "unknown message id
    returned" (its channel closed, its record out of the table), and the
    account is not charged for it. *)
Theorem handleFrame_error_passes_on pkt (c : conn account) off head next id1 id2 l rr :
  PacketCodec.NextCommand pkt = Ret off ->
  off <> 0 ->
  slice_to pkt (Z.to_nat off) = Some head ->
  slice_from pkt (Z.to_nat off) = Some next ->
  PacketCodec.MessageId head = Ret id1 ->
  requests c !! id1 = None ->
  PacketCodec.NextCommand next = Ret 0 ->
  PacketCodec.MessageId next = Ret id2 ->
  requests c !! id2 = Some l ->
  records c !! l = Some rr ->
  Chan.closed (RR.recv rr) = false ->
  handleFrame false false pkt c
  = Ret (store l (RR.shut (InvalidResponseError "unknown message id returned") rr)
           (set_requests (delete id2 (requests c)) c), None).
Proof.
  intros Hoff Hnz Hhead Hnext Hid1 Hnone Hoff2 Hid2 Hl Hrr Hopen.
  unfold handleFrame.
  destruct (field_Ret_cap _ _ _ _ Hoff) as [Hcap _].
  destruct (cap pkt) as [|k] eqn:Hk; [lia|].
  cbn [splitCompound]. rewrite Hoff.
  destruct (Z.eqb_spec off 0) as [E|_]; [contradiction|]. cbn [negb].
  rewrite Hhead, Hnext. cbn [of_option mbind result_bind].
  unfold handleElement at 1. cbn [mbind result_bind].
  rewrite (tryHandle_unknown head None c id1 Hid1 Hnone).
  destruct k as [|k]; [lia|].
  cbn [splitCompound]. rewrite Hoff2. cbn [negb Z.eqb].
  unfold handleElement. cbn [mbind result_bind].
  rewrite (tryHandle_error next _ c id2 l rr Hid2 Hl Hrr Hopen). reflexivity.
Qed.

End CompoundLeak.

(** ** The receiver with a session *)

Section ReceiverFrames.
Context {account : Type} {Acct : Account account} {K : Constants} {Cdc : Codec}
  {Cry : SessionCrypto} {Dec : Decoders} {Frm : FrameCodec}.
Import GoSlice Conn Receiver.

(** What [tryDecrypt] lets through. *)
Lemma tryDecrypt_inv pkt (c : conn account) clear enc :
  tryDecrypt pkt c = (clear, None, enc) ->
  (PacketIsInvalid pkt = false /\ clear = pkt /\ enc = false)
  \/ (PacketIsInvalid pkt = true /\ enc = true
      /\ TransformIsInvalid pkt = false /\ TransformFlags pkt = Encrypted
      /\ exists s, session c = Some s /\ sessionId s = TransformSessionId pkt
                   /\ decrypt s pkt = inl clear).
Proof.
  unfold tryDecrypt.
  destruct (PacketIsInvalid pkt); [|intros [= <- <-]; left; repeat split].
  destruct (TransformIsInvalid pkt); [discriminate|].
  destruct (Z.eqb_spec (TransformFlags pkt) Encrypted) as [Hf|Hf]; simpl; [|discriminate].
  destruct (session c) as [s|]; [|discriminate].
  destruct (Z.eqb_spec (sessionId s) (TransformSessionId pkt)) as [Hs|Hs]; simpl;
    [|discriminate].
  destruct (decrypt s pkt) as [pkt'|msg] eqn:Hd; [|discriminate].
  intros [= <- <-]. right. repeat split; try assumption. exists s. repeat split; assumption.
Qed.

(** X15: with a session, the receiver hands a frame to the handlers only
    when the frame is a well-formed packet in the clear, or a TRANSFORM
    frame with the flag Encrypted and the session's id that the session
    decrypts; and the packet handed on, as read or as decrypted, carries
    the session's id in its header. *)
Theorem receiveFrame_handled pkt (c c' : conn account) last s :
  session c = Some s ->
  receiveFrame true pkt c = Ret (c', Handled last) ->
  exists clear enc,
    (if PacketIsInvalid pkt
     then enc = true /\ TransformIsInvalid pkt = false
          /\ TransformFlags pkt = Encrypted
          /\ TransformSessionId pkt = sessionId s
          /\ decrypt s pkt = inl clear
     else enc = false /\ clear = pkt)
    /\ PacketCodec.SessionId clear = Ret (sessionId s)
    /\ handleFrame true enc clear c = Ret (c', last).
Proof.
  intros Hs. unfold receiveFrame.
  destruct (tryDecrypt pkt c) as [[clear e] enc] eqn:Hdec.
  destruct e as [e|]; [discriminate|].
  unfold sessionCheck. rewrite Hs.
  destruct (PacketCodec.SessionId clear) as [sid| |] eqn:Hsid; simpl; try discriminate.
  destruct (Z.eqb_spec (sessionId s) sid) as [Heq|Hne]; simpl; [|discriminate].
  intros Hrun. exists clear, enc. split; [|split].
  - destruct (tryDecrypt_inv _ _ _ _ Hdec)
      as [(Hv & -> & ->)|(Hv & -> & Ht & Hf & s' & Hs' & Hid & Hd)]; rewrite Hv.
    + split; reflexivity.
    + rewrite Hs in Hs'. injection Hs' as <-. repeat split; auto.
  - now rewrite Heq.
  - destruct (PacketTreeId clear) as [tid| |]; simpl in Hrun; try discriminate.
    destruct (treeConnTables s !! tid) as [tc|]; simpl in Hrun.
    + destruct (negb (treeId tc =? tid)); simpl in Hrun; [discriminate|].
      destruct (handleFrame true enc clear c) as [[c1 l1]| |]; simpl in Hrun;
        try discriminate.
      now injection Hrun as <- <-.
    + destruct (handleFrame true enc clear c) as [[c1 l1]| |]; simpl in Hrun;
        try discriminate.
      now injection Hrun as <- <-.
Qed.

(** X16: a frame that the receiver skips changes nothing of the
    connection: no request is answered or failed and no credit is charged.
    Frames are skipped only when the session is in use, and always with an
    [InvalidResponseError]. *)
Theorem receiveFrame_skipped hasSession pkt (c c' : conn account) e :
  receiveFrame hasSession pkt c = Ret (c', Skipped e) ->
  c' = c /\ hasSession = true /\ exists msg, e = InvalidResponseError msg.
Proof.
  unfold receiveFrame. destruct hasSession.
  2:{ destruct (handleFrame false false pkt c) as [[c1 l1]| |]; simpl; discriminate. }
  assert (Hdec : forall p e0 b, tryDecrypt pkt c = (p, Some e0, b) ->
                   exists msg, e0 = InvalidResponseError msg).
  { unfold tryDecrypt. intros p e0 b.
    repeat match goal with
           | |- context [if ?x then _ else _] => destruct x
           | |- context [match ?x with _ => _ end] => destruct x
           end; intros [= <- <- <-] || discriminate; eauto. }
  destruct (tryDecrypt pkt c) as [[clear e0] enc].
  destruct e0 as [e0|].
  { intros [= <- <-]. split; [reflexivity|]. split; [reflexivity|]. eapply Hdec. reflexivity. }
  assert (Hchk : forall e1, sessionCheck clear c = Ret (Some e1) ->
                   exists msg, e1 = InvalidResponseError msg).
  { unfold sessionCheck. intros e1.
    destruct (session c) as [s|]; [|discriminate].
    destruct (PacketCodec.SessionId clear) as [sid| |]; simpl; try discriminate.
    destruct (negb (sessionId s =? sid)); [intros [= <-]; eauto|].
    destruct (PacketTreeId clear) as [tid| |]; simpl; try discriminate.
    destruct (treeConnTables s !! tid) as [tc|]; [|discriminate].
    destruct (negb (treeId tc =? tid)); [intros [= <-]; eauto | discriminate]. }
  destruct (sessionCheck clear c) as [[e1|]| |]; simpl; try discriminate.
  - intros [= <- <-]. split; [reflexivity|]. split; [reflexivity|]. now apply Hchk.
  - destruct (handleFrame true enc clear c) as [[c1 l1]| |]; simpl; discriminate.
Qed.

End ReceiverFrames.

(** ** The table while the receiver runs *)

Section TableReady.
Context {account : Type} {Acct : Account account} {K : Constants} {Cdc : Codec}
  {Cry : SessionCrypto} {Dec : Decoders} {Frm : FrameCodec}.
Import GoSlice Conn Receiver.

Lemma tableReady_same (c c' : conn account) :
  requests c' = requests c -> records c' = records c -> tableReady c -> tableReady c'.
Proof. unfold tableReady. intros -> ->. auto. Qed.

Lemma tableReady_tableOk (c : conn account) : tableReady c -> tableOk c.
Proof.
  intros [Hinj Hrec]. split; [exact Hinj|].
  intros i l Hi. destruct (Hrec i l Hi) as (rr & Hrr & Hopen & _). eauto.
Qed.

Lemma tableReady_newConn (a : account) : tableReady (newConn a).
Proof.
  split.
  - intros i j l Hi. simpl in Hi. rewrite lookup_empty in Hi. discriminate.
  - intros i l Hi. simpl in Hi. rewrite lookup_empty in Hi. discriminate.
Qed.

Lemma tableReady_pop id (c : conn account) : tableReady c -> tableReady (pop id c).2.
Proof.
  intros [Hinj Hrec]. unfold pop.
  destruct (requests c !! id) as [l|]; simpl; [|split; assumption].
  split; simpl.
  - intros i j l' Hi Hj. apply lookup_delete_Some in Hi as [_ Hi].
    apply lookup_delete_Some in Hj as [_ Hj]. eauto.
  - intros i l' Hi. apply lookup_delete_Some in Hi as [_ Hi]. eauto.
Qed.

(** A record that is not in the table can be written freely. *)
Lemma tableReady_store_untabled l rr (c : conn account) :
  tableReady c -> (forall i, requests c !! i <> Some l) -> tableReady (store l rr c).
Proof.
  intros [Hinj Hrec] Hun. split; simpl; [exact Hinj|].
  intros i l' Hi. destruct (Hrec i l' Hi) as (rr' & Hrr' & Hidle).
  exists rr'. split; [|exact Hidle].
  rewrite lookup_insert_ne; [exact Hrr'|]. intros ->. exact (Hun i Hi).
Qed.

(** A record with an open, empty channel that is not in the table can be
    entered under any message id. *)
Lemma tableReady_set id l rr (c : conn account) :
  tableReady c -> (forall i, requests c !! i <> Some l) ->
  records c !! l = Some rr ->
  Chan.closed (RR.recv rr) = false -> Chan.buf (RR.recv rr) = None ->
  tableReady (set id l c).
Proof.
  intros [Hinj Hrec] Hun Hrr Hopen Hbuf. split; simpl.
  - intros i j l' Hi Hj.
    apply lookup_insert_Some in Hi as [[<- <-]|[Hi1 Hi2]];
      apply lookup_insert_Some in Hj as [[<- Hl]|[Hj1 Hj2]]; try reflexivity; subst.
    + exfalso. exact (Hun _ Hj2).
    + exfalso. exact (Hun _ Hi2).
    + eauto.
  - intros i l' Hi. apply lookup_insert_Some in Hi as [[<- <-]|[_ Hi]]; eauto.
Qed.

Lemma tableReady_untabled_after_pop id l (c : conn account) :
  tableReady c -> requests c !! id = Some l ->
  forall i, requests (pop id c).2 !! i <> Some l.
Proof.
  intros [Hinj _] Hl i. unfold pop. rewrite Hl. simpl. intros Hi.
  apply lookup_delete_Some in Hi as [Hne Hi]. apply Hne. eauto.
Qed.

Lemma tableReady_makeRequestResponse req tc (c : conn account) :
  tableReady c -> tableReady (makeRequestResponse req tc c).1.
Proof.
  intros Hok. unfold makeRequestResponse.
  assert (H1 : tableReady (assignMessageId req c).2).
  { unfold assignMessageId. destruct (isCancel (body req)); [exact Hok|].
    simpl. destruct (opening (acct c)) as [o a]. simpl.
    eapply tableReady_same; [| |exact Hok]; reflexivity. }
  destruct (assignMessageId req c) as [[id hdr] c1]. simpl in H1.
  destruct (protect _ _ _ _) as [pkt|e]; simpl; [|exact H1].
  assert (Hfresh : records c1 !! fresh (dom (records c1)) = None)
    by (apply not_elem_of_dom, is_fresh).
  assert (Hun : forall i, requests c1 !! i <> Some (fresh (dom (records c1)))).
  { intros i Hi. destruct H1 as [_ Hrec]. destruct (Hrec i _ Hi) as (rr & Hrr & _).
    congruence. }
  eapply tableReady_set.
  - apply tableReady_store_untabled; [exact H1 | exact Hun].
  - exact Hun.
  - simpl. apply lookup_insert_eq.
  - reflexivity.
  - reflexivity.
Qed.

Lemma tableReady_sendWith req tc env (c c' : conn account) r :
  tableReady c -> sendWith req tc env c = Ret (c', r) -> tableReady c'.
Proof.
  intros Hok. unfold sendWith. destruct (err c); [intros [= <- _]; exact Hok|].
  destruct (doneAtEntry env); [intros [= <- _]; exact Hok|].
  pose proof (tableReady_makeRequestResponse req tc c Hok) as H.
  destruct (makeRequestResponse req tc c) as [c1 [l|e]]; simpl in H.
  - destruct (deref c1 l) as [rr| |]; simpl; try discriminate.
    destruct (onWire env); intros [= <- _]; try exact H; now apply tableReady_pop.
  - intros [= <- _]. exact H.
Qed.

Lemma tableReady_tryHandle pkt e (c c' : conn account) r :
  tableReady c -> tryHandle pkt e c = Ret (c', r) -> tableReady c'.
Proof.
  intros Hok. unfold tryHandle.
  destruct (PacketCodec.MessageId pkt) as [id| |]; simpl; try discriminate.
  pose proof (tableReady_pop id c Hok) as Hpop.
  pose proof (tableReady_untabled_after_pop id) as Hun.
  specialize (fun l => Hun l c Hok).
  unfold pop in *. destruct (requests c !! id) as [l|] eqn:Hl; simpl in *;
    [|intros [= <- _]; exact Hok].
  specialize (Hun l eq_refl).
  set (c0 := set_requests (delete id (requests c)) c) in *.
  unfold deref. destruct (records c0 !! l) as [rr|] eqn:Hrr; simpl; try discriminate.
  destruct e as [e|].
  - destruct (Chan.close (RR.recv rr)) as [ch| |]; simpl; try discriminate.
    intros [= <- _]. now apply tableReady_store_untabled.
  - destruct (PacketCodec.Status pkt) as [status| |]; simpl; try discriminate.
    destruct (status =? STATUS_PENDING).
    + destruct (PacketCodec.AsyncId pkt) as [aid| |]; simpl; try discriminate.
      destruct (PacketCodec.CreditResponse pkt) as [granted| |]; simpl; try discriminate.
      intros [= <- _].
      destruct Hok as [Hinj Hrec]. destruct (Hrec id l Hl) as (rr0 & Hrr0 & Hopen & Hbuf).
      assert (rr0 = rr) as -> by (subst c0; simpl in Hrr; congruence).
      eapply (tableReady_set id l (RR.with_asyncId aid rr)).
      * apply tableReady_store_untabled; [|exact Hun].
        eapply tableReady_same; [| |exact Hpop]; reflexivity.
      * exact Hun.
      * simpl. apply lookup_insert_eq.
      * exact Hopen.
      * exact Hbuf.
    + destruct (PacketCodec.CreditResponse pkt) as [granted| |]; simpl; try discriminate.
      destruct (Chan.send (RR.recv rr) pkt) as [ch| |]; simpl; try discriminate.
      intros [= <- _]. apply tableReady_store_untabled; [|exact Hun].
      eapply tableReady_same; [| |exact Hpop]; reflexivity.
Qed.

Lemma tableReady_handleFrame hasSession isEncrypted pkt (c c' : conn account) r :
  tableReady c -> handleFrame hasSession isEncrypted pkt c = Ret (c', r) -> tableReady c'.
Proof.
  intros Hok. unfold handleFrame.
  destruct (splitCompound _ _ _ _) as [[st'| |]|] eqn:H; try discriminate.
  intros [= ->].
  refine (splitCompound_invariant (handleElement hasSession isEncrypted)
            (fun a b => tableReady a.1 -> tableReady b.1) _ _ _ _ _ _ _ H Hok).
  - intros st Hst. exact Hst.
  - intros a b d Hab Hbd Ha. auto.
  - intros p [c0 e0] [c1 e1]. unfold handleElement. simpl. intros Hrun Hc0.
    destruct hasSession.
    + destruct (tryVerify p isEncrypted c0) as [e| |]; simpl in Hrun; try discriminate.
      eapply tableReady_tryHandle; eassumption.
    + simpl in Hrun. eapply tableReady_tryHandle; eassumption.
Qed.

(** What a turn of the receiver on a frame keeps of the connection. *)
Lemma receiveFrame_invariant (P : conn account -> conn account -> Prop) :
  (forall c, P c c) ->
  (forall h enc pkt c c' r, handleFrame h enc pkt c = Ret (c', r) -> P c c') ->
  forall hasSession pkt c c' o,
    receiveFrame hasSession pkt c = Ret (c', o) -> P c c'.
Proof.
  intros Hrefl Hstep hasSession pkt c c' o. unfold receiveFrame.
  destruct hasSession.
  - destruct (tryDecrypt pkt c) as [[clear e] enc].
    destruct e as [e|]; [intros [= <- _]; apply Hrefl|].
    destruct (sessionCheck clear c) as [[e1|]| |]; simpl; try discriminate.
    + intros [= <- _]. apply Hrefl.
    + destruct (handleFrame true enc clear c) as [[c1 l1]| |] eqn:Hh; simpl;
        try discriminate.
      intros [= <- _]. eapply Hstep. exact Hh.
  - destruct (handleFrame false false pkt c) as [[c1 l1]| |] eqn:Hh; simpl;
      try discriminate.
    intros [= <- _]. eapply Hstep. exact Hh.
Qed.

Lemma tableReady_recv l ctxDone (c c' : conn account) r :
  tableReady c -> recv l ctxDone c = Ret (c', r) -> tableReady c'.
Proof.
  intros Hok. unfold recv, deref.
  destruct (records c !! l) as [rr|] eqn:Hrr; simpl; try discriminate.
  destruct ctxDone; [intros [= <- _]; now apply tableReady_pop|].
  destruct (Chan.buf (RR.recv rr)) eqn:Hbuf.
  - assert (He : tableReady (store l (RR.with_recv (Chan.mk None (Chan.closed (RR.recv rr))) rr) c)).
    { apply tableReady_store_untabled; [exact Hok|].
      intros i Hi. destruct Hok as [_ Hrec].
      destruct (Hrec i l Hi) as (rr0 & Hrr0 & _ & Hb). congruence. }
    destruct (RR.err rr); intros [= <- _]; exact He.
  - destruct (Chan.closed (RR.recv rr)); [|discriminate].
    destruct (RR.err rr); intros [= <- _]; exact Hok.
Qed.

Lemma tableReady_doSteps ss : forall c c' : conn account,
  tableReady c -> doSteps ss c = Ret c' -> tableReady c'.
Proof.
  induction ss as [|s ss IH]; intros c c' Hok; simpl; [intros [= <-]; exact Hok|].
  destruct (doStep s c) as [c1| |] eqn:Hs; simpl; try discriminate.
  intros Hrun. refine (IH c1 c' _ Hrun). clear Hrun IH.
  destruct s as [req tc env|h pkt|l done]; simpl in Hs.
  - destruct (sendWith req tc env c) as [[c2 r]| |] eqn:H; simpl in Hs; try discriminate.
    injection Hs as <-. eapply tableReady_sendWith; eassumption.
  - destruct (receiveFrame h pkt c) as [[c2 r]| |] eqn:H; simpl in Hs; try discriminate.
    injection Hs as <-.
    refine (receiveFrame_invariant (fun a b => tableReady a -> tableReady b) _ _ _ _ _ _ _ H Hok).
    + auto.
    + intros h0 enc p a b r0 Hh Ha. eapply tableReady_handleFrame; eassumption.
  - destruct (recv l done c) as [[c2 r]| |] eqn:H; simpl in Hs; try discriminate.
    injection Hs as <-. eapply tableReady_recv; eassumption.
Qed.

Lemma evolves_doSteps ss : forall c c' : conn account,
  doSteps ss c = Ret c' -> evolves c c'.
Proof.
  induction ss as [|s ss IH]; intros c c'; simpl; [intros [= <-]; apply evolves_refl|].
  destruct (doStep s c) as [c1| |] eqn:Hs; simpl; try discriminate.
  intros Hrun. eapply evolves_trans; [|apply (IH c1 c' Hrun)]. clear Hrun IH.
  destruct s as [req tc env|h pkt|l done]; simpl in Hs.
  - destruct (sendWith req tc env c) as [[c2 r]| |] eqn:H; simpl in Hs; try discriminate.
    injection Hs as <-. eapply evolves_sendWith; eassumption.
  - destruct (receiveFrame h pkt c) as [[c2 r]| |] eqn:H; simpl in Hs; try discriminate.
    injection Hs as <-.
    refine (receiveFrame_invariant evolves _ _ _ _ _ _ _ H).
    + apply evolves_refl.
    + intros h0 enc p a b r0 Hh. eapply evolves_handleFrame; eassumption.
  - destruct (recv l done c) as [[c2 r]| |] eqn:H; simpl in Hs; try discriminate.
    injection Hs as <-. eapply evolves_recv; eassumption.
Qed.

(** A header field can be read wherever the buffer has room for it. *)
Lemma field_cap_Ret p lo hi :
  (lo <= hi)%nat -> (hi <= cap p)%nat -> exists v, PacketCodec.field p lo hi = Ret v.
Proof.
  intros H1 H2. unfold PacketCodec.field, sub.
  destruct (Nat.leb_spec lo hi); [|lia].
  destruct (Nat.leb_spec hi (cap p)); [|lia]. simpl. eauto.
Qed.

(** X17: through any interleaving of sends, frames read by the receiver and
    callers' receives, the table stays well-formed: no record is entered
    under two message ids, every record entered exists with its result
    channel open and empty, the settings of the connection (session,
    dialect, sizes, signing, capabilities, hash and cipher) stay as they
    are, and every record stays where it is with its request packet. *)
Theorem doSteps_keeps_table ss (c c' : conn account) :
  tableReady c -> doSteps ss c = Ret c' ->
  tableReady c' /\ evolves c c'.
Proof.
  intros Hok Hrun. split.
  - eapply tableReady_doSteps; eassumption.
  - eapply evolves_doSteps; eassumption.
Qed.

(** X18: after any such history of a new connection, the dispatch of a
    packet whose buffer has room for the header fields it reads returns:
    it neither panics on a closed channel nor blocks on a full one,
    whatever message id the packet names and whatever error comes with
    it. *)
Theorem tryHandle_returns ss (a : account) (c : conn account) pkt e :
  doSteps ss (newConn a) = Ret c ->
  (40 <= cap pkt)%nat ->
  exists c' r, tryHandle pkt e c = Ret (c', r).
Proof.
  intros Hrun Hcap.
  pose proof (tableReady_doSteps ss _ _ (tableReady_newConn a) Hrun) as [Hinj Hrec].
  unfold tryHandle, PacketCodec.MessageId, PacketCodec.Status, PacketCodec.AsyncId,
    PacketCodec.CreditResponse.
  destruct (field_cap_Ret pkt 24 32) as [id ->]; [lia|lia|].
  destruct (field_cap_Ret pkt 8 12) as [status ->]; [lia|lia|].
  destruct (field_cap_Ret pkt 32 40) as [aid ->]; [lia|lia|].
  destruct (field_cap_Ret pkt 14 16) as [granted ->]; [lia|lia|].
  simpl. unfold pop. destruct (requests c !! id) as [l|] eqn:Hl; simpl; [|eauto].
  destruct (Hrec id l Hl) as (rr & Hrr & Hopen & Hbuf).
  unfold deref. simpl. rewrite Hrr. simpl.
  unfold Chan.close, Chan.send. rewrite Hopen, Hbuf.
  destruct e as [e|]; simpl; [eauto|].
  destruct (status =? STATUS_PENDING); simpl; eauto.
Qed.

End TableReady.

(** ** A request and its reply, end to end *)

Section RoundTrip.
Context {account : Type} {Acct : Account account} {K : Constants} {Cdc : Codec}
  {Cry : SessionCrypto} {Dec : Decoders} {Frm : FrameCodec}.
Import GoSlice Conn Receiver.

(** X19: on a healthy connection without a session, a request that goes
    out on the wire and is answered by a single reply that carries the
    message id the request was given (the sequence window of before the
    call) and a status other than STATUS_PENDING makes [sendRecv] return
    exactly what [accept] makes of that reply; afterwards the message id is
    out of the table, and the window has moved on by the credit charge of
    the request. *)
Theorem sendRecv_round_trip cmd req env (c : conn account) reply status granted res :
  err c = None ->
  session c = None ->
  isCancel (body req) = false ->
  doneAtEntry (callSending env) = None ->
  onWire (callSending env) = Written ->
  callReads env = [(false, Frame reply)] ->
  callRecvDone env = None ->
  PacketCodec.MessageId reply = Ret (sequenceWindow c) ->
  PacketCodec.NextCommand reply = Ret 0 ->
  PacketCodec.Status reply = Ret status ->
  status <> STATUS_PENDING ->
  PacketCodec.CreditResponse reply = Ret granted ->
  accept cmd reply = Ret res ->
  exists c',
    sendRecv cmd req env c = Ret (c', res)
    /\ requests c' = delete (sequenceWindow c) (requests c)
    /\ sequenceWindow c' = uint64 (sequenceWindow c + CreditCharge (Header req))
    /\ err c' = None.
Proof.
  intros Herr Hses Hcancel Hdone Hwire Hreads Hrdone Hid Hnext Hst Hnp Hcr Hacc.
  unfold sendRecv, send, sendWith. rewrite Herr, Hdone.
  unfold makeRequestResponse.
  destruct (assignMessageId_other req c Hcancel) as (hdr & a & ->).
  cbn [session set_acct set_sequenceWindow]. rewrite Hses. cbn [stampSession protect].
  cbn beta iota zeta. unfold deref.
  cbn [records set store set_requests set_records set_acct set_sequenceWindow].
  rewrite lookup_insert_eq. cbn [of_option mbind result_bind]. rewrite Hwire.
  cbn [mbind result_bind]. rewrite Hreads. cbn [runReciever receiveFrame].
  unfold handleFrame. cbn [splitCompound]. rewrite Hnext. cbn [Z.eqb negb].
  unfold handleElement, tryHandle. cbn [mbind result_bind]. rewrite Hid.
  cbn [mbind result_bind]. unfold pop.
  cbn [requests set store set_requests set_records set_acct set_sequenceWindow].
  rewrite lookup_insert_eq. unfold deref.
  cbn [records set store set_requests set_records set_acct set_sequenceWindow].
  rewrite lookup_insert_eq.
  cbn [of_option mbind result_bind]. rewrite Hst. cbn [mbind result_bind].
  destruct (Z.eqb_spec status STATUS_PENDING) as [E|_]; [contradiction|].
  rewrite Hcr. cbn [mbind result_bind RR.recv Chan.send Chan.make Chan.closed Chan.buf].
  rewrite Hrdone. unfold recv, deref.
  cbn [records set store set_requests set_records set_acct set_sequenceWindow].
  rewrite lookup_insert_eq.
  cbn [of_option mbind result_bind RR.recv RR.err RR.with_recv Chan.buf].
  rewrite Hacc. cbn [mbind result_bind].
  eexists. split; [reflexivity|]. cbn.
  split; [apply delete_insert_eq|]. split; [reflexivity | exact Herr].
Qed.

End RoundTrip.

(** ** Negotiation, continued *)

Section NegotiationMore.
Context {account : Type} {Acct : Account account} {K : Constants} {Cdc : Codec}
  {Cry : SessionCrypto} {Dec : Decoders} {Sha : Sha512} {rng : Type}
  {Ent : Entropy rng}.
Import GoSlice Conn.

(** X20: every request that [makeRequest] builds has the zero header, the
    client's capabilities and the signing mode of the negotiator; it
    carries the negotiator's GUID unless that is zero; it offers either the
    one specified dialect, which is then one of 2.0.2, 2.1, 3.0, 3.0.2 and
    3.1.1, or, when none is specified, the client's dialects; and it
    carries the hash and cipher contexts exactly when 3.1.1 is specified or
    no dialect is. *)
Theorem makeRequest_shape (n : Negotiator) (g : rng) req g' :
  makeRequest n g = (inl req, g') ->
  exists guid dialects ctxs,
    req = mkPacket (mkHeader 0 0 0 0 0)
            (NegotiateRequest
               (if RequireMessageSigning n then SMB2_NEGOTIATE_SIGNING_REQUIRED
                else SMB2_NEGOTIATE_SIGNING_ENABLED)
               clientCapabilities guid dialects ctxs)
    /\ (isZeroGuid (ClientGuid n) = false -> guid = ClientGuid n)
    /\ (if SpecifiedDialect n =? UnknownSMB then dialects = clientDialects
        else dialects = [SpecifiedDialect n]
             /\ In (SpecifiedDialect n) [SMB202; SMB210; SMB300; SMB302; SMB311])
    /\ (if (SpecifiedDialect n =? UnknownSMB) || (SpecifiedDialect n =? SMB311)
        then exists salt, ctxs = [HashContext clientHashAlgorithms salt;
                                  CipherContext clientCiphers]
        else ctxs = []).
Proof.
  unfold makeRequest.
  set (mode := if RequireMessageSigning n then _ else _).
  assert (Hguid : forall guid (g0 : rng),
            (isZeroGuid (ClientGuid n) = false -> guid = ClientGuid n) ->
            (let request dialects contexts :=
               mkPacket (mkHeader 0 0 0 0 0)
                 (NegotiateRequest mode clientCapabilities guid dialects contexts) in
             let d := SpecifiedDialect n in
             if negb (d =? UnknownSMB) then
               if (d =? SMB202) || (d =? SMB210) || (d =? SMB300) || (d =? SMB302)
               then (inl (request [d] []), g0)
               else if d =? SMB311 then
                 match offerContexts g0 with
                 | (inr e, g) => (inr e, g)
                 | (inl ctxs, g) => (inl (request [d] ctxs), g)
                 end
               else (inr (InternalError "unsupported dialect specified"), g0)
             else
               match offerContexts g0 with
               | (inr e, g) => (inr e, g)
               | (inl ctxs, g) => (inl (request clientDialects ctxs), g)
               end) = (inl req, g') ->
            exists guid dialects ctxs,
              req = mkPacket (mkHeader 0 0 0 0 0)
                      (NegotiateRequest mode clientCapabilities guid dialects ctxs)
              /\ (isZeroGuid (ClientGuid n) = false -> guid = ClientGuid n)
              /\ (if SpecifiedDialect n =? UnknownSMB then dialects = clientDialects
                  else dialects = [SpecifiedDialect n]
                       /\ In (SpecifiedDialect n) [SMB202; SMB210; SMB300; SMB302; SMB311])
              /\ (if (SpecifiedDialect n =? UnknownSMB) || (SpecifiedDialect n =? SMB311)
                  then exists salt, ctxs = [HashContext clientHashAlgorithms salt;
                                            CipherContext clientCiphers]
                  else ctxs = [])).
  { intros guid g0 Hg. cbn zeta.
    assert (Hoffer : forall ctxs g1, offerContexts g0 = (inl ctxs, g1) ->
              exists salt, ctxs = [HashContext clientHashAlgorithms salt;
                                   CipherContext clientCiphers]).
    { unfold offerContexts. intros ctxs g1.
      destruct (randRead 32 g0) as [[salt|msg] g2]; [|discriminate].
      intros [= <- _]. eauto. }
    destruct (Z.eqb_spec (SpecifiedDialect n) UnknownSMB) as [Hu|Hu]; simpl.
    - destruct (offerContexts g0) as [[ctxs|e] g1] eqn:Ho; [|discriminate].
      intros [= <- _]. exists guid, clientDialects, ctxs.
      split; [reflexivity|]. split; [exact Hg|]. split; [reflexivity|]. eapply Hoffer. reflexivity.
    - destruct (Z.eqb_spec (SpecifiedDialect n) SMB202) as [H1|H1]; simpl.
      { intros [= <- _]. exists guid, [SpecifiedDialect n], [].
        split; [reflexivity|]. split; [exact Hg|]. split; [split; [reflexivity | rewrite H1; simpl; auto]|].
        rewrite H1. reflexivity. }
      destruct (Z.eqb_spec (SpecifiedDialect n) SMB210) as [H2|H2]; simpl.
      { intros [= <- _]. exists guid, [SpecifiedDialect n], [].
        split; [reflexivity|]. split; [exact Hg|]. split; [split; [reflexivity | rewrite H2; simpl; auto]|].
        rewrite H2. reflexivity. }
      destruct (Z.eqb_spec (SpecifiedDialect n) SMB300) as [H3|H3]; simpl.
      { intros [= <- _]. exists guid, [SpecifiedDialect n], [].
        split; [reflexivity|]. split; [exact Hg|]. split; [split; [reflexivity | rewrite H3; simpl; auto]|].
        rewrite H3. reflexivity. }
      destruct (Z.eqb_spec (SpecifiedDialect n) SMB302) as [H4|H4]; simpl.
      { intros [= <- _]. exists guid, [SpecifiedDialect n], [].
        split; [reflexivity|]. split; [exact Hg|]. split; [split; [reflexivity | rewrite H4; simpl; auto]|].
        rewrite H4. reflexivity. }
      destruct (Z.eqb_spec (SpecifiedDialect n) SMB311) as [H5|H5]; simpl; [|discriminate].
      destruct (offerContexts g0) as [[ctxs|e] g1] eqn:Ho; [|discriminate].
      intros [= <- _]. exists guid, [SpecifiedDialect n], ctxs.
      split; [reflexivity|]. split; [exact Hg|].
      split; [split; [reflexivity | rewrite H5; simpl; auto 6]|]. eapply Hoffer. reflexivity. }
  destruct (isZeroGuid (ClientGuid n)) eqn:Hz.
  - destruct (randRead 16 g) as [[bytes|msg] g0]; [|discriminate].
    apply Hguid. discriminate.
  - apply Hguid. reflexivity.
Qed.

(** The loop over the contexts writes the hash and the cipher only, and a
    cipher it writes is AES-128-CCM or AES-128-GCM. *)
Lemma parseContexts_frame count : forall ctxs request reply (c c' : conn account),
  parseContexts count ctxs request reply c = inl c' ->
  session c' = session c
  /\ requireSigning c' = requireSigning c
  /\ capabilities c' = capabilities c
  /\ (cipherId c' = cipherId c \/ cipherId c' = AES128CCM \/ cipherId c' = AES128GCM).
Proof.
  induction count as [|count IH]; intros ctxs request reply c c'; simpl.
  - intros [= <-]. repeat split. left. reflexivity.
  - destruct (NegotiateContext.IsInvalid (NegotiateContextDecoder ctxs)); [discriminate|].
    unfold applyContext.
    destruct (NegotiateContext.ContextType (NegotiateContextDecoder ctxs)
              =? SMB2_PREAUTH_INTEGRITY_CAPABILITIES).
    + destruct (HashContextData.IsInvalid _); [discriminate|].
      destruct (HashContextData.HashAlgorithms _) as [|alg [|alg' algs]]; try discriminate.
      destruct (alg =? SHA512); [|discriminate].
      intros H. apply IH in H as (H1 & H2 & H3 & H4). simpl in *. repeat split; assumption.
    + destruct (NegotiateContext.ContextType (NegotiateContextDecoder ctxs)
                =? SMB2_ENCRYPTION_CAPABILITIES).
      * destruct (CipherContextData.IsInvalid _); [discriminate|].
        destruct (CipherContextData.Ciphers _) as [|ciph [|ciph' ciphs]]; try discriminate.
        destruct (Z.eqb_spec ciph AES128CCM) as [Hc|Hc];
          [|destruct (Z.eqb_spec ciph AES128GCM) as [Hg|Hg]]; simpl; try discriminate;
          intros H; apply IH in H as (H1 & H2 & H3 & H4); simpl in *;
          (split; [assumption|]); (split; [assumption|]); (split; [assumption|]);
          right; destruct H4 as [H4|[H4|H4]]; rewrite H4; auto.
      * intros H. apply IH in H as (H1 & H2 & H3 & H4). repeat split; assumption.
Qed.

Lemma agreed_settings (n : Negotiator) (c0 c c' : conn account) :
  settings c = settings c0 -> Negotiation.agreed n c c' -> Negotiation.agreed n c0 c'.
Proof.
  unfold settings, Negotiation.agreed. intros [= Hs _ _ _ _ _ _ Hid Hv Hc].
  rewrite Hs, Hid, Hv, Hc. auto.
Qed.

Lemma finish_cases (n : Negotiator) request reply (c : conn account) a :
  finish n request reply c = Ret a ->
  (exists e, a = Finished (inr e))
  \/ a = Retry (set_SpecifiedDialect SMB210 n)
  \/ exists c', a = Finished (inl c') /\ Negotiation.agreed n c c'.
Proof.
  intros Hfin.
  destruct (finish_inv _ _ _ _ _ Hfin) as [He|(payload & Hacc & _ & Hvalid)];
    [left; exact He|].
  rewrite (finish_valid n request reply c payload Hacc Hvalid) in Hfin.
  cbn zeta in Hfin.
  set (r := NegotiateResponseDecoder (elems payload)) in *.
  destruct (Z.eqb_spec (NegotiateResponse.DialectRevision r) SMB2) as [H2|H2].
  { injection Hfin as <-. right. left. reflexivity. }
  destruct (Z.eqb_spec (SpecifiedDialect n) UnknownSMB) as [Hu|Hu];
    [|destruct (Z.eqb_spec (SpecifiedDialect n) (NegotiateResponse.DialectRevision r))
        as [Hd|Hd]]; simpl in Hfin.
  3:{ injection Hfin as <-. left. eauto. }
  all: assert (Had : Negotiation.agreed n c (adopt n r c))
         by (unfold Negotiation.agreed; simpl;
             split; [reflexivity|]; split; [exact H2|]; split; [intros; congruence|];
             split; [intros ->; reflexivity|];
             split; [rewrite <- Z.land_assoc, (Z.land_comm _ clientCapabilities),
                       Z.land_assoc, Z.land_diag; reflexivity|];
             split; [reflexivity|]; split; [left; reflexivity|];
             split; [left; reflexivity|]; intros _; repeat split).
  all: destruct (Z.eqb_spec (NegotiateResponse.DialectRevision r) SMB311) as [H3|H3];
         simpl in Hfin; injection Hfin as <-;
         [|right; right; eexists; split; [reflexivity | exact Had]].
  all: destruct (parseContexts _ _ _ _ _) as [c'|e] eqn:Hp; [|left; eauto];
         right; right; exists c'; split; [reflexivity|];
         pose proof (parseContexts_hash _ _ _ _ _ _ Hp) as (_ & Hid & Hdl & Hw);
         pose proof (parseContexts_frame _ _ _ _ _ _ Hp) as (Hs & Hrs & Hcap & Hci);
         destruct Had as (A1 & A2 & A3 & A4 & A5 & A6 & A7 & A8 & A9);
         unfold Negotiation.agreed;
         rewrite Hw, Hdl, Hrs, Hcap, Hs;
         (split; [exact A1|]); (split; [exact A2|]); (split; [exact A3|]);
         (split; [exact A4|]); (split; [exact A5|]); (split; [exact A6|]);
         (split; [simpl in Hci; exact Hci|]);
         (split; [rewrite Hid; destruct (preauthCount _ _); [left; reflexivity | right; reflexivity]|]);
         intros Hne; exfalso; apply Hne; simpl; exact H3.
Qed.

Lemma negotiateFrom_agreed script : forall (n : Negotiator) (g : rng) sent done
    (c : conn account) res c',
  negotiateFrom script n g sent done c = Ret res ->
  outcome res = inl c' ->
  Negotiation.agreed (negotiator res) c c'
  /\ RequireMessageSigning (negotiator res) = RequireMessageSigning n
  /\ ClientGuid (negotiator res) = ClientGuid n.
Proof.
  induction script as [|env script IH]; intros n g sent done c res c'; [discriminate|].
  simpl.
  destruct (makeRequest n g) as [[req|e] g1]; [|intros [= <-]; discriminate].
  destruct (exchange (set_CreditCharge 1 req) env c) as [[c1 r]| |] eqn:Hex; simpl;
    try discriminate.
  apply exchange_evolves in Hex. destruct Hex as [Hset _].
  destruct r as [[request reply]|e]; [|intros [= <-]; discriminate].
  destruct (finish n request reply c1) as [a| |] eqn:Hfin; simpl; try discriminate.
  destruct (finish_cases _ _ _ _ _ Hfin) as [[e ->]|[->|(c2 & -> & Hag)]].
  - intros [= <-]. discriminate.
  - intros Hrun Hout. destruct (IH _ _ _ _ _ _ _ Hrun Hout) as (Hag & Hrm & Hcg).
    split; [eapply agreed_settings; eassumption|]. split; assumption.
  - intros [= <-]. simpl. intros [= <-].
    split; [eapply agreed_settings; eassumption|]. split; reflexivity.
Qed.

(** X21: a connection that [negotiate] returns has the sequence window 1
    and no session; its dialect is never the wildcard 0x02FF, and it is the
    dialect the negotiator specifies at the end, if it specifies one; it
    requires signing whenever the negotiator does; its capabilities are
    among the client's; its cipher is none, AES-128-CCM or AES-128-GCM and
    its hash algorithm none or SHA-512; and for any dialect other than
    3.1.1 it has no cipher, no hash algorithm and the all-zero hash
    value. *)
Theorem negotiate_connection (n : Negotiator) (a : account) (g : rng) script res
    (c : conn account) :
  negotiate n a g script = Ret res ->
  outcome res = inl c ->
  sequenceWindow c = 1
  /\ session c = None
  /\ dialect c <> SMB2
  /\ (SpecifiedDialect (negotiator res) <> UnknownSMB ->
      dialect c = SpecifiedDialect (negotiator res))
  /\ (RequireMessageSigning n = true -> requireSigning c = true)
  /\ Z.land (capabilities c) clientCapabilities = capabilities c
  /\ (cipherId c = 0 \/ cipherId c = AES128CCM \/ cipherId c = AES128GCM)
  /\ (preauthIntegrityHashId c = 0 \/ preauthIntegrityHashId c = SHA512)
  /\ (dialect c <> SMB311 ->
      cipherId c = 0 /\ preauthIntegrityHashId c = 0
      /\ preauthIntegrityHashValue c = repeat x00 64).
Proof.
  intros Hrun Hout. unfold negotiate in Hrun.
  destruct (negotiateFrom_agreed _ _ _ _ _ _ _ _ Hrun Hout)
    as ((A1 & A2 & A3 & A4 & A5 & A6 & A7 & A8 & A9) & Hrm & _).
  rewrite Hrm in A4. simpl in *. repeat split; try assumption; apply A9; assumption.
Qed.

(** X22: when the negotiator specifies no dialect, [negotiate] takes over
    whatever dialect a well-formed reply names, other than the wildcard
    0x02FF: the dialect is not checked against the dialects offered. *)
Theorem finish_takes_any_dialect (n : Negotiator) request reply (c : conn account)
    payload :
  SpecifiedDialect n = UnknownSMB ->
  accept SMB2_NEGOTIATE reply = Ret (Some payload, None) ->
  NegotiateResponse.IsInvalid (NegotiateResponseDecoder (elems payload)) = false ->
  NegotiateResponse.DialectRevision (NegotiateResponseDecoder (elems payload)) <> SMB2 ->
  NegotiateResponse.DialectRevision (NegotiateResponseDecoder (elems payload)) <> SMB311 ->
  exists c',
    finish n request reply c = Ret (Finished (inl c'))
    /\ dialect c'
       = NegotiateResponse.DialectRevision (NegotiateResponseDecoder (elems payload))
    /\ requests c' = requests c /\ records c' = records c.
Proof.
  intros Hu Hacc Hvalid H2 H3.
  rewrite (finish_valid n request reply c payload Hacc Hvalid). cbn zeta.
  destruct (Z.eqb_spec (NegotiateResponse.DialectRevision
                          (NegotiateResponseDecoder (elems payload))) SMB2) as [E|_];
    [contradiction|].
  rewrite Hu. simpl.
  destruct (Z.eqb_spec (NegotiateResponse.DialectRevision
                          (NegotiateResponseDecoder (elems payload))) SMB311) as [E|_];
    [contradiction|].
  simpl. eexists. split; [reflexivity|]. repeat split.
Qed.

End NegotiationMore.

(** ** The compound loop ends *)

Section CompoundEnds.
Import GoSlice Conn.
Context {S : Type} (handle : slice -> S -> result S).

(** More fuel than the loop needs changes nothing. *)
Lemma splitCompound_more_fuel fuel : forall pkt st r fuel',
  splitCompound handle fuel pkt st = Some r ->
  (fuel <= fuel')%nat ->
  splitCompound handle fuel' pkt st = Some r.
Proof.
  induction fuel as [|fuel IH]; intros pkt st r fuel'; [discriminate|].
  destruct fuel' as [|fuel']; [lia|]. simpl.
  destruct (PacketCodec.NextCommand pkt) as [off| |]; try (intros; assumption).
  destruct (negb (off =? 0)).
  - destruct (slice_to pkt (Z.to_nat off)) as [head|]; simpl; try (intros; assumption).
    destruct (slice_from pkt (Z.to_nat off)) as [next|]; simpl; try (intros; assumption).
    destruct (handle head st) as [st1| |]; try (intros; assumption).
    intros H Hle. apply (IH _ _ _ fuel' H). lia.
  - simpl. intros; assumption.
Qed.

(** X23: the loop over the elements of a compound chain ends on every
    frame, whatever the NextCommand fields say: a frame in a buffer of
    capacity n takes at most n + 1 turns, since every turn but the last
    moves on by a nonzero offset inside the buffer. *)
Theorem compound_loop_ends pkt st :
  exists r, forall fuel, (cap pkt < fuel)%nat -> splitCompound handle fuel pkt st = Some r.
Proof.
  destruct (splitCompound_fuel handle (Datatypes.S (cap pkt)) pkt st) as [r Hr]; [lia|].
  exists r. intros fuel Hfuel.
  apply (splitCompound_more_fuel _ _ _ _ _ Hr). lia.
Qed.

End CompoundEnds.
(** * Part III: the properties at concrete inputs *)

Module Cases.
Import GoSlice Examples.

(** C7 at a concrete input: a write of 1 MiB needs 16 credits; the account
    lends 4, and the payload granted is 262144 bytes. *)
Lemma loanCredit_large_mtu_witness :
  1 <= Conn.creditChargeFor 1048576 (exampleConn 4)
  /\ 65536 * (Conn.creditChargeFor 1048576 (exampleConn 4) - 1) < 1048576
     <= 65536 * Conn.creditChargeFor 1048576 (exampleConn 4)
  /\ Conn.loanCredit 1048576 (exampleConn 4)
     = Ret (4, 262144, None, Conn.set_acct (mkLedger 4 []) (exampleConn 4)).
Proof.
  apply (loanCredit_large_mtu 1048576 (exampleConn 4) 4 false (mkLedger 4 []));
    [vm_compute; discriminate | lia | reflexivity].
Defined.

(** C7 (as stated) fails: a payload of 2^32 bytes needs 65536 credits,
    and the charge asked for is 0, which is not even 1. *)
Lemma loanCredit_charge_wraps :
  Conn.creditChargeFor (2 ^ 32) (exampleConn 4) = 0
  /\ (2 ^ 32 + 65535) / 65536 = 65536.
Proof. split; reflexivity. Qed.

(** C10 at a concrete input: a signed packet with the message id of
    unsolicited notifications is let through on a connection that requires signing and whose session
    verifies nothing. *)
Lemma tryVerify_unsolicited_witness :
  Conn.tryVerify (reply 0 1 0x8 0xFFFFFFFFFFFFFFFF) false (sessionConn 4) = Ret None.
Proof.
  apply (tryVerify_unsolicited (reply 0 1 0x8 0xFFFFFFFFFFFFFFFF) false (sessionConn 4)).
  reflexivity.
Defined.

(** The same packet under another message id is refused. *)
Example tryVerify_solicited_refused :
  Conn.tryVerify (reply 0 1 0x8 5) false (sessionConn 4)
  = Ret (Some (InvalidResponseError "unverified packet returned")).
Proof. reflexivity. Qed.



(** The same through the receiver's loop: on a connection that uses its
    session, a signed reply that does not verify completes request 5 with
    the error, and no credit is charged. *)
Example unverified_reply_discards_loan :
  exists c',
    Conn.handleFrame true false (reply 0 1 0x8 5) outstandingConn = Ret (c', None)
    /\ charged (Conn.acct c') = []
    /\ Conn.err c' = None
    /\ (RR.err <$> Conn.records c' !! 1%positive)
       = Some (Some (InvalidResponseError "unverified packet returned")).
Proof.
  eexists. split; [vm_compute; reflexivity|]. repeat split; reflexivity.
Qed.

(** C1 at a concrete input: [shutdown] on the connection with request 5
    outstanding. *)
Lemma shutdown_fails_records_witness :
  exists c',
    Conn.shutdown (TransportError "EOF") outstandingConn = Ret c'
    /\ Conn.requests c' = Conn.requests outstandingConn
    /\ forall id l, Conn.requests outstandingConn !! id = Some l ->
         (exists rr rr',
            Conn.records outstandingConn !! l = Some rr
            /\ Conn.records c' !! l = Some rr'
            /\ RR.err rr' = Some (TransportError "EOF")
            /\ Chan.closed (RR.recv rr') = true
            /\ RR.msgId rr' = RR.msgId rr)
         /\ Conn.pop id c'
            = (Some l, Conn.set_requests (delete id (Conn.requests outstandingConn)) c').
Proof.
  apply (shutdown_fails_records (TransportError "EOF") outstandingConn).
  split.
  - intros i j l Hi Hj. simpl in Hi, Hj.
    apply lookup_singleton_Some in Hi as [<- _].
    apply lookup_singleton_Some in Hj as [<- _]. reflexivity.
  - intros i l Hi. simpl in Hi.
    apply lookup_singleton_Some in Hi as [<- <-].
    exists (waiting 5 1). split; reflexivity.
Defined.

(** C1 (as stated) fails: after [shutdown], [pop] for the message id that
    was in the table finds the record, it does not return absent. *)
Lemma pop_after_shutdown_finds_record :
  exists c',
    Conn.shutdown (TransportError "EOF") outstandingConn = Ret c'
    /\ (Conn.pop 5 c').1 = Some 1%positive.
Proof. eexists. split; [vm_compute; reflexivity | reflexivity]. Qed.

(** C2 at a concrete input: a cancel request on the connection with
    request 5 outstanding. *)
Lemma makeRequestResponse_cancel_witness :
  Conn.sequenceWindow (Conn.makeRequestResponse cancelRequest None outstandingConn).1
  = Conn.sequenceWindow outstandingConn
  /\ Conn.acct (Conn.makeRequestResponse cancelRequest None outstandingConn).1
     = Conn.acct outstandingConn
  /\ match (Conn.makeRequestResponse cancelRequest None outstandingConn).2 with
     | inr _ =>
         Conn.requests (Conn.makeRequestResponse cancelRequest None outstandingConn).1
         = Conn.requests outstandingConn
     | inl l =>
         Conn.records outstandingConn !! l = None
         /\ Conn.requests (Conn.makeRequestResponse cancelRequest None outstandingConn).1
            = <[0 := l]> (Conn.requests outstandingConn)
         /\ exists rr,
              Conn.records (Conn.makeRequestResponse cancelRequest None outstandingConn).1 !! l
              = Some rr
              /\ RR.msgId rr = 0
     end.
Proof.
  apply (makeRequestResponse_cancel cancelRequest None outstandingConn).
  reflexivity.
Defined.

(** C2 (as stated) fails in its second half: the record made for a cancel
    request is entered in the outstanding-request table, under message
    id 0. *)
Lemma cancel_record_is_entered :
  exists l,
    (Conn.makeRequestResponse cancelRequest None outstandingConn).2 = inl l
    /\ Conn.requests (Conn.makeRequestResponse cancelRequest None outstandingConn).1 !! 0
       = Some l.
Proof. eexists. split; vm_compute; reflexivity. Qed.


(** What these three sends give: message ids 1 and 2, and the window
    at 5. *)
Example sendAll_three :
  exists c',
    Conn.sendAll [plainCall (readRequest 1); plainCall cancelRequest;
                  plainCall (readRequest 3)] (exampleConn 4)
    = Ret (c', [Some 1; None; Some 2])
    /\ Conn.sequenceWindow c' = 5.
Proof. eexists. split; [vm_compute; reflexivity | reflexivity]. Qed.


(** Nor does the window stay the plain sum when it passes 2^64. *)
Example sequenceWindow_wraps :
  Conn.sequenceWindow
    (Conn.makeRequestResponse (readRequest 1) None
       (Conn.set_sequenceWindow (2 ^ 64 - 1) (exampleConn 4))).1 = 0.
Proof. reflexivity. Qed.

(** C3 (as the code behaves): a frame of 64 bytes whose NextCommand is 64,
    the length of the frame, is not ended there: the loop handles the 64
    bytes and then a second, empty element, whose header fields it reads
    from the buffer behind the frame (here the message id 7 of an earlier
    reply). *)
Theorem compound_offset_equal_to_length_reads_past_frame :
  len (chained 64) = 64%nat
  /\ Conn.splitCompound listElements (S (cap (chained 64))) (chained 64) []
     = Some (Ret [mk (backing (chained 64)) 64;
                  mk (drop 64 (backing (chained 64))) 0])
  /\ PacketCodec.MessageId (mk (drop 64 (backing (chained 64))) 0) = Ret 7.
Proof. repeat split; vm_compute; reflexivity. Qed.

(** With an offset past the frame the receiver panics. *)
Example compound_offset_past_frame_panics :
  Conn.splitCompound listElements (S (cap (chained 65))) (chained 65) []
  = Some Panic.
Proof. vm_compute. reflexivity. Qed.

(** With an offset inside the header the elements overlap: the first has
    8 bytes, and the second starts inside the header of the first. *)
Example compound_offset_inside_header :
  exists rest,
    Conn.splitCompound listElements (S (cap (chained 8))) (chained 8) []
    = Some (Ret (mk (backing (chained 8)) 8 :: rest)).
Proof. eexists. vm_compute. reflexivity. Qed.

(** On the connection the frame with offset 64 completes request 5 and
    then request 7, which the frame does not answer: its waiter gets the
    empty element. *)
Example compound_replays_stale_reply :
  exists c',
    Conn.handleFrame false false (chained 64) twoOutstanding = Ret (c', None)
    /\ Conn.requests c' = ∅
    /\ (RR.recv <$> Conn.records c' !! 2%positive)
       = Some (Chan.mk (Some (mk (drop 64 (backing (chained 64))) 0)) false).
Proof. eexists. split; [vm_compute; reflexivity|]. split; reflexivity. Qed.

(** The digests of the empty string and of "abc", as FIPS 180-4 lists
    them. *)
Example sha512_abc :
  Fips180.sha512 [x61; x62; x63]
  = [xdd; xaf; x35; xa1; x93; x61; x7a; xba; xcc; x41; x73; x49; xae; x20; x41; x31;
     x12; xe6; xfa; x4e; x89; xa9; x7e; xa2; x0a; x9e; xee; xe6; x4b; x55; xd3; x9a;
     x21; x92; x99; x2a; x27; x4f; xc1; xa8; x36; xba; x3c; x23; xa3; xfe; xeb; xbd;
     x45; x4d; x44; x23; x64; x3c; xe8; x0e; x2a; x9a; xc9; x4f; xa5; x4c; xa4; x9f].
Proof. vm_compute. reflexivity. Qed.

Example sha512_empty :
  Fips180.sha512 []
  = [xcf; x83; xe1; x35; x7e; xef; xb8; xbd; xf1; x54; x28; x50; xd6; x6d; x80; x07;
     xd6; x20; xe4; x05; x0b; x57; x15; xdc; x83; xf4; xa9; x21; xd3; x6c; xe9; xce;
     x47; xd0; xd1; x3c; x5d; x85; xf2; xb0; xff; x83; x18; xd2; x87; x7e; xec; x2f;
     x63; xb9; x31; xbd; x47; x41; x7a; x81; xa5; x38; x32; x7a; xf9; x27; xda; x3e].
Proof. vm_compute. reflexivity. Qed.




(** ** The further properties at concrete inputs *)

Import FrameExamples.

(** X1 at a concrete input: of a key of 32 bytes the first 16 are kept. *)
Lemma sessionKey_truncates_witness :
  elems <$> Krb5.sessionKey (of_list (repeat x11 16 ++ repeat x22 16))
  = Ret (take 16 (elems (of_list (repeat x11 16 ++ repeat x22 16)))).
Proof.
  apply (sessionKey_truncates (of_list (repeat x11 16 ++ repeat x22 16)));
    vm_compute; lia.
Defined.

(** X3 at a concrete input: a READ reply with STATUS_SUCCESS and nothing
    behind its header. *)
Lemma accept_success_witness :
  PacketCodec.Command (reply 0 1 0 5) = Ret 0x8
  /\ (PacketCodec.Status (reply 0 1 0 5) = Ret STATUS_SUCCESS
      \/ (0x8 = SMB2_SESSION_SETUP
          /\ PacketCodec.Status (reply 0 1 0 5) = Ret STATUS_MORE_PROCESSING_REQUIRED))
  /\ exists d, Some (mk [] 0) = Some d /\ PacketCodec.Data (reply 0 1 0 5) = Ret d.
Proof.
  apply (accept_success 0x8 (reply 0 1 0 5) (Some (mk [] 0))).
  vm_compute. reflexivity.
Defined.

(** X5 at a concrete input: a signed reply on a connection whose session
    verifies nothing. *)
Lemma tryVerify_signed_witness :
  (Conn.tryVerify (reply 0 1 0x8 5) false (sessionConn 4) = Ret None
   <-> exists s, Conn.session (sessionConn 4) = Some s /\ sessionId s = 0x1122
                 /\ verify s (reply 0 1 0x8 5) = true)
  /\ exists r, Conn.tryVerify (reply 0 1 0x8 5) false (sessionConn 4) = Ret r.
Proof.
  apply (tryVerify_signed (reply 0 1 0x8 5) false (sessionConn 4) 5 0x8 0x1122);
    first [reflexivity | lia | vm_compute; discriminate].
Defined.

(** X6 at a concrete input: an unsigned reply on a connection that
    requires signing. *)
Lemma tryVerify_unsigned_witness :
  (Conn.tryVerify (reply 0 1 0 5) false (sessionConn 4)
   = Ret (Some (InvalidResponseError "signing required"))
   \/ Conn.tryVerify (reply 0 1 0 5) false (sessionConn 4) = Ret None)
  /\ (Conn.tryVerify (reply 0 1 0 5) false (sessionConn 4)
      = Ret (Some (InvalidResponseError "signing required"))
      <-> Conn.requireSigning (sessionConn 4) = true /\ false = false
          /\ exists s, Conn.session (sessionConn 4) = Some s
                       /\ Z.land (sessionFlags s)
                            (Z.lor SMB2_SESSION_FLAG_IS_GUEST SMB2_SESSION_FLAG_IS_NULL) = 0
                       /\ sessionId s = 0x1122).
Proof.
  apply (tryVerify_unsigned (reply 0 1 0 5) false (sessionConn 4) 5 0 0x1122);
    first [reflexivity | lia].
Defined.

(** X7 at a concrete input: the reply to request 5. *)
Lemma tryHandle_then_recv_witness :
  exists c1 c2,
    Conn.tryHandle (reply 0 1 0 5) None outstandingConn = Ret (c1, None)
    /\ Conn.requests c1 = delete 5 (Conn.requests outstandingConn)
    /\ Conn.recv 1%positive None c1 = Ret (c2, inl (reply 0 1 0 5))
    /\ Conn.acct c2 = charge 1 (RR.creditRequest (waiting 5 1)) (Conn.acct outstandingConn)
    /\ Conn.requests c2 = delete 5 (Conn.requests outstandingConn).
Proof.
  apply (tryHandle_then_recv (reply 0 1 0 5) outstandingConn 5 1%positive (waiting 5 1) 0 1);
    first [reflexivity | vm_compute; discriminate].
Defined.


(** X9 at a concrete input: an interim reply to request 5 that grants one
    credit, then the final reply that grants two. *)
Lemma tryHandle_pending_then_final_witness :
  exists c1 c2,
    Conn.tryHandle (reply 0x103 1 0 5) None outstandingConn = Ret (c1, None)
    /\ Conn.requests c1 = Conn.requests outstandingConn
    /\ (RR.asyncId <$> Conn.records c1 !! 1%positive) = Some 0
    /\ Conn.tryHandle (reply 0 2 0 5) None c1 = Ret (c2, None)
    /\ Conn.requests c2 = delete 5 (Conn.requests outstandingConn)
    /\ (RR.recv <$> Conn.records c2 !! 1%positive)
       = Some (Chan.mk (Some (reply 0 2 0 5)) false)
    /\ (RR.asyncId <$> Conn.records c2 !! 1%positive) = Some 0
    /\ Conn.acct c2 = charge 2 (RR.creditRequest (waiting 5 1))
                        (charge 1 (RR.creditRequest (waiting 5 1))
                           (Conn.acct outstandingConn)).
Proof.
  apply (tryHandle_pending_then_final (reply 0x103 1 0 5) (reply 0 2 0 5) outstandingConn
           5 1%positive (waiting 5 1) 0 1 0 2);
    first [reflexivity | vm_compute; discriminate].
Defined.

(** X10 at a concrete input: the caller of request 5 gives up, and the
    reply comes late. *)
Lemma recv_cancelled_then_late_reply_witness :
  exists c1,
    Conn.recv 1%positive (Some "deadline exceeded"%string) outstandingConn
    = Ret (c1, inr (ContextError "deadline exceeded"))
    /\ Conn.requests c1 = delete (RR.msgId (waiting 5 1)) (Conn.requests outstandingConn)
    /\ Conn.acct c1 = Conn.acct outstandingConn
    /\ Conn.tryHandle (reply 0 1 0 5) None c1
       = Ret (c1, Some (InvalidResponseError "unknown message id returned")).
Proof.
  apply (recv_cancelled_then_late_reply 1%positive "deadline exceeded"%string
           outstandingConn (waiting 5 1) (reply 0 1 0 5) None);
    reflexivity.
Defined.

(** X11 at a concrete input: a read of charge 3 whose write fails. *)
Lemma sendWith_failure_consumes_id_witness :
  exists c',
    Conn.sendWith (readRequest 3) None brokenPipe (exampleConn 4)
    = Ret (c', inr (TransportError "broken pipe"))
    /\ Conn.sequenceWindow c'
       = uint64 (Conn.sequenceWindow (exampleConn 4) + CreditCharge (Header (readRequest 3)))
    /\ Conn.err c' = None
    /\ (Conn.requests (exampleConn 4) !! Conn.sequenceWindow (exampleConn 4) = None ->
        Conn.requests c' = Conn.requests (exampleConn 4)).
Proof.
  eexists. split; [vm_compute; reflexivity|].
  eapply (sendWith_failure_consumes_id (readRequest 3) None brokenPipe (exampleConn 4) _
            (TransportError "broken pipe"));
    first [reflexivity | vm_compute; reflexivity].
Defined.

(** X12 at a concrete input: the read fails while request 5 is
    outstanding. *)
Lemma receiverExit_propagates_witness :
  exists c',
    Conn.receiverExit "EOF" false outstandingConn = Ret c'
    /\ Conn.err c' = Some (TransportError "EOF")
    /\ (forall req tc env,
          Conn.sendWith req tc env c' = Ret (c', inr (TransportError "EOF")))
    /\ forall id l, Conn.requests outstandingConn !! id = Some l ->
         exists c'', Conn.recv l None c' = Ret (c'', inr (TransportError "EOF")).
Proof.
  apply (receiverExit_propagates "EOF" false outstandingConn).
  split.
  - intros i j l Hi Hj. simpl in Hi, Hj.
    apply lookup_singleton_Some in Hi as [<- _].
    apply lookup_singleton_Some in Hj as [<- _]. reflexivity.
  - intros i l Hi. simpl in Hi.
    apply lookup_singleton_Some in Hi as [<- <-].
    exists (waiting 5 1). split; reflexivity.
Defined.

(** X13 at a concrete input: a frame of two replies. *)
Lemma splitCompound_covers_frame_witness :
  exists els,
    Conn.splitCompound listElements (S (cap (twoReplies 9 5))) (twoReplies 9 5) []
    = Some (Ret els)
    /\ length els = 2%nat
    /\ concat (elems <$> els) = concat (elems <$> []) ++ elems (twoReplies 9 5).
Proof.
  eexists. split; [vm_compute; reflexivity|]. split; [reflexivity|].
  apply (splitCompound_covers_frame (S (cap (twoReplies 9 5))) (twoReplies 9 5) []).
  vm_compute. reflexivity.
Defined.

(** X14 at a concrete input: before the session is used, a frame whose
    first element answers the unknown message 9 fails request 5, which its
    second element answers. *)
Lemma handleFrame_error_passes_on_witness :
  Conn.handleFrame false false (twoReplies 9 5) twoOutstanding
  = Ret (Conn.store 1%positive
           (RR.shut (InvalidResponseError "unknown message id returned") (waiting 5 1))
           (Conn.set_requests (delete 5 (Conn.requests twoOutstanding)) twoOutstanding),
         None).
Proof.
  apply (handleFrame_error_passes_on (twoReplies 9 5) twoOutstanding 64
           (mk (backing (twoReplies 9 5)) 64)
           (mk (drop 64 (backing (twoReplies 9 5))) 64) 9 5 1%positive (waiting 5 1));
    first [reflexivity | lia | vm_compute; reflexivity].
Defined.

(** X15 at a concrete input: a TRANSFORM frame of the session around the
    reply to request 5. *)
Lemma receiveFrame_handled_witness :
  exists c' last,
    Receiver.receiveFrame true (sealed 0x1122 (elems (reply 0 1 0 5))) outstandingConn
    = Ret (c', Receiver.Handled last)
    /\ exists clear enc,
         (if PacketIsInvalid (sealed 0x1122 (elems (reply 0 1 0 5)))
          then enc = true
               /\ TransformIsInvalid (sealed 0x1122 (elems (reply 0 1 0 5))) = false
               /\ TransformFlags (sealed 0x1122 (elems (reply 0 1 0 5))) = Encrypted
               /\ TransformSessionId (sealed 0x1122 (elems (reply 0 1 0 5)))
                  = sessionId exampleSession
               /\ decrypt exampleSession (sealed 0x1122 (elems (reply 0 1 0 5)))
                  = inl clear
          else enc = false /\ clear = sealed 0x1122 (elems (reply 0 1 0 5)))
         /\ PacketCodec.SessionId clear = Ret (sessionId exampleSession)
         /\ Conn.handleFrame true enc clear outstandingConn = Ret (c', last).
Proof.
  eexists _, _. split; [vm_compute; reflexivity|].
  eapply (receiveFrame_handled (sealed 0x1122 (elems (reply 0 1 0 5))) outstandingConn
            _ _ exampleSession);
    [reflexivity | vm_compute; reflexivity].
Defined.

(** What becomes of that frame: the reply is delivered to request 5, and
    no error is left. *)
Example sealed_reply_is_delivered :
  exists c',
    Receiver.receiveFrame true (sealed 0x1122 (elems (reply 0 1 0 5))) outstandingConn
    = Ret (c', Receiver.Handled None)
    /\ Conn.requests c' = ∅
    /\ (Chan.buf <$> (RR.recv <$> Conn.records c' !! 1%positive))
       = Some (Some (mk (elems (reply 0 1 0 5)) 64)).
Proof. eexists. split; [vm_compute; reflexivity|]. split; reflexivity. Qed.

(** X16 at a concrete input: a reply to request 5 that names another
    session is skipped, and request 5 stays outstanding. *)
Lemma receiveFrame_skipped_witness :
  exists c' e,
    Receiver.receiveFrame true (of_list (headerBytes 1 0 0x8 1 0 0 5 0 0x9999))
      outstandingConn
    = Ret (c', Receiver.Skipped e)
    /\ c' = outstandingConn /\ true = true
    /\ exists msg, e = InvalidResponseError msg.
Proof.
  eexists _, _. split; [vm_compute; reflexivity|].
  eapply (receiveFrame_skipped true (of_list (headerBytes 1 0 0x8 1 0 0 5 0 0x9999))
            outstandingConn).
  vm_compute. reflexivity.
Defined.

(** X17 at a concrete input: a read request is sent, its reply is read
    and the caller receives it. *)
Lemma doSteps_keeps_table_witness :
  exists c',
    Receiver.doSteps [Receiver.Send (readRequest 1) None written;
                      Receiver.Read false (reply 0 1 0 1);
                      Receiver.Recv 1%positive None] (exampleConn 4) = Ret c'
    /\ Receiver.tableReady c' /\ Conn.evolves (exampleConn 4) c'.
Proof.
  eexists. split; [vm_compute; reflexivity|].
  eapply (doSteps_keeps_table [Receiver.Send (readRequest 1) None written;
                               Receiver.Read false (reply 0 1 0 1);
                               Receiver.Recv 1%positive None] (exampleConn 4)).
  - split.
    + intros i j l Hi. simpl in Hi. rewrite lookup_empty in Hi. discriminate.
    + intros i l Hi. simpl in Hi. rewrite lookup_empty in Hi. discriminate.
  - vm_compute. reflexivity.
Defined.

(** X18 at a concrete input: after a request has been sent on a new
    connection, a reply to a message that was never sent is dispatched. *)
Lemma tryHandle_returns_witness :
  exists c,
    Receiver.doSteps [Receiver.Send (readRequest 1) None written]
      (Conn.newConn (mkLedger 1 [])) = Ret c
    /\ exists c' r, Conn.tryHandle (reply 0 1 0 9) None c = Ret (c', r).
Proof.
  eexists. split; [vm_compute; reflexivity|].
  eapply (tryHandle_returns [Receiver.Send (readRequest 1) None written]
            (mkLedger 1 []) _ (reply 0 1 0 9) None);
    [vm_compute; reflexivity | vm_compute; lia].
Defined.

(** X19 at a concrete input: a read request of charge 1 on a connection
    whose window is at 1, answered by the reply to message 1. *)
Lemma sendRecv_round_trip_witness :
  exists c',
    Receiver.sendRecv 0x8 (readRequest 1)
      (Receiver.mkCallEnv written [(false, Conn.Frame (reply 0 1 0 1))] None)
      (exampleConn 4)
    = Ret (c', (Some (mk [] 0), None))
    /\ Conn.requests c'
       = delete (Conn.sequenceWindow (exampleConn 4)) (Conn.requests (exampleConn 4))
    /\ Conn.sequenceWindow c'
       = uint64 (Conn.sequenceWindow (exampleConn 4) + CreditCharge (Header (readRequest 1)))
    /\ Conn.err c' = None.
Proof.
  apply (sendRecv_round_trip 0x8 (readRequest 1)
           (Receiver.mkCallEnv written [(false, Conn.Frame (reply 0 1 0 1))] None)
           (exampleConn 4) (reply 0 1 0 1) 0 1 (Some (mk [] 0), None));
    first [reflexivity | vm_compute; discriminate | vm_compute; reflexivity].
Defined.

(** X20 at a concrete input: the request of a negotiator without GUID and
    without a dialect of its own. *)
Lemma makeRequest_shape_witness :
  exists req g',
    Conn.makeRequest anyDialect 0%nat = (inl req, g')
    /\ exists guid dialects ctxs,
         req = mkPacket (mkHeader 0 0 0 0 0)
                 (NegotiateRequest
                    (if Conn.RequireMessageSigning anyDialect
                     then SMB2_NEGOTIATE_SIGNING_REQUIRED
                     else SMB2_NEGOTIATE_SIGNING_ENABLED)
                    clientCapabilities guid dialects ctxs)
         /\ (Conn.isZeroGuid (Conn.ClientGuid anyDialect) = false ->
             guid = Conn.ClientGuid anyDialect)
         /\ (if Conn.SpecifiedDialect anyDialect =? UnknownSMB
             then dialects = clientDialects
             else dialects = [Conn.SpecifiedDialect anyDialect]
                  /\ In (Conn.SpecifiedDialect anyDialect)
                       [SMB202; SMB210; SMB300; SMB302; SMB311])
         /\ (if (Conn.SpecifiedDialect anyDialect =? UnknownSMB)
                || (Conn.SpecifiedDialect anyDialect =? SMB311)
             then exists salt, ctxs = [HashContext clientHashAlgorithms salt;
                                       CipherContext clientCiphers]
             else ctxs = []).
Proof.
  eexists _, _. split; [vm_compute; reflexivity|].
  eapply (makeRequest_shape anyDialect 0%nat). vm_compute. reflexivity.
Defined.

(** X21 at a concrete input: a negotiation of SMB 3.1.1 with SHA-512 and
    AES-128-GCM. *)
Lemma negotiate_connection_witness :
  exists res c,
    Conn.negotiate anyDialect (mkLedger 1 []) 0%nat
      [answeredBy (negotiateReply 0 0x0311 2 (sha512Context ++ gcmContext))]
    = Ret res
    /\ Conn.outcome res = inl c
    /\ Conn.sequenceWindow c = 1
    /\ Conn.session c = None
    /\ Conn.dialect c <> SMB2
    /\ (Conn.SpecifiedDialect (Conn.negotiator res) <> UnknownSMB ->
        Conn.dialect c = Conn.SpecifiedDialect (Conn.negotiator res))
    /\ (Conn.RequireMessageSigning anyDialect = true -> Conn.requireSigning c = true)
    /\ Z.land (Conn.capabilities c) clientCapabilities = Conn.capabilities c
    /\ (Conn.cipherId c = 0 \/ Conn.cipherId c = AES128CCM \/ Conn.cipherId c = AES128GCM)
    /\ (Conn.preauthIntegrityHashId c = 0 \/ Conn.preauthIntegrityHashId c = SHA512)
    /\ (Conn.dialect c <> SMB311 ->
        Conn.cipherId c = 0 /\ Conn.preauthIntegrityHashId c = 0
        /\ Conn.preauthIntegrityHashValue c = repeat x00 64).
Proof.
  eexists _, _. split; [vm_compute; reflexivity|]. split; [reflexivity|].
  eapply (negotiate_connection anyDialect (mkLedger 1 []) 0%nat
            [answeredBy (negotiateReply 0 0x0311 2 (sha512Context ++ gcmContext))]);
    [vm_compute; reflexivity | reflexivity].
Defined.

(** X22 at a concrete input: a reply that names 0x0301, which no client
    offers, is taken over. *)
Lemma finish_takes_any_dialect_witness :
  exists c',
    Conn.finish anyDialect (of_list []) (negotiateReply 0 0x0301 0 [])
      (Conn.newConn (mkLedger 1 []))
    = Ret (Conn.Finished (inl c'))
    /\ Conn.dialect c'
       = NegotiateResponse.DialectRevision
           (NegotiateResponseDecoder
              (elems (mk (drop 64 (backing (negotiateReply 0 0x0301 0 []))) 64)))
    /\ Conn.requests c' = Conn.requests (Conn.newConn (mkLedger 1 []))
    /\ Conn.records c' = Conn.records (Conn.newConn (mkLedger 1 [])).
Proof.
  apply (finish_takes_any_dialect anyDialect (of_list []) (negotiateReply 0 0x0301 0 [])
           (Conn.newConn (mkLedger 1 []))
           (mk (drop 64 (backing (negotiateReply 0 0x0301 0 []))) 64));
    first [reflexivity | vm_compute; reflexivity | vm_compute; discriminate].
Defined.

(** The dialect taken over there. *)
Example unoffered_dialect_is_adopted :
  exists c',
    Conn.finish anyDialect (of_list []) (negotiateReply 0 0x0301 0 [])
      (Conn.newConn (mkLedger 1 []))
    = Ret (Conn.Finished (inl c'))
    /\ Conn.dialect c' = 0x0301
    /\ ~ In 0x0301 clientDialects.
Proof.
  eexists. split; [vm_compute; reflexivity|]. split; [reflexivity|].
  simpl. intros [H|[H|[H|[H|[H|[]]]]]]; discriminate.
Qed.

End Cases.
